(** * Opal travel ledger: extraction, ledger building and weekly aggregation

    A shallow embedding of [main.py]: [parse_travel_data],
    [calculate_totals], [get_daily_totals] and the top-up computation
    of [main], together with the fragments of the Python runtime they
    rest on ([str.strip], [in], [str.replace], [datetime.strptime],
    [datetime.strftime], [list.sort], [sorted], [dict]).

    Conventions of the model:
    - a Python [str] is a [string] of 8-bit code points;
    - a Python [float] amount is an exact rational ([Q]) in the extractor
      and the aggregations; the top-up computation of [main] is given on
      exact amounts and on IEEE 754 doubles ([Double]), where an amount can
      be [nan] or infinite;
    - a raised exception is the [Raise] branch of [result];
    - a [dict] is an association list in insertion order. *)

From Stdlib Require Import Bool List String Ascii ZArith QArith Qabs Qminmax Lia.
From Stdlib Require Import Permutation Sorted.
From Stdlib Require Floats.
Import ListNotations.

Local Open Scope string_scope.
Local Open Scope Z_scope.

Set Implicit Arguments.

(** ** Exceptions *)

Inductive exn : Type := ValueError | KeyError.

Inductive result (A : Type) : Type :=
| Ok (a : A)
| Raise (e : exn).

Arguments Ok {A} a.
Arguments Raise {A} e.

Definition bind {A B : Type} (r : result A) (k : A -> result B) : result B :=
  match r with
  | Ok a => k a
  | Raise e => Raise e
  end.

Notation "x <- r ;; k" := (bind r (fun x => k))
  (at level 61, r at next level, right associativity).

Fixpoint mapM {A B : Type} (f : A -> result B) (l : list A) : result (list B) :=
  match l with
  | [] => Ok []
  | x :: xs => y <- f x ;; ys <- mapM f xs ;; Ok (y :: ys)
  end.

(** ** Strings *)

Module Str.

(** [str.isspace] on one code point below 256. *)
Definition isspace (c : ascii) : bool :=
  let n := Z.of_nat (nat_of_ascii c) in
  ((9 <=? n) && (n <=? 13)) || ((28 <=? n) && (n <=? 32))
  || (n =? 133) || (n =? 160).

Fixpoint lstrip (s : string) : string :=
  match s with
  | EmptyString => EmptyString
  | String c s' => if isspace c then lstrip s' else s
  end.

Fixpoint rstrip (s : string) : string :=
  match s with
  | EmptyString => EmptyString
  | String c s' =>
      match rstrip s' with
      | EmptyString => if isspace c then EmptyString else String c EmptyString
      | r => String c r
      end
  end.

(** [s.strip()] *)
Definition strip (s : string) : string := rstrip (lstrip s).

Fixpoint startswith (p s : string) : bool :=
  match p with
  | EmptyString => true
  | String a p' =>
      match s with
      | EmptyString => false
      | String b s' => Ascii.eqb a b && startswith p' s'
      end
  end.

(** [needle in s] *)
Fixpoint contains (needle s : string) : bool :=
  startswith needle s
  || match s with
     | EmptyString => false
     | String _ s' => contains needle s'
     end.

(** [s.replace(c, "")] for a one-character [c]. *)
Fixpoint remove_char (c : ascii) (s : string) : string :=
  match s with
  | EmptyString => EmptyString
  | String a s' => if Ascii.eqb a c then remove_char c s' else String a (remove_char c s')
  end.

Definition lower (c : ascii) : ascii :=
  let n := nat_of_ascii c in
  if (Nat.leb 65 n && Nat.leb n 90)%bool then ascii_of_nat (n + 32) else c.

(** Case-insensitive prefix test; on a match, the rest of [s]. *)
Fixpoint strip_prefix_ci (p s : string) : option string :=
  match p with
  | EmptyString => Some s
  | String a p' =>
      match s with
      | EmptyString => None
      | String b s' =>
          if Ascii.eqb (lower a) (lower b) then strip_prefix_ci p' s' else None
      end
  end.

(** The regular expression [\s+]: at least one white-space character,
    then as many as there are. *)
Definition spaces1 (s : string) : option string :=
  match s with
  | String c s' => if isspace c then Some (lstrip s') else None
  | EmptyString => None
  end.

Definition digit_of (c : ascii) : option Z :=
  let n := Z.of_nat (nat_of_ascii c) in
  if (48 <=? n) && (n <=? 57) then Some (n - 48) else None.

Definition digit_char (n : Z) : ascii := ascii_of_nat (Z.to_nat (48 + n)).

End Str.

(** ** Naive [datetime] values *)

Record datetime : Type := mkdatetime {
  year : Z; month : Z; day : Z;
  hour : Z; minute : Z; second : Z; microsecond : Z
}.

Module Calendar.

Definition is_leap (y : Z) : bool :=
  (y mod 4 =? 0) && (negb (y mod 100 =? 0) || (y mod 400 =? 0)).

Definition days_in_month (y m : Z) : Z :=
  if m =? 2 then (if is_leap y then 29 else 28)
  else if (m =? 4) || (m =? 6) || (m =? 9) || (m =? 11) then 30
  else 31.

Definition days_before_year (y : Z) : Z :=
  let p := y - 1 in p * 365 + p / 4 - p / 100 + p / 400.

Definition days_before_month (y m : Z) : Z :=
  nth (Z.to_nat m) [0; 0; 31; 59; 90; 120; 151; 181; 212; 243; 273; 304; 334] 0
  + (if (2 <? m) && is_leap y then 1 else 0).

Definition toordinal (d : datetime) : Z :=
  days_before_year (year d) + days_before_month (year d) (month d) + day d.

(** [d.weekday()]: Monday is 0. *)
Definition weekday (d : datetime) : Z := (toordinal d + 6) mod 7.

Definition day_names : list string :=
  ["Monday"; "Tuesday"; "Wednesday"; "Thursday"; "Friday"; "Saturday"; "Sunday"].

Definition month_abbrs : list string :=
  ["Jan"; "Feb"; "Mar"; "Apr"; "May"; "Jun";
   "Jul"; "Aug"; "Sep"; "Oct"; "Nov"; "Dec"].

Definition day_name (w : Z) : string := nth (Z.to_nat w) day_names "".
Definition month_abbr (m : Z) : string := nth (Z.to_nat (m - 1)) month_abbrs "".

(** The range checks of the [datetime] constructor on the date part. *)
Definition valid_date (y m d : Z) : bool :=
  (1 <=? y) && (y <=? 9999) && (1 <=? m) && (m <=? 12)
  && (1 <=? d) && (d <=? days_in_month y m).

(** [datetime(y, m, d, H, M)]; the callers below pass an hour in 0..23 and
    a minute in 0..59, so only the date part can be refused. *)
Definition make (y m d H M : Z) : result datetime :=
  if valid_date y m d then Ok (mkdatetime y m d H M 0 0) else Raise ValueError.

(** Comparison of naive datetimes: lexicographic on the fields. *)
Definition key (d : datetime) : list Z :=
  [year d; month d; day d; hour d; minute d; second d; microsecond d].

Fixpoint lex (a b : list Z) : comparison :=
  match a, b with
  | [], [] => Eq
  | [], _ :: _ => Lt
  | _ :: _, [] => Gt
  | x :: a', y :: b' =>
      match x ?= y with
      | Eq => lex a' b'
      | c => c
      end
  end.

Definition compare (a b : datetime) : comparison := lex (key a) (key b).

(** [a <= b], [a < b], [a == b] *)
Definition leb (a b : datetime) : bool :=
  match compare a b with Gt => false | _ => true end.
Definition ltb (a b : datetime) : bool :=
  match compare a b with Lt => true | _ => false end.
Definition eqb (a b : datetime) : bool :=
  match compare a b with Eq => true | _ => false end.

(** *** [strftime] *)

Definition pad2 (n : Z) : string :=
  String (Str.digit_char (n / 10)) (String (Str.digit_char (n mod 10)) "").

Definition pad4 (n : Z) : string :=
  String (Str.digit_char (n / 1000))
    (String (Str.digit_char (n / 100 mod 10))
       (String (Str.digit_char (n / 10 mod 10))
          (String (Str.digit_char (n mod 10)) ""))).

(** [d.strftime("%A")] *)
Definition strftime_A (d : datetime) : string := day_name (weekday d).

(** [d.strftime("%Y")]: the C library prints the year as a plain decimal
    number, so a year below 1000 comes out with fewer than four digits. *)
Definition strftime_Y (y : Z) : string :=
  if y <? 10 then String (Str.digit_char y) ""
  else if y <? 100 then pad2 y
  else if y <? 1000 then String (Str.digit_char (y / 100)) (pad2 (y mod 100))
  else pad4 y.

(** [d.strftime("%A %d %b %Y")] *)
Definition strftime_date (d : datetime) : string :=
  strftime_A d ++ " " ++ pad2 (day d) ++ " " ++ month_abbr (month d)
    ++ " " ++ strftime_Y (year d).

(** *** [strptime]

    [datetime.strptime] compiles the format to a regular expression that
    must match the whole string, ignoring case; white space in the format
    becomes [\s+].  The matchers below follow that expression directive by
    directive.  Where a directive is an alternation the longest alternative
    is tried first and is final: a shorter one leaves a digit in front of
    what has to be white space, [:] or the end of the string. *)

Fixpoint match_name (names : list string) (i : Z) (s : string)
  : option (Z * string) :=
  match names with
  | [] => None
  | n :: ns =>
      match Str.strip_prefix_ci n s with
      | Some r => Some (i, r)
      | None => match_name ns (i + 1) s
      end
  end.

(** One or two digits with a two-digit value in [lo .. hi], else the one
    digit if it is at least [lo1]. *)
Definition match_num (lo hi lo1 : Z) (s : string) : option (Z * string) :=
  match s with
  | EmptyString => None
  | String a r =>
      match Str.digit_of a with
      | None => None
      | Some x =>
          let one := if lo1 <=? x then Some (x, r) else None in
          match r with
          | EmptyString => one
          | String b r' =>
              match Str.digit_of b with
              | None => one
              | Some y =>
                  let v := 10 * x + y in
                  if (lo <=? v) && (v <=? hi) then Some (v, r') else one
              end
          end
      end
  end.

(** [%d]: [3[0-1]|[1-2]\d|0[1-9]|[1-9]| [1-9]] *)
Definition match_d := match_num 1 31 1.
(** [%H]: [2[0-3]|[0-1]\d|\d] *)
Definition match_H := match_num 0 23 0.
(** [%M]: [[0-5]\d|\d] *)
Definition match_M := match_num 0 59 0.

(** [%Y]: [\d\d\d\d] *)
Definition match_Y (s : string) : option (Z * string) :=
  match s with
  | String a (String b (String c (String d r))) =>
      match Str.digit_of a, Str.digit_of b, Str.digit_of c, Str.digit_of d with
      | Some x3, Some x2, Some x1, Some x0 =>
          Some (1000 * x3 + 100 * x2 + 10 * x1 + x0, r)
      | _, _, _, _ => None
      end
  | _ => None
  end.

Definition colon (s : string) : option string :=
  match s with
  | String c r => if Ascii.eqb c ":" then Some r else None
  | EmptyString => None
  end.

Definition regex_date (s : string) : option (Z * Z * Z) :=
  match match_name day_names 0 s with
  | None => None
  | Some (_, s1) =>
  match Str.spaces1 s1 with
  | None => None
  | Some s2 =>
  match match_d s2 with
  | None => None
  | Some (d, s3) =>
  match Str.spaces1 s3 with
  | None => None
  | Some s4 =>
  match match_name month_abbrs 1 s4 with
  | None => None
  | Some (m, s5) =>
  match Str.spaces1 s5 with
  | None => None
  | Some s6 =>
  match match_Y s6 with
  | Some (y, EmptyString) => Some (y, m, d)
  | _ => None
  end end end end end end end.

(** [datetime.strptime(s, "%A %d %b %Y")].  The weekday name is matched
    and then ignored: the value is built from year, month and day. *)
Definition strptime_date (s : string) : result datetime :=
  match regex_date s with
  | Some (y, m, d) => make y m d 0 0
  | None => Raise ValueError
  end.

Definition regex_time (s : string) : option (Z * Z) :=
  match match_H s with
  | None => None
  | Some (h, s1) =>
  match colon s1 with
  | None => None
  | Some s2 =>
  match match_M s2 with
  | Some (m, EmptyString) => Some (h, m)
  | _ => None
  end end end.

(** [datetime.strptime(s, "%H:%M")]: the date defaults to 1900-01-01. *)
Definition strptime_time (s : string) : result datetime :=
  match regex_time s with
  | Some (h, m) => make 1900 1 1 h m
  | None => Raise ValueError
  end.

End Calendar.

(** ** Loops, dictionaries and sorting *)

(** A [for] loop whose body may raise. *)
Fixpoint foldM {A S : Type} (f : S -> A -> result S) (l : list A) (s : S)
  : result S :=
  match l with
  | [] => Ok s
  | x :: xs => s' <- f s x ;; foldM f xs s'
  end.

Module Dict.
Section Dict.

Variables (K V : Type) (keq : K -> K -> bool).

(** A [dict]: the items in insertion order, no key twice. *)
Definition t : Type := list (K * V).

(** [d.get(k)] *)
Fixpoint get (k : K) (d : t) : option V :=
  match d with
  | [] => None
  | (k', v) :: d' => if keq k' k then Some v else get k d'
  end.

(** [d[k]] *)
Definition getitem (k : K) (d : t) : result V :=
  match get k d with
  | Some v => Ok v
  | None => Raise KeyError
  end.

(** [k in d] *)
Definition mem (k : K) (d : t) : bool :=
  match get k d with Some _ => true | None => false end.

(** [d[k] = v]: a key already there keeps its place. *)
Fixpoint set (k : K) (v : V) (d : t) : t :=
  match d with
  | [] => [(k, v)]
  | (k', v') :: d' =>
      if keq k' k then (k', v) :: d' else (k', v') :: set k v d'
  end.

(** [d.keys()] *)
Definition keys (d : t) : list K := map fst d.

(** [OrderedDict(pairs)] *)
Definition of_pairs (pairs : list (K * V)) : t :=
  fold_left (fun d kv => set (fst kv) (snd kv) d) pairs [].

End Dict.
End Dict.

Module Sorting.
Section Sorting.

Variables (A : Type) (lt : A -> A -> bool).

(** [x] goes in front of the first element that is not smaller than it. *)
Fixpoint insert (x : A) (l : list A) : list A :=
  match l with
  | [] => [x]
  | y :: l' => if lt y x then y :: insert x l' else x :: l
  end.

(** A stable sort that compares with [<] only, as [list.sort] does. *)
Fixpoint sort (l : list A) : list A :=
  match l with
  | [] => []
  | x :: l' => insert x (sort l')
  end.

(** [sorted(l, reverse=True)]: reverse, sort, reverse. *)
Definition sorted_reverse (l : list A) : list A := rev (sort (rev l)).

End Sorting.

(** [l.sort(key=f)]: the keys are computed first, once per element. *)
Definition sort_key {A B : Type} (lt : B -> B -> bool) (f : A -> result B)
  (l : list A) : result (list A) :=
  ks <- mapM f l ;;
  Ok (map snd (sort (fun p q => lt (fst p) (fst q)) (combine ks l))).

End Sorting.

(** ** The program *)

(** One activity of the ledger: the dictionary with keys ["time"],
    ["start_point"], ["end_point"] and ["fare"]. *)
Record Activity : Type := mkActivity {
  time : string;
  start_point : string;
  end_point : string;
  fare : Q
}.

(** What the XPath queries of [parse_travel_data] return on one [li] node:
    the text nodes of the time, origin, destination and amount elements. *)
Record ActivityNode : Type := mkActivityNode {
  time_element : list string;
  start_point_element : list string;
  end_point_element : list string;
  fare_element : list string
}.

(** One [activity-by-date-container]: its date texts and its [li] nodes. *)
Record DateContainer : Type := mkDateContainer {
  date_element : list string;
  activities : list ActivityNode
}.

Definition TravelData : Type := Dict.t datetime (list Activity).
Definition Ledger : Type := Dict.t string (list Activity).

(** One row of [daily_totals]: the dictionary with keys ["topup"], ["fares"]. *)
Record DayTotals : Type := mkDayTotals { topup : Q; fares : Q }.

Definition DailyTotals : Type := Dict.t string DayTotals.

Definition Qltb (x y : Q) : bool := negb (Qle_bool y x).

Section Program.

(** The built-in [float] on a string: a value, or [ValueError]. *)
Variable float : string -> result Q.

Definition time_key (a : Activity) : result datetime :=
  Calendar.strptime_time (time a).

Definition extract_activity (activity : ActivityNode) : result Activity :=
  let time_str :=
    match time_element activity with
    | t :: _ => Str.strip t
    | [] => "00:00"
    end in
  let start_point :=
    match start_point_element activity with
    | t :: _ => Str.strip t
    | [] => "Unknown"
    end in
  let end_point :=
    match end_point_element activity with
    | t :: _ => Str.strip t
    | [] => "Unknown"
    end in
  fare <- match fare_element activity with
          | t :: _ => float (Str.remove_char "$" (Str.strip t))
          | [] => Ok 0%Q
          end ;;
  if Str.contains "Top up" start_point
  then Ok (mkActivity time_str "Top Up" "Opal Travel App" fare)
  else Ok (mkActivity time_str start_point end_point fare).

(** The body of the inner loop: extract one activity and append it to
    [travel_data[date_obj]]. *)
Definition append_activity (date_obj : datetime) (travel_data : TravelData)
  (activity : ActivityNode) : result TravelData :=
  a <- extract_activity activity ;;
  cur <- Dict.getitem Calendar.eqb date_obj travel_data ;;
  Ok (Dict.set Calendar.eqb date_obj (cur ++ [a])%list travel_data).

(** The body of the outer loop. *)
Definition parse_container (travel_data : TravelData) (date_container : DateContainer)
  : result TravelData :=
  match date_element date_container with
  | [] => Ok travel_data
  | t :: _ =>
      match Calendar.strptime_date (Str.strip t) with
      | Raise ValueError => Ok travel_data
      | Raise e => Raise e
      | Ok date_obj =>
          let travel_data := Dict.set Calendar.eqb date_obj [] travel_data in
          travel_data <- foldM (append_activity date_obj)
                           (activities date_container) travel_data ;;
          cur <- Dict.getitem Calendar.eqb date_obj travel_data ;;
          sorted <- Sorting.sort_key Calendar.ltb time_key cur ;;
          Ok (Dict.set Calendar.eqb date_obj sorted travel_data)
      end
  end.

Definition parse_travel_data (tree : list DateContainer) : result Ledger :=
  travel_data <- foldM parse_container tree [] ;;
  items <- mapM (fun date =>
                   acts <- Dict.getitem Calendar.eqb date travel_data ;;
                   Ok (Calendar.strftime_date date, acts))
             (Sorting.sorted_reverse Calendar.ltb (Dict.keys travel_data)) ;;
  Ok (Dict.of_pairs String.eqb items).

End Program.

(** The inner loop of [calculate_totals]. *)
Definition add_activity (totals : Q * Q) (activity : Activity) : Q * Q :=
  let (total_top_up, total_fare_charged) := totals in
  if String.eqb (start_point activity) "Top Up"
  then ((total_top_up + fare activity)%Q, total_fare_charged)
  else (total_top_up, (total_fare_charged + fare activity)%Q).

(** The body of the outer loop of [calculate_totals]. *)
Definition calculate_totals_item (last_monday : datetime) (totals : Q * Q)
  (item : string * list Activity) : result (Q * Q) :=
  date_obj <- Calendar.strptime_date (fst item) ;;
  if Calendar.leb last_monday date_obj
  then Ok (fold_left add_activity (snd item) totals)
  else Ok totals.

Definition calculate_totals (travel_dict : Ledger) (last_monday : datetime)
  : result (Q * Q) :=
  foldM (calculate_totals_item last_monday) travel_dict (0%Q, 0%Q).

(** The inner loop of [get_daily_totals]. *)
Definition add_daily (weekday : string) (daily_totals : DailyTotals)
  (activity : Activity) : result DailyTotals :=
  cur <- Dict.getitem String.eqb weekday daily_totals ;;
  if String.eqb (start_point activity) "Top Up"
  then Ok (Dict.set String.eqb weekday
             (mkDayTotals (topup cur + fare activity)%Q (fares cur)) daily_totals)
  else Ok (Dict.set String.eqb weekday
             (mkDayTotals (topup cur) (fares cur + Qabs (fare activity))%Q) daily_totals).

(** The body of the outer loop of [get_daily_totals]. *)
Definition get_daily_totals_item (last_monday : datetime)
  (daily_totals : DailyTotals) (item : string * list Activity)
  : result DailyTotals :=
  date_obj <- Calendar.strptime_date (fst item) ;;
  if Calendar.ltb date_obj last_monday then Ok daily_totals
  else
    let weekday := Calendar.strftime_A date_obj in
    let daily_totals :=
      if Dict.mem String.eqb weekday daily_totals then daily_totals
      else Dict.set String.eqb weekday (mkDayTotals 0 0) daily_totals in
    foldM (add_daily weekday) (snd item) daily_totals.

Definition get_daily_totals (travel_dict : Ledger) (last_monday : datetime)
  : result DailyTotals :=
  foldM (get_daily_totals_item last_monday) travel_dict [].

(** The balance floor of [main]. *)
Definition target_floor : Q := 50.

(** [topup_needed] as [main] computes it from the balance and the week's
    fares, on exact amounts. *)
Definition topup_needed (balance total_fare_charged : Q) : Q :=
  let topup_needed := (target_floor - (balance - total_fare_charged))%Q in
  if Qltb topup_needed 0 then 0%Q else topup_needed.

(** The same computation on the doubles that Python's [float] values are:
    [float("nan")] and [float("inf")] are amounts too, every comparison
    with [nan] is false, and [inf - inf] is [nan]. *)
Module Double.
Import PrimFloat.
Local Open Scope float_scope.

Definition topup_needed (balance total_fare_charged : float) : float :=
  let topup_needed := 50 - (balance - total_fare_charged) in
  if topup_needed <? 0 then 0 else topup_needed.

(** The built-in [max(a, b)]: [b] if [b > a], else [a]. *)
Definition max (a b : float) : float := if a <? b then b else a.

(** The amount the top-up is meant to be, for a floor that can be
    chosen. *)
Definition target (target_floor balance total_fare_charged : float) : float :=
  max 0 (target_floor - (balance - total_fare_charged)).

(** Both amounts are the same infinity. *)
Definition same_infinity (a b : float) : bool :=
  ((a =? infinity) && (b =? infinity))
  || ((a =? neg_infinity) && (b =? neg_infinity)).

(** No amount can be given to the computation: one of the two is [nan],
    or their difference is [inf - inf]. *)
Definition undefined (balance total_fare_charged : float) : bool :=
  is_nan balance || is_nan total_fare_charged
  || same_infinity balance total_fare_charged.

End Double.

(** ** Decimal amounts

    The fragment of [float] on which the examples below run: an optional
    sign and a plain decimal literal, white space around it ignored, with
    its exact value.  Every theorem of the extractor is stated for an
    arbitrary [float]. *)

Module Decimal.

Fixpoint digits (s : string) (acc : Z) (n : nat) : Z * nat * string :=
  match s with
  | EmptyString => (acc, n, s)
  | String c s' =>
      match Str.digit_of c with
      | Some d => digits s' (10 * acc + d) (S n)
      | None => (acc, n, s)
      end
  end.

Definition unsigned (s : string) : option Q :=
  let '(i, ni, r) := digits s 0 0 in
  match r with
  | EmptyString => if Nat.eqb ni 0 then None else Some (inject_Z i)
  | String c r' =>
      if Ascii.eqb c "." then
        let '(f, nf, r'') := digits r' i 0 in
        match r'' with
        | EmptyString =>
            if Nat.eqb (ni + nf) 0 then None
            else Some (Qmake f (Z.to_pos (10 ^ Z.of_nat nf)))
        | _ => None
        end
      else None
  end.

Definition float (s : string) : result Q :=
  let s := Str.strip s in
  let '(neg, body) :=
    match s with
    | String c s' =>
        if Ascii.eqb c "-" then (true, s')
        else if Ascii.eqb c "+" then (false, s') else (false, s)
    | EmptyString => (false, s)
    end in
  match unsigned body with
  | Some q => Ok (if neg then Qopp q else q)
  | None => Raise ValueError
  end.

End Decimal.

(** ** Sample documents

    A document with a Monday holding a fare and a top-up out of order, a
    container whose date label is not a date, and the Saturday before. *)
Definition scenario_A : list DateContainer :=
  [ mkDateContainer ["  Monday 03 Jun 2024 "]
      [ mkActivityNode ["08:15"] ["Home"] ["City"] ["-$4.50"];
        mkActivityNode ["07:00"] ["Top up machine"] [""] ["$20.00"] ];
    mkDateContainer ["Sometime Last Week"]
      [ mkActivityNode ["xx"] [] [] ["N/A"] ];
    mkDateContainer ["Saturday 01 Jun 2024"]
      [ mkActivityNode [] ["Central"] [] ["-$10.00"] ] ].

(** ** Vocabulary of the statements *)

(** The values [strptime_date] returns: a date of the calendar at
    midnight. *)
Definition is_date (d : datetime) : Prop :=
  Calendar.valid_date (year d) (month d) (day d) = true
  /\ hour d = 0 /\ minute d = 0 /\ second d = 0 /\ microsecond d = 0.

(** A word that ends, or begins, with a character that is not white space. *)
Fixpoint ends_nospace (n : string) : bool :=
  match n with
  | EmptyString => false
  | String a EmptyString => negb (Str.isspace a)
  | String _ n' => ends_nospace n'
  end.

Definition starts_nospace (n : string) : bool :=
  match n with
  | EmptyString => false
  | String a _ => negb (Str.isspace a)
  end.

(** The element [a] has the sort key [k]. *)
Definition has_key {A B : Type} (beq : B -> B -> bool) (f : A -> result B)
  (k : B) (a : A) : bool :=
  match f a with
  | Ok k' => beq k' k
  | Raise _ => false
  end.

(** The date a container is filed under, if its label parses. *)
Definition container_date (c : DateContainer) : option datetime :=
  match date_element c with
  | [] => None
  | t :: _ =>
      match Calendar.strptime_date (Str.strip t) with
      | Ok d => Some d
      | Raise _ => None
      end
  end.

(** The activities of one container, extracted and sorted. *)
Definition container_activities (float : string -> result Q) (c : DateContainer)
  : result (list Activity) :=
  acts <- mapM (extract_activity float) (activities c) ;;
  Sorting.sort_key Calendar.ltb time_key acts.

(** The last container of the document filed under [d]. *)
Fixpoint last_container (d : datetime) (tree : list DateContainer)
  : option DateContainer :=
  match tree with
  | [] => None
  | c :: rest =>
      match last_container d rest with
      | Some c' => Some c'
      | None =>
          match container_date c with
          | Some d' => if Calendar.eqb d' d then Some c else None
          | None => None
          end
      end
  end.

(** The entry the ledger builder makes for the date [d]. *)
Definition ledger_item (td : TravelData) (d : datetime)
  : result (string * list Activity) :=
  acts <- Dict.getitem Calendar.eqb d td ;; Ok (Calendar.strftime_date d, acts).

(** The test both aggregations make on a stored activity. *)
Definition is_top_up (a : Activity) : bool := String.eqb (start_point a) "Top Up".

(** [q0 + f1 + f2 + ...], added from the left as a running total is. *)
Definition running_total (q0 : Q) (fs : list Q) : Q := fold_left Qplus fs q0.

(** The activities of the entries that satisfy [keep], in ledger order. *)
Definition activities_where (keep : datetime -> bool)
  (dated : list (datetime * list Activity)) : list Activity :=
  flat_map snd (filter (fun e => keep (fst e)) dated).

Definition top_ups (acts : list Activity) : list Q :=
  map fare (filter is_top_up acts).

Definition charges (acts : list Activity) : list Q :=
  map fare (filter (fun a => negb (is_top_up a)) acts).

Definition abs_charges (acts : list Activity) : list Q :=
  map (fun a => Qabs (fare a)) (filter (fun a => negb (is_top_up a)) acts).

(** A weekday's row after the activities [acts] have been added to [t]. *)
Definition extend (t : DayTotals) (acts : list Activity) : DayTotals :=
  mkDayTotals (running_total (topup t) (top_ups acts))
              (running_total (fares t) (abs_charges acts)).

(** The dates that count for the weekday [w]: not before [last_monday], and
    falling on [w]. *)
Definition on_weekday (last_monday : datetime) (w : string) (d : datetime) : bool :=
  Calendar.leb last_monday d && String.eqb (Calendar.strftime_A d) w.

(** The row of [w] in [daily], or the fresh row. *)
Definition row (daily : DailyTotals) (w : string) : DayTotals :=
  match Dict.get String.eqb w daily with
  | Some t => t
  | None => mkDayTotals 0 0
  end.


(** The time, origin and destination texts of a node as extracted, before
    the top-up rule. *)
Definition time_text (n : ActivityNode) : string :=
  match time_element n with
  | t :: _ => Str.strip t
  | [] => "00:00"
  end.

Definition origin_text (n : ActivityNode) : string :=
  match start_point_element n with
  | t :: _ => Str.strip t
  | [] => "Unknown"
  end.

Definition destination_text (n : ActivityNode) : string :=
  match end_point_element n with
  | t :: _ => Str.strip t
  | [] => "Unknown"
  end.

(** The amount text of a node as it is handed to [float]. *)
Definition amount_text (n : ActivityNode) : option string :=
  match fare_element n with
  | t :: _ => Some (Str.remove_char "$" (Str.strip t))
  | [] => None
  end.

(** The fare text of the node, if there is one, is accepted by [float]. *)
Definition fare_parses (float : string -> result Q) (n : ActivityNode) : bool :=
  match amount_text n with
  | Some s => match float s with Ok _ => true | Raise _ => false end
  | None => true
  end.

(** The time text of the node, or the default, matches ["%H:%M"]. *)
Definition time_parses (n : ActivityNode) : bool :=
  match Calendar.strptime_time (time_text n) with
  | Ok _ => true
  | Raise _ => false
  end.

(** Every node of every container with a readable date has a readable fare
    and a readable time. *)
Definition container_parses (float : string -> result Q) (c : DateContainer) : bool :=
  match container_date c with
  | Some _ => forallb (fun n => fare_parses float n && time_parses n) (activities c)
  | None => true
  end.

Definition tree_parses (float : string -> result Q) (tree : list DateContainer) : bool :=
  forallb (container_parses float) tree.

(** The ledger of the scenario above: Monday 3 June 2024 with a fare and a
    top-up, and the Saturday before it. *)
Definition scenario_B : Ledger :=
  [ ("Monday 03 Jun 2024",
     [ mkActivity "07:00" "Top Up" "Opal Travel App" 20.00;
       mkActivity "08:15" "Home" "City" (-4.50) ]);
    ("Saturday 01 Jun 2024",
     [ mkActivity "00:00" "Central" "Unknown" (-10.00) ]) ].

Definition monday_3_june : datetime := mkdatetime 2024 6 3 0 0 0 0.
Definition saturday_1_june : datetime := mkdatetime 2024 6 1 0 0 0 0.

(** Two containers for the same day. *)
Definition first_monday_container : DateContainer :=
  mkDateContainer ["Monday 03 Jun 2024"]
    [ mkActivityNode ["08:15"] ["Home"] ["City"] ["-$4.50"] ].

Definition second_monday_container : DateContainer :=
  mkDateContainer ["monday 3 jun 2024"]
    [ mkActivityNode ["09:30"] ["City"] ["Home"] ["-$3.20"] ].

(** ** The summary table *)

Definition weekdays_order : list string :=
  ["Monday"; "Tuesday"; "Wednesday"; "Thursday"; "Friday"; "Saturday"; "Sunday"].

(** The loop state of [build_table_string]: [rows], [total_topup],
    [total_fares]. *)
Record TableState : Type := mkTableState {
  rows : list (list string);
  total_topup : Q;
  total_fares : Q
}.

Section Table.

(** [f"{x:.2f}"] *)
Variable format_2f : Q -> string.

(** [tabulate(rows, headers=..., tablefmt="grid")] of the [tabulate]
  library. *)
Variable tabulate : list (list string) -> list string -> string.

(** The body of the loop over [weekdays_order]. *)
Definition table_day (daily_totals : DailyTotals) (st : TableState) (day : string)
: TableState :=
match Dict.get String.eqb day daily_totals with
| Some t =>
    mkTableState
      (rows st ++ [[day; format_2f (topup t); format_2f (fares t)]])%list
      (total_topup st + topup t)%Q
      (total_fares st + fares t)%Q
| None => st
end.

Definition table_loop (daily_totals : DailyTotals) : TableState :=
fold_left (table_day daily_totals) weekdays_order (mkTableState [] 0 0).

(** The rows handed to [tabulate]: one per weekday, then the totals. *)
Definition table_rows (daily_totals : DailyTotals) : list (list string) :=
let st := table_loop daily_totals in
(rows st ++ [["Total"; format_2f (total_topup st); format_2f (total_fares st)]])%list.

Definition build_table_string (daily_totals : DailyTotals) : string :=
tabulate (table_rows daily_totals) ["Weekday"; "Top Up"; "Fares"].

End Table.

(** ** The balance in the card's label *)

Module Balance.

(** A character of the class [[0-9.]]. *)
Definition amount_char (c : ascii) : bool :=
match Str.digit_of c with
| Some _ => true
| None => Ascii.eqb c "."
end.

(** The longest prefix of [s] made of [[0-9.]]. *)
Fixpoint take_amount (s : string) : string :=
match s with
| EmptyString => EmptyString
| String c s' => if amount_char c then String c (take_amount s') else EmptyString
end.

(** [keyword\s*\$([0-9.]+)], ignoring case, matched at the start of [s]:
  the text of the group.  Each repetition takes all it can and keeps it:
  what follows [\s*] is not white space, and nothing follows the group. *)
Definition match_at (keyword s : string) : option string :=
match Str.strip_prefix_ci keyword s with
| None => None
| Some r =>
    match Str.lstrip r with
    | EmptyString => None
    | String c r' =>
        if Ascii.eqb c "$" then
          match take_amount r' with
          | EmptyString => None
          | g => Some g
          end
        else None
    end
end.

(** [re.search]: the match at the leftmost position that has one. *)
Fixpoint search (keyword s : string) : option string :=
match match_at keyword s with
| Some g => Some g
| None =>
    match s with
    | EmptyString => None
    | String _ s' => search keyword s'
    end
end.

End Balance.

Section BalanceInfo.

Variable float : string -> result Q.

Definition extract_balance_info (aria_label_text : string) : result (Q * Q) :=
let balance_match := Balance.search "balance" aria_label_text in
let pending_match := Balance.search "pending" aria_label_text in
balance <- match balance_match with
           | Some g => float g
           | None => Ok 0%Q
           end ;;
pending <- match pending_match with
           | Some g => float g
           | None => Ok 0%Q
           end ;;
Ok (balance, pending).

End BalanceInfo.

(** ** The Monday of the current week *)

Module Week.

(** The largest ordinal of a date: 31 December 9999. *)
Definition MAXORDINAL : Z := 3652059.

(** [_ord2ymd]: the year, month and day of the ordinal [n], 1 January of
  year 1 being day 1. *)
Definition ord2ymd (n : Z) : Z * Z * Z :=
let n := n - 1 in
let n400 := n / 146097 in
let n := n mod 146097 in
let year := n400 * 400 + 1 in
let n100 := n / 36524 in
let n := n mod 36524 in
let n4 := n / 1461 in
let n := n mod 1461 in
let n1 := n / 365 in
let n := n mod 365 in
let year := year + n100 * 100 + n4 * 4 + n1 in
if (n1 =? 4) || (n100 =? 4) then (year - 1, 12, 31)
else
  let leapyear := (n1 =? 3) && (negb (n4 =? 24) || (n100 =? 3)) in
  let month := Z.shiftr (n + 50) 5 in
  let preceding :=
    nth (Z.to_nat month) [0; 0; 31; 59; 90; 120; 151; 181; 212; 243; 273; 304; 334] 0
    + (if (2 <? month) && leapyear then 1 else 0) in
  if n <? preceding then
    let month := month - 1 in
    let preceding :=
      preceding
      - (nth (Z.to_nat month) [0; 31; 28; 31; 30; 31; 30; 31; 31; 30; 31; 30; 31] 0
         + (if (month =? 2) && leapyear then 1 else 0)) in
    (year, month, n - preceding + 1)
  else (year, month, n - preceding + 1).

(** [d - timedelta(days=k)]; [None] is [OverflowError]. *)
Definition sub_days (d : datetime) (k : Z) : option datetime :=
let n := Calendar.toordinal d - k in
if (0 <? n) && (n <=? MAXORDINAL) then
  let '(y, m, dd) := ord2ymd n in
  Some (mkdatetime y m dd (hour d) (minute d) (second d) (microsecond d))
else None.

(** [d.replace(hour=0, minute=0, second=0, microsecond=0)] *)
Definition at_midnight (d : datetime) : datetime :=
mkdatetime (year d) (month d) (day d) 0 0 0 0.

(** [last_monday] as [main] computes it from [today]. *)
Definition last_monday (today : datetime) : option datetime :=
match sub_days today (Calendar.weekday today) with
| Some d => Some (at_midnight d)
| None => None
end.

End Week.

(** ** More vocabulary *)

(** The sum of a list of amounts. *)
Definition sumQ (fs : list Q) : Q := fold_right Qplus 0%Q fs.

(** No character of [s] is the letter [c], in either case. *)
Definition lacks_letter (c : ascii) (s : string) : bool :=
  forallb (fun a => negb (Ascii.eqb (Str.lower a) c)) (list_ascii_of_string s).

(** [w] is [keyword] up to the case of its letters. *)
Definition same_word (keyword w : string) : bool :=
  match Str.strip_prefix_ci keyword w with
  | Some EmptyString => true
  | _ => false
  end.

Definition all_chars (p : ascii -> bool) (s : string) : bool :=
  forallb p (list_ascii_of_string s).

(** [s] does not begin with a character of [[0-9.]]. *)
Definition amount_ends (s : string) : bool :=
  match s with
  | EmptyString => true
  | String c _ => negb (Balance.amount_char c)
  end.

(** The row of the summary table for [day]. *)
Definition day_row (format_2f : Q -> string) (daily : DailyTotals) (day : string)
  : list string :=
  [day; format_2f (topup (row daily day)); format_2f (fares (row daily day))].

(** The weekdays the table shows: those with a row in [daily], in the
    order of [weekdays_order]. *)
Definition shown_days (daily : DailyTotals) : list string :=
  filter (fun day => Dict.mem String.eqb day daily) weekdays_order.

(** [s] has no dollar sign. *)
Definition no_dollar (s : string) : bool :=
  all_chars (fun c => negb (Ascii.eqb c "$")) s.

(** The month and day of the [r]-th day (from 0) of a year, as [ord2ymd]
    finds them. *)
Definition doy_split (leapyear : bool) (r : Z) : Z * Z :=
  let month := Z.shiftr (r + 50) 5 in
  let preceding :=
    nth (Z.to_nat month) [0; 0; 31; 59; 90; 120; 151; 181; 212; 243; 273; 304; 334] 0
    + (if (2 <? month) && leapyear then 1 else 0) in
  if r <? preceding then
    let month := month - 1 in
    let preceding :=
      preceding
      - (nth (Z.to_nat month) [0; 31; 28; 31; 30; 31; 30; 31; 31; 30; 31; 30; 31] 0
         + (if (month =? 2) && leapyear then 1 else 0)) in
    (month, r - preceding + 1)
  else (month, r - preceding + 1).

(** The ordinal of the day [d] of month [m] of year [y]. *)
Definition ymd2ord (y m d : Z) : Z :=
  Calendar.days_before_year y + Calendar.days_before_month y m + d.

(** [doy_split] is right on day [r] of a year of leap status [leap],
    taking [y] for the year. *)
Definition doy_ok (y : Z) (r : Z) : bool :=
  let '(m, d) := doy_split (Calendar.is_leap y) r in
  (1 <=? m) && (m <=? 12) && (1 <=? d) && (d <=? Calendar.days_in_month y m)
  && (Calendar.days_before_month y m + d =? r + 1).

(** In year [y], month [m1] ends before month [m2] begins, and the year
    has 365 or 366 days. *)
Definition months_ok (y : Z) (m1 m2 : Z) : bool :=
  (if m1 <? m2
   then Calendar.days_before_month y m1 + Calendar.days_in_month y m1
        <=? Calendar.days_before_month y m2
   else true)
  && (Calendar.days_before_month y m1 + Calendar.days_in_month y m1
      <=? 365 + (if Calendar.is_leap y then 1 else 0))
  && (0 <=? Calendar.days_before_month y m1).

Definition zrange (n : nat) : list Z := map Z.of_nat (seq 0 n).

(** The dates of the containers of a document, in document order. *)
Definition container_dates (tree : list DateContainer) : list datetime :=
  flat_map (fun c => match container_date c with
                     | Some d => [d]
                     | None => []
                     end) tree.

(** ** Vocabulary: labels and times of day *)

(** A reader of the labels [strftime_date] prints: directive by directive
    as [regex_date], with the year taken as the digits that are there,
    however many.  It tells the labels of different dates apart. *)
Definition read_label (s : string) : option (Z * Z * Z) :=
  match Calendar.match_name Calendar.day_names 0 s with
  | None => None
  | Some (_, s1) =>
  match Str.spaces1 s1 with
  | None => None
  | Some s2 =>
  match Calendar.match_d s2 with
  | None => None
  | Some (d, s3) =>
  match Str.spaces1 s3 with
  | None => None
  | Some s4 =>
  match Calendar.match_name Calendar.month_abbrs 1 s4 with
  | None => None
  | Some (m, s5) =>
  match Str.spaces1 s5 with
  | None => None
  | Some s6 =>
  match Decimal.digits s6 0 0 with
  | (y, _, EmptyString) => Some (y, m, d)
  | _ => None
  end end end end end end end.

(** Every container of the document that has a readable date has one of
    the year 1000 or later. *)
Definition four_digit_years (tree : list DateContainer) : bool :=
  forallb (fun c => match container_date c with
                    | Some d => 1000 <=? year d
                    | None => true
                    end) tree.

(** The ways of writing the number [n] of an hour or a minute: with two
    digits, or with one if [n] is below ten. *)
Definition numerals (n : Z) : list string :=
  if n <? 10 then [String (Str.digit_char n) ""; Calendar.pad2 n]
  else [Calendar.pad2 n].

(** The texts that say [h] hours [m] minutes. *)
Definition clock_texts (h m : Z) : list string :=
  flat_map (fun a => map (fun b => a ++ ":" ++ b) (numerals m)) (numerals h).

(** The text [s] says the time of day [h]:[m]. *)
Definition shows_clock (h m : Z) (s : string) : bool :=
  (0 <=? h) && (h <=? 23) && (0 <=? m) && (m <=? 59)
  && existsb (String.eqb s) (clock_texts h m).

(** The activity [a] is timed at the hour and minute [hm]. *)
Definition at_clock (hm : Z * Z) (a : Activity) : bool :=
  shows_clock (fst hm) (snd hm) (time a).

Definition minute_of_day (hm : Z * Z) : Z := 60 * fst hm + snd hm.

(** Every text of every time of day is read by ["%H:%M"] as that time. *)
Definition clock_texts_read : bool :=
  forallb (fun h =>
    forallb (fun m =>
      forallb (fun s =>
        match Calendar.strptime_time s with
        | Ok k => Calendar.eqb k (mkdatetime 1900 1 1 h m 0 0)
        | Raise _ => false
        end) (clock_texts h m)) (zrange 60)) (zrange 24).

(** ** More sample documents *)

(** A trip in the year 999; the page writes the year with four digits. *)
Definition scenario_999 : list DateContainer :=
  [ mkDateContainer ["Monday 03 Jun 0999"]
      [ mkActivityNode ["08:15"] ["Home"] ["City"] ["-$4.50"] ] ].

(** A ledger with four days of one week and the Saturday before. *)
Definition scenario_week : Ledger :=
  [ ("Thursday 06 Jun 2024",
     [ mkActivity "17:40" "City" "Home" (-3.20) ]);
    ("Wednesday 05 Jun 2024",
     [ mkActivity "08:10" "Home" "City" (-4.50);
       mkActivity "17:55" "City" "Home" (-4.50) ]);
    ("Tuesday 04 Jun 2024",
     [ mkActivity "09:00" "Top Up" "Opal Travel App" 40.00 ]);
    ("Monday 03 Jun 2024",
     [ mkActivity "07:00" "Top Up" "Opal Travel App" 20.00;
       mkActivity "08:15" "Home" "City" (-4.50) ]);
    ("Saturday 01 Jun 2024",
     [ mkActivity "00:00" "Central" "Unknown" (-10.00) ]) ].

(** Its daily totals from Monday 3 June 2024 on. *)
Definition scenario_week_daily : DailyTotals :=
  [ ("Thursday", mkDayTotals 0 (0 + Qabs (-3.20)));
    ("Wednesday", mkDayTotals 0 (0 + Qabs (-4.50) + Qabs (-4.50)));
    ("Tuesday", mkDayTotals (0 + 40.00) 0);
    ("Monday", mkDayTotals (0 + 20.00) (0 + Qabs (-4.50))) ].
(** * Properties *)

(** ** Parsing and printing dates: examples *)

Example strptime_mon : Calendar.strptime_date "Monday 03 Jun 2024"
  = Ok (mkdatetime 2024 6 3 0 0 0 0).
Proof. reflexivity. Qed.

Example strftime_mon : Calendar.strftime_date (mkdatetime 2024 6 3 0 0 0 0)
  = "Monday 03 Jun 2024".
Proof. reflexivity. Qed.

Example strptime_bad : Calendar.strptime_date "Sometime Last Week" = Raise ValueError.
Proof. reflexivity. Qed.

Example strptime_wrong_weekday : Calendar.strptime_date "friday  4 jun 2024"
  = Ok (mkdatetime 2024 6 4 0 0 0 0).
Proof. reflexivity. Qed.

Example strftime_999 : Calendar.strftime_date (mkdatetime 999 6 3 0 0 0 0)
  = "Monday 03 Jun 999".
Proof. reflexivity. Qed.

Example strptime_999 : Calendar.strptime_date "Monday 03 Jun 999" = Raise ValueError.
Proof. reflexivity. Qed.

Example strptime_0999 : Calendar.strptime_date "Monday 03 Jun 0999"
  = Ok (mkdatetime 999 6 3 0 0 0 0).
Proof. reflexivity. Qed.

Example strptime_time_ex : Calendar.strptime_time "7:05"
  = Ok (mkdatetime 1900 1 1 7 5 0 0).
Proof. reflexivity. Qed.

Example strptime_time_bad : Calendar.strptime_time "24:00" = Raise ValueError.
Proof. reflexivity. Qed.

(** ** The pipeline on the sample document *)

Example scenario_A_ledger : parse_travel_data Decimal.float scenario_A = Ok scenario_B.
Proof. reflexivity. Qed.

Example scenario_B_totals :
  calculate_totals scenario_B monday_3_june = Ok ((0 + 20.00)%Q, (0 + -4.50)%Q).
Proof. reflexivity. Qed.

Example scenario_C_topup : (topup_needed 30 (-4.50) == 15.50)%Q.
Proof. reflexivity. Qed.

Example scenario_D_daily :
  get_daily_totals scenario_B monday_3_june
  = Ok [("Monday", mkDayTotals (0 + 20.00) (0 + Qabs (-4.50)))].
Proof. reflexivity. Qed.

Example scenario_duplicate_date :
  parse_travel_data Decimal.float [first_monday_container; second_monday_container]
  = Ok [("Monday 03 Jun 2024", [mkActivity "09:30" "City" "Home" (-3.20)])].
Proof. reflexivity. Qed.

(** ** The order on [datetime] *)

Module CalendarFacts.
Import Calendar.

Lemma lex_refl (a : list Z) : lex a a = Eq.
Proof. induction a as [|x a IH]; simpl; [reflexivity|]. now rewrite Z.compare_refl. Qed.

Lemma lex_eq (a b : list Z) : lex a b = Eq -> a = b.
Proof.
  revert b. induction a as [|x a IH]; intros [|y b]; simpl; try discriminate; auto.
  destruct (Z.compare_spec x y) as [Hxy|Hxy|Hxy]; try discriminate.
  intros Hl. subst. f_equal. now apply IH.
Qed.

Lemma lex_opp (a b : list Z) : lex b a = CompOpp (lex a b).
Proof.
  revert b. induction a as [|x a IH]; intros [|y b]; simpl; auto.
  rewrite (Z.compare_antisym x y).
  destruct (x ?= y); simpl; auto.
Qed.

Lemma lex_trans (a b c : list Z) :
  lex a b <> Gt -> lex b c <> Gt -> lex a c <> Gt.
Proof.
  revert b c. induction a as [|x a IH]; intros [|y b] [|z c]; simpl; auto; try congruence.
  destruct (Z.compare_spec x y), (Z.compare_spec y z), (Z.compare_spec x z);
    subst; try congruence; try lia; eauto.
Qed.

Lemma key_inj (a b : datetime) : key a = key b -> a = b.
Proof. destruct a, b. unfold key. simpl. intros H. injection H. intros. now subst. Qed.

Lemma eqb_eq (a b : datetime) : eqb a b = true <-> a = b.
Proof.
  unfold eqb, compare. split.
  - destruct (lex (key a) (key b)) eqn:E; try discriminate.
    intros _. now apply key_inj, lex_eq.
  - intros ->. now rewrite lex_refl.
Qed.

Lemma eqb_refl (a : datetime) : eqb a a = true.
Proof. now apply eqb_eq. Qed.

Lemma eqb_neq (a b : datetime) : eqb a b = false <-> a <> b.
Proof.
  rewrite <- eqb_eq. destruct (eqb a b); split; congruence.
Qed.

Lemma leb_ltb (a b : datetime) : leb a b = negb (ltb b a).
Proof.
  unfold leb, ltb, compare. rewrite (lex_opp (key a) (key b)).
  now destruct (lex (key a) (key b)).
Qed.

Lemma leb_refl (a : datetime) : leb a a = true.
Proof. unfold leb, compare. now rewrite lex_refl. Qed.

Lemma ltb_irrefl (a : datetime) : ltb a a = false.
Proof. unfold ltb, compare. now rewrite lex_refl. Qed.

Lemma leb_trans (a b c : datetime) :
  leb a b = true -> leb b c = true -> leb a c = true.
Proof.
  unfold leb, compare. intros H1 H2.
  pose proof (@lex_trans (key a) (key b) (key c)) as T.
  destruct (lex (key a) (key b)), (lex (key b) (key c)), (lex (key a) (key c));
    try discriminate; auto; exfalso; apply T; congruence.
Qed.

Lemma leb_antisym (a b : datetime) :
  leb a b = true -> leb b a = true -> a = b.
Proof.
  unfold leb, compare. rewrite (lex_opp (key a) (key b)).
  destruct (lex (key a) (key b)) eqn:E; simpl; try discriminate.
  intros _ _. now apply key_inj, lex_eq.
Qed.

Lemma leb_total (a b : datetime) : leb a b = true \/ leb b a = true.
Proof.
  unfold leb, compare. rewrite (lex_opp (key a) (key b)).
  destruct (lex (key a) (key b)); simpl; auto.
Qed.

Lemma ltb_leb (a b : datetime) : ltb a b = true -> leb a b = true.
Proof. unfold ltb, leb. now destruct (compare a b). Qed.

Lemma ltb_neq (a b : datetime) : ltb a b = true -> a <> b.
Proof. intros H ->. now rewrite ltb_irrefl in H. Qed.

Lemma leb_neq_ltb (a b : datetime) : leb a b = true -> a <> b -> ltb a b = true.
Proof.
  unfold ltb, leb, compare. destruct (lex (key a) (key b)) eqn:E; try discriminate; auto.
  intros _ H. exfalso. now apply H, key_inj, lex_eq.
Qed.

Lemma ltb_asym (a b : datetime) : ltb a b = true -> ltb b a = false.
Proof.
  intros H. apply ltb_leb in H. rewrite leb_ltb in H. now apply negb_true_iff.
Qed.

Lemma nlt_trans (a b c : datetime) :
  ltb b a = false -> ltb c b = false -> ltb c a = false.
Proof.
  intros H1 H2. apply negb_true_iff. rewrite <- leb_ltb.
  apply leb_trans with b; rewrite leb_ltb; now apply negb_true_iff.
Qed.

Lemma nlt_antisym (a b : datetime) :
  ltb b a = false -> ltb a b = false -> a = b.
Proof.
  intros H1 H2. apply leb_antisym; rewrite leb_ltb; now apply negb_true_iff.
Qed.

End CalendarFacts.

(** ** Monadic loops *)

Lemma mapM_Forall2 {A B : Type} (f : A -> result B) (l : list A) (ys : list B) :
  mapM f l = Ok ys <-> Forall2 (fun x y => f x = Ok y) l ys.
Proof.
  revert ys. induction l as [|x l IH]; intros ys; simpl.
  - split.
    + intros H. injection H as <-. constructor.
    + intros H. inversion H. reflexivity.
  - split.
    + destruct (f x) as [y|e] eqn:Ex; simpl; try discriminate.
      destruct (mapM f l) as [ys'|e] eqn:El; simpl; try discriminate.
      intros H. injection H as <-. constructor; [assumption|]. now apply IH.
    + intros H. inversion H as [|? y ? ys' Hxy Hl]; subst.
      rewrite Hxy. simpl. apply IH in Hl. rewrite Hl. reflexivity.
Qed.

Lemma mapM_total {A B : Type} (f : A -> result B) (l : list A) :
  Forall (fun x => exists y, f x = Ok y) l -> exists ys, mapM f l = Ok ys.
Proof.
  induction 1 as [|x l [y Hy] _ [ys Hys]]; simpl.
  - now exists [].
  - rewrite Hy, Hys. simpl. now exists (y :: ys).
Qed.

Lemma mapM_raise {A B : Type} (f : A -> result B) (l : list A) (x : A) (e : exn) :
  In x l -> f x = Raise e -> exists e', mapM f l = Raise e'.
Proof.
  induction l as [|y l IH]; simpl; [tauto|].
  intros [->|Hin] Hx.
  - rewrite Hx. simpl. now exists e.
  - destruct (f y); simpl; [|eauto].
    destruct (IH Hin Hx) as [e' ->]. simpl. eauto.
Qed.

Lemma mapM_pure {A B : Type} (g : A -> B) (l : list A) :
  mapM (fun x => Ok (g x)) l = Ok (map g l).
Proof. induction l as [|x l IH]; simpl; [reflexivity|]. now rewrite IH. Qed.

Lemma Forall2_in_l {A B : Type} (R : A -> B -> Prop) (l1 : list A) (l2 : list B)
  (x : A) :
  Forall2 R l1 l2 -> In x l1 -> exists y, In y l2 /\ R x y.
Proof.
  induction 1 as [|a b l1 l2 Hab _ IH]; simpl; [tauto|].
  intros [<-|Hin]; [eauto|].
  destruct (IH Hin) as (y & Hy & Hxy). eauto.
Qed.

Lemma Forall2_in_r {A B : Type} (R : A -> B -> Prop) (l1 : list A) (l2 : list B)
  (y : B) :
  Forall2 R l1 l2 -> In y l2 -> exists x, In x l1 /\ R x y.
Proof.
  induction 1 as [|a b l1 l2 Hab _ IH]; simpl; [tauto|].
  intros [<-|Hin]; [eauto|].
  destruct (IH Hin) as (x & Hx & Hxy). eauto.
Qed.

Lemma foldM_app {A S : Type} (f : S -> A -> result S) (l1 l2 : list A) (s : S) :
  foldM f (l1 ++ l2) s = (s' <- foldM f l1 s ;; foldM f l2 s').
Proof.
  revert s. induction l1 as [|x l1 IH]; intros s; simpl; [reflexivity|].
  destruct (f s x); simpl; auto.
Qed.

Lemma foldM_pure {A S : Type} (g : S -> A -> S) (l : list A) (s : S) :
  foldM (fun s x => Ok (g s x)) l s = Ok (fold_left g l s).
Proof. revert s. induction l as [|x l IH]; intros s; simpl; auto. Qed.

(** ** Insertion sort *)

Module SortingFacts.
Section SortingFacts.
Import Sorting.

Variables (A : Type) (lt : A -> A -> bool).

(** [x <= y] read off [<]: [y] is not smaller than [x]. *)
Local Abbreviation le := (fun x y : A => lt y x = false).

Lemma insert_perm (x : A) (l : list A) : Permutation (x :: l) (insert lt x l).
Proof.
  induction l as [|y l IH]; simpl; [reflexivity|].
  destruct (lt y x); [|reflexivity].
  rewrite perm_swap. now apply perm_skip.
Qed.

Lemma sort_perm (l : list A) : Permutation l (sort lt l).
Proof.
  induction l as [|x l IH]; simpl; [reflexivity|].
  rewrite <- insert_perm. now apply perm_skip.
Qed.

(** Stability: a class of elements none of which is smaller than another
    keeps its order. *)
Lemma insert_filter (k : A -> bool) (x : A) (l : list A) :
  (forall a b, k a = true -> k b = true -> lt a b = false) ->
  filter k (insert lt x l) = filter k (x :: l).
Proof.
  intros Hk. induction l as [|y l IH]; [reflexivity|].
  simpl insert. destruct (lt y x) eqn:E; [|reflexivity].
  simpl in *. rewrite IH.
  destruct (k x) eqn:Ex, (k y) eqn:Ey; try reflexivity.
  rewrite (Hk y x Ey Ex) in E. discriminate.
Qed.

Lemma sort_filter (k : A -> bool) (l : list A) :
  (forall a b, k a = true -> k b = true -> lt a b = false) ->
  filter k (sort lt l) = filter k l.
Proof.
  intros Hk. induction l as [|x l IH]; [reflexivity|].
  simpl sort. rewrite insert_filter by assumption.
  simpl. now rewrite IH.
Qed.

Hypothesis lt_asym : forall x y, lt x y = true -> lt y x = false.

Lemma insert_sorted (x : A) (l : list A) :
  Sorted le l -> Sorted le (insert lt x l).
Proof.
  induction 1 as [|y l Hs IH Hd]; simpl.
  - repeat constructor.
  - destruct (lt y x) eqn:E.
    + constructor; [assumption|].
      destruct l as [|z l]; simpl.
      * constructor. now apply lt_asym.
      * destruct (lt z x); constructor.
        -- now inversion Hd.
        -- now apply lt_asym.
    + repeat constructor; assumption.
Qed.

Lemma sort_sorted (l : list A) : Sorted le (sort lt l).
Proof.
  induction l as [|x l IH]; simpl; [constructor|]. now apply insert_sorted.
Qed.

Hypothesis le_trans : forall x y z, le x y -> le y z -> le x z.
Hypothesis le_antisym : forall x y, le x y -> le y x -> x = y.

Lemma sort_strongly_sorted (l : list A) : StronglySorted le (sort lt l).
Proof.
  apply Sorted_StronglySorted; [|apply sort_sorted].
  intros x y z. apply le_trans.
Qed.

Lemma strongly_sorted_app (R : A -> A -> Prop) (l1 l2 : list A) :
  StronglySorted R l1 -> StronglySorted R l2 ->
  (forall x y, In x l1 -> In y l2 -> R x y) ->
  StronglySorted R (l1 ++ l2).
Proof.
  induction 1 as [|x l Hs IH Hall]; simpl; intros H2 Hc; [assumption|].
  constructor.
  - apply IH; auto.
  - apply Forall_app. split; [assumption|].
    apply Forall_forall. intros y Hy. apply Hc; auto.
Qed.

Lemma strongly_sorted_rev (R : A -> A -> Prop) (l : list A) :
  StronglySorted R l -> StronglySorted (fun x y => R y x) (rev l).
Proof.
  induction 1 as [|x l Hs IH Hall]; simpl; [constructor|].
  apply strongly_sorted_app; [assumption|repeat constructor|].
  intros y z Hy [<-|[]]. rewrite Forall_forall in Hall.
  apply Hall. now apply in_rev.
Qed.

Lemma strongly_sorted_strict (l : list A) :
  NoDup l -> StronglySorted le l ->
  StronglySorted (fun x y => lt x y = true) l.
Proof.
  intros Hnd Hs. induction Hs as [|x l Hs IH Hall]; [constructor|].
  inversion Hnd as [|? ? Hx Hnd']; subst.
  constructor; [auto|].
  rewrite Forall_forall in *. intros y Hy.
  destruct (lt x y) eqn:E; [reflexivity|].
  exfalso. apply Hx. assert (x = y) as -> by (apply le_antisym; [now apply Hall|exact E]). assumption.
Qed.

(** [sorted(l, reverse=True)] on distinct elements: strictly descending. *)
Lemma sorted_reverse_desc (l : list A) :
  NoDup l ->
  StronglySorted (fun x y => lt y x = true) (sorted_reverse lt l).
Proof.
  intros Hnd. unfold sorted_reverse.
  apply (@strongly_sorted_rev (fun x y => lt x y = true)).
  apply strongly_sorted_strict; [|apply sort_strongly_sorted].
  apply (Permutation_NoDup (l := rev l)); [apply sort_perm|].
  apply (Permutation_NoDup (l := l)); [apply Permutation_rev|assumption].
Qed.

Lemma sorted_reverse_perm (l : list A) : Permutation l (sorted_reverse lt l).
Proof.
  unfold sorted_reverse. rewrite <- Permutation_rev, <- sort_perm.
  apply Permutation_rev.
Qed.

End SortingFacts.
End SortingFacts.

(** ** Printing a date and reading it back *)

Module RoundTrip.
Import Calendar.

Lemma digit_cases (k : Z) : 0 <= k <= 9 ->
  k = 0 \/ k = 1 \/ k = 2 \/ k = 3 \/ k = 4 \/ k = 5 \/ k = 6 \/ k = 7
  \/ k = 8 \/ k = 9.
Proof. lia. Qed.

Lemma digit_of_char (k : Z) : 0 <= k <= 9 -> Str.digit_of (Str.digit_char k) = Some k.
Proof.
  intros H. destruct (digit_cases H) as [->|[->|[->|[->|[->|[->|[->|[->|[->| ->]]]]]]]]];
    reflexivity.
Qed.

Lemma digit_char_nospace (k : Z) : 0 <= k <= 9 -> Str.isspace (Str.digit_char k) = false.
Proof.
  intros H. destruct (digit_cases H) as [->|[->|[->|[->|[->|[->|[->|[->|[->| ->]]]]]]]]];
    reflexivity.
Qed.

Lemma spaces1_digit (k : Z) (r : string) : 0 <= k <= 9 ->
  Str.spaces1 (" " ++ String (Str.digit_char k) r) = Some (String (Str.digit_char k) r).
Proof.
  intros H. cbn [append Str.spaces1]. change (Str.isspace " ") with true. cbv iota.
  cbn [Str.lstrip]. now rewrite digit_char_nospace.
Qed.

Lemma match_weekday_name (w : Z) (r : string) : 0 <= w < 7 ->
  match_name day_names 0 (day_name w ++ " " ++ r) = Some (w, " " ++ r).
Proof.
  intros H.
  assert (w = 0 \/ w = 1 \/ w = 2 \/ w = 3 \/ w = 4 \/ w = 5 \/ w = 6) as C by lia.
  destruct C as [->|[->|[->|[->|[->|[->| ->]]]]]]; reflexivity.
Qed.

Lemma match_month_abbr (m : Z) (r : string) : 1 <= m <= 12 ->
  match_name month_abbrs 1 (month_abbr m ++ " " ++ r) = Some (m, " " ++ r).
Proof.
  intros H.
  assert (m = 1 \/ m = 2 \/ m = 3 \/ m = 4 \/ m = 5 \/ m = 6 \/ m = 7 \/ m = 8
          \/ m = 9 \/ m = 10 \/ m = 11 \/ m = 12) as C by lia.
  destruct C as [->|[->|[->|[->|[->|[->|[->|[->|[->|[->|[->| ->]]]]]]]]]]]; reflexivity.
Qed.

Lemma match_d_pad2 (n : Z) (r : string) : 1 <= n <= 31 ->
  match_d (pad2 n ++ " " ++ r) = Some (n, " " ++ r).
Proof.
  intros H. unfold match_d, match_num, pad2. cbn [append].
  rewrite !digit_of_char by (Z.div_mod_to_equations; lia).
  replace (10 * (n / 10) + n mod 10) with n by (Z.div_mod_to_equations; lia).
  replace ((1 <=? n) && (n <=? 31)) with true; [reflexivity|].
  symmetry. apply andb_true_iff. split; apply Z.leb_le; lia.
Qed.

Lemma match_Y_pad4 (y : Z) : 0 <= y <= 9999 -> match_Y (pad4 y) = Some (y, "").
Proof.
  intros H. unfold match_Y, pad4.
  rewrite !digit_of_char by (Z.div_mod_to_equations; lia).
  do 2 f_equal. Z.div_mod_to_equations; lia.
Qed.

Lemma weekday_range (d : datetime) : 0 <= weekday d < 7.
Proof. unfold weekday. apply Z.mod_pos_bound. lia. Qed.

Lemma days_in_month_le (y m : Z) : days_in_month y m <= 31.
Proof.
  unfold days_in_month.
  destruct (m =? 2); [destruct (is_leap y); lia|].
  destruct ((m =? 4) || (m =? 6) || (m =? 9) || (m =? 11)); lia.
Qed.

Lemma valid_date_bounds (y m d : Z) : valid_date y m d = true ->
  1 <= y <= 9999 /\ 1 <= m <= 12 /\ 1 <= d <= 31.
Proof.
  unfold valid_date. rewrite !andb_true_iff, !Z.leb_le.
  pose proof (days_in_month_le y m). lia.
Qed.

Lemma spaces1_pad2 (n : Z) (r : string) : 0 <= n <= 99 ->
  Str.spaces1 (" " ++ pad2 n ++ r) = Some (pad2 n ++ r).
Proof.
  intros H. unfold pad2. cbn [append]. 
  apply (@spaces1_digit (n / 10)). Z.div_mod_to_equations; lia.
Qed.

Lemma spaces1_strftime_Y (y : Z) : 1 <= y <= 9999 ->
  Str.spaces1 (" " ++ strftime_Y y) = Some (strftime_Y y).
Proof.
  intros H. unfold strftime_Y, pad4, pad2.
  destruct (y <? 10) eqn:E1; [apply spaces1_digit; lia|].
  destruct (y <? 100) eqn:E2;
    [apply (@spaces1_digit (y / 10)); Z.div_mod_to_equations; lia|].
  destruct (y <? 1000) eqn:E3;
    [apply (@spaces1_digit (y / 100)); Z.div_mod_to_equations; lia|].
  apply (@spaces1_digit (y / 1000)). Z.div_mod_to_equations; lia.
Qed.

Lemma strftime_Y_pad4 (y : Z) : 1000 <= y -> strftime_Y y = pad4 y.
Proof.
  intros H. unfold strftime_Y.
  replace (y <? 10) with false by (symmetry; apply Z.ltb_ge; lia).
  replace (y <? 100) with false by (symmetry; apply Z.ltb_ge; lia).
  replace (y <? 1000) with false by (symmetry; apply Z.ltb_ge; lia).
  reflexivity.
Qed.

(** A year below 1000 is printed with fewer than four digits, which
    ["%Y"] does not read. *)
Lemma match_Y_short (y : Z) : y < 1000 -> match_Y (strftime_Y y) = None.
Proof.
  intros H. unfold strftime_Y, pad2.
  destruct (y <? 10); [reflexivity|].
  destruct (y <? 100); [reflexivity|].
  replace (y <? 1000) with true by (symmetry; apply Z.ltb_lt; lia).
  cbn [match_Y]. reflexivity.
Qed.

(** Reading all the digits of a printed year gives the year. *)
Lemma digits_strftime_Y (y : Z) : 1 <= y <= 9999 ->
  exists n, Decimal.digits (strftime_Y y) 0 0 = (y, n, "").
Proof.
  intros H. unfold strftime_Y, pad4, pad2.
  destruct (y <? 10) eqn:E1; [|destruct (y <? 100) eqn:E2;
    [|destruct (y <? 1000) eqn:E3]];
    rewrite ?Z.ltb_lt, ?Z.ltb_ge in *; cbn [Decimal.digits];
    rewrite !digit_of_char by (Z.div_mod_to_equations; lia);
    eexists; do 2 f_equal; Z.div_mod_to_equations; lia.
Qed.

Lemma spaces1_month (m : Z) (r : string) : 1 <= m <= 12 ->
  Str.spaces1 (" " ++ month_abbr m ++ r) = Some (month_abbr m ++ r).
Proof.
  intros H.
  assert (m = 1 \/ m = 2 \/ m = 3 \/ m = 4 \/ m = 5 \/ m = 6 \/ m = 7 \/ m = 8
          \/ m = 9 \/ m = 10 \/ m = 11 \/ m = 12) as C by lia.
  destruct C as [->|[->|[->|[->|[->|[->|[->|[->|[->|[->|[->| ->]]]]]]]]]]]; reflexivity.
Qed.

(** What ["%A %d %b %Y"] finds in a printed label, up to the year. *)
Lemma regex_date_label (d : datetime) :
  valid_date (year d) (month d) (day d) = true ->
  regex_date (strftime_date d)
  = match match_Y (strftime_Y (year d)) with
    | Some (y, EmptyString) => Some (y, month d, day d)
    | _ => None
    end.
Proof.
  intros Hv. destruct (valid_date_bounds _ _ _ Hv) as (Hy & Hm & Hd).
  unfold regex_date, strftime_date, strftime_A.
  rewrite match_weekday_name by apply weekday_range. cbv beta iota.
  rewrite spaces1_pad2 by lia.
  rewrite match_d_pad2 by lia. cbv beta iota.
  rewrite spaces1_month by lia.
  rewrite match_month_abbr by lia. cbv beta iota.
  rewrite spaces1_strftime_Y by lia. reflexivity.
Qed.

Lemma regex_date_strftime (d : datetime) :
  valid_date (year d) (month d) (day d) = true -> 1000 <= year d ->
  regex_date (strftime_date d) = Some (year d, month d, day d).
Proof.
  intros Hv H4. destruct (valid_date_bounds _ _ _ Hv) as (Hy & Hm & Hd).
  rewrite regex_date_label by assumption.
  rewrite strftime_Y_pad4 by assumption.
  rewrite match_Y_pad4 by lia. reflexivity.
Qed.

Lemma read_label_strftime (d : datetime) :
  valid_date (year d) (month d) (day d) = true ->
  read_label (strftime_date d) = Some (year d, month d, day d).
Proof.
  intros Hv. destruct (valid_date_bounds _ _ _ Hv) as (Hy & Hm & Hd).
  unfold read_label, strftime_date, strftime_A.
  rewrite match_weekday_name by apply weekday_range. cbv beta iota.
  rewrite spaces1_pad2 by lia.
  rewrite match_d_pad2 by lia. cbv beta iota.
  rewrite spaces1_month by lia.
  rewrite match_month_abbr by lia. cbv beta iota.
  rewrite spaces1_strftime_Y by lia.
  destruct (@digits_strftime_Y (year d) Hy) as [n ->]. reflexivity.
Qed.

(** Formatting a date of the year 1000 or later with ["%A %d %b %Y"] and
    parsing the label with the same format gives the date back. *)
Lemma strptime_strftime (d : datetime) :
  is_date d -> 1000 <= year d -> strptime_date (strftime_date d) = Ok d.
Proof.
  intros (Hv & Hh & Hm & Hs & Hu) H4. unfold strptime_date.
  rewrite regex_date_strftime by assumption.
  unfold make. rewrite Hv. destruct d; simpl in *. now subst.
Qed.

(** The label of a date before the year 1000 does not parse. *)
Lemma strptime_strftime_short (d : datetime) :
  is_date d -> year d < 1000 -> strptime_date (strftime_date d) = Raise ValueError.
Proof.
  intros (Hv & _) H3. unfold strptime_date.
  rewrite regex_date_label by assumption.
  now rewrite match_Y_short.
Qed.

Lemma make_is_date (y m d : Z) (r : datetime) :
  make y m d 0 0 = Ok r -> is_date r.
Proof.
  unfold make. destruct (valid_date y m d) eqn:E; [|discriminate].
  intros H. injection H as <-. now repeat split.
Qed.

Lemma strptime_date_is_date (s : string) (d : datetime) :
  strptime_date s = Ok d -> is_date d.
Proof.
  unfold strptime_date. destruct (regex_date s) as [[[y m] d']|]; [|discriminate].
  apply make_is_date.
Qed.

Lemma strptime_date_raises (s : string) (e : exn) :
  strptime_date s = Raise e -> e = ValueError.
Proof.
  unfold strptime_date, make.
  destruct (regex_date s) as [[[y m] d']|]; [destruct (valid_date y m d')|]; congruence.
Qed.

Lemma strptime_time_raises (s : string) (e : exn) :
  strptime_time s = Raise e -> e = ValueError.
Proof.
  unfold strptime_time, make.
  destruct (regex_time s) as [[h m]|]; [destruct (valid_date 1900 1 1)|]; congruence.
Qed.

Lemma strftime_date_inj (a b : datetime) :
  is_date a -> is_date b -> strftime_date a = strftime_date b -> a = b.
Proof.
  intros (Hva & Ha1 & Ha2 & Ha3 & Ha4) (Hvb & Hb1 & Hb2 & Hb3 & Hb4) E.
  pose proof (read_label_strftime a Hva) as Ra.
  pose proof (read_label_strftime b Hvb) as Rb.
  rewrite E, Rb in Ra. injection Ra as Ey Em Ed.
  destruct a, b; simpl in *. congruence.
Qed.

End RoundTrip.

(** ** Dictionaries *)

Module DictFacts.
Section DictFacts.
Import Dict.

Variables (K V : Type) (keq : K -> K -> bool).
Hypothesis keq_eq : forall a b, keq a b = true <-> a = b.

Lemma keq_refl (k : K) : keq k k = true.
Proof. now apply keq_eq. Qed.

Lemma keq_neq (a b : K) : a <> b -> keq a b = false.
Proof.
  intros H. destruct (keq a b) eqn:E; [|reflexivity].
  now apply keq_eq in E.
Qed.

Lemma get_set_same (k : K) (v : V) (d : t K V) : get keq k (set keq k v d) = Some v.
Proof.
  induction d as [|[k' v'] d IH]; simpl.
  - now rewrite keq_refl.
  - destruct (keq k' k) eqn:E; simpl; rewrite E; auto.
Qed.

Lemma get_set_other (k k' : K) (v : V) (d : t K V) :
  k <> k' -> get keq k' (set keq k v d) = get keq k' d.
Proof.
  intros Hne. induction d as [|[k0 v0] d IH]; simpl.
  - now rewrite keq_neq.
  - destruct (keq k0 k) eqn:E; simpl.
    + apply keq_eq in E. subst k0. now rewrite keq_neq.
    + now rewrite IH.
Qed.

Lemma set_set (k : K) (v1 v2 : V) (d : t K V) :
  set keq k v2 (set keq k v1 d) = set keq k v2 d.
Proof.
  induction d as [|[k' v'] d IH]; simpl.
  - now rewrite keq_refl.
  - destruct (keq k' k) eqn:E; simpl; rewrite E; [reflexivity|now rewrite IH].
Qed.

Lemma set_get_id (k : K) (v : V) (d : t K V) :
  get keq k d = Some v -> set keq k v d = d.
Proof.
  induction d as [|[k' v'] d IH]; simpl; [discriminate|].
  destruct (keq k' k); intros H.
  - now injection H as ->.
  - now rewrite IH.
Qed.

Lemma get_None (k : K) (d : t K V) : get keq k d = None <-> ~ In k (keys d).
Proof.
  induction d as [|[k' v'] d IH]; simpl; [tauto|].
  destruct (keq k' k) eqn:E.
  - apply keq_eq in E. split; [discriminate|tauto].
  - rewrite IH. split; [|tauto].
    intros H [->|H']; [|tauto]. now rewrite keq_refl in E.
Qed.

Lemma get_In (k : K) (v : V) (d : t K V) : get keq k d = Some v -> In (k, v) d.
Proof.
  induction d as [|[k' v'] d IH]; simpl; [discriminate|].
  destruct (keq k' k) eqn:E; [|auto].
  apply keq_eq in E. intros H. left. congruence.
Qed.

Lemma In_get (k : K) (v : V) (d : t K V) :
  NoDup (keys d) -> In (k, v) d -> get keq k d = Some v.
Proof.
  induction d as [|[k' v'] d IH]; simpl; [tauto|].
  intros Hnd [H|H].
  - injection H as -> ->. now rewrite keq_refl.
  - inversion Hnd as [|? ? Hk Hnd']; subst.
    rewrite keq_neq; [auto|].
    intros ->. apply Hk. now apply (in_map fst) in H.
Qed.

Lemma set_fresh (k : K) (v : V) (d : t K V) :
  ~ In k (keys d) -> set keq k v d = (d ++ [(k, v)])%list.
Proof.
  induction d as [|[k' v'] d IH]; simpl; [reflexivity|].
  intros H. rewrite keq_neq by tauto. rewrite IH by tauto. reflexivity.
Qed.

Lemma keys_set_present (k : K) (v : V) (d : t K V) :
  In k (keys d) -> keys (set keq k v d) = keys d.
Proof.
  induction d as [|[k' v'] d IH]; simpl; [tauto|].
  intros H. destruct (keq k' k) eqn:E; simpl; [reflexivity|].
  f_equal. apply IH. destruct H as [->|H]; [|assumption].
  now rewrite keq_refl in E.
Qed.

Lemma In_dec_keys (k : K) (d : t K V) : In k (keys d) \/ ~ In k (keys d).
Proof.
  destruct (get keq k d) eqn:E.
  - left. apply get_In in E. now apply (in_map fst) in E.
  - right. now apply get_None.
Qed.

Lemma keys_set_In (k k' : K) (v : V) (d : t K V) :
  In k' (keys (set keq k v d)) <-> k' = k \/ In k' (keys d).
Proof.
  destruct (In_dec_keys k d) as [H|H].
  - rewrite keys_set_present by assumption. split; [tauto|].
    intros [->|H']; assumption.
  - rewrite set_fresh by assumption. unfold keys. rewrite map_app, in_app_iff.
    simpl. intuition.
Qed.

Lemma keys_set_NoDup (k : K) (v : V) (d : t K V) :
  NoDup (keys d) -> NoDup (keys (set keq k v d)).
Proof.
  intros Hnd. destruct (In_dec_keys k d) as [H|H].
  - now rewrite keys_set_present.
  - rewrite set_fresh by assumption. unfold keys. rewrite map_app. simpl.
    apply NoDup_app; [assumption|repeat constructor; simpl; tauto|].
    intros x Hx [<-|[]]. contradiction.
Qed.

Lemma fold_set_fresh (l acc : list (K * V)) :
  NoDup (map fst (acc ++ l)) ->
  fold_left (fun d kv => set keq (fst kv) (snd kv) d) l acc = (acc ++ l)%list.
Proof.
  revert acc. induction l as [|[k v] l IH]; intros acc Hnd; simpl.
  - now rewrite app_nil_r.
  - assert (acc ++ (k, v) :: l = (acc ++ [(k, v)]) ++ l)%list as Eq
        by (now rewrite <- app_assoc).
    rewrite Eq in *. rewrite set_fresh.
    + now apply IH.
    + rewrite !map_app in Hnd. apply NoDup_app_remove_r in Hnd.
      simpl in Hnd. apply NoDup_remove_2 in Hnd. now rewrite app_nil_r in Hnd.
Qed.

(** [OrderedDict(pairs)] on distinct keys keeps the pairs as they come. *)
Lemma of_pairs_NoDup (pairs : list (K * V)) :
  NoDup (map fst pairs) -> of_pairs keq pairs = pairs.
Proof. intros H. unfold of_pairs. now rewrite fold_set_fresh. Qed.

End DictFacts.
End DictFacts.

(** ** Substrings and [strip] *)

Module StrFacts.
Import Str.

Lemma eqb_space (a c : ascii) :
  isspace a = false -> isspace c = true -> Ascii.eqb a c = false.
Proof.
  intros Ha Hc. destruct (Ascii.eqb a c) eqn:E; [|reflexivity].
  apply Ascii.eqb_eq in E. congruence.
Qed.

Lemma contains_lstrip (n s : string) :
  starts_nospace n = true -> contains n (lstrip s) = contains n s.
Proof.
  destruct n as [|a n]; [discriminate|]. simpl. intros Ha.
  apply negb_true_iff in Ha.
  induction s as [|c s IH]; [reflexivity|].
  cbn [lstrip]. destruct (isspace c) eqn:Ec; [|reflexivity].
  rewrite IH. cbn [contains startswith]. now rewrite eqb_space.
Qed.

Lemma rstrip_cons (c : ascii) (s : string) :
  rstrip (String c s) = EmptyString /\ rstrip s = EmptyString /\ isspace c = true
  \/ rstrip (String c s) = String c (rstrip s).
Proof.
  cbn [rstrip]. destruct (rstrip s); [|now right].
  destruct (isspace c); [left|right]; auto.
Qed.

Lemma startswith_empty (n : string) :
  ends_nospace n = true -> startswith n EmptyString = false.
Proof. destruct n; [discriminate|reflexivity]. Qed.

Lemma startswith_cons (a b : ascii) (n s : string) :
  startswith (String a n) (String b s) = Ascii.eqb a b && startswith n s.
Proof. reflexivity. Qed.

Lemma startswith_rstrip (n s : string) :
  ends_nospace n = true -> startswith n (rstrip s) = startswith n s.
Proof.
  revert s. induction n as [|a n IH]; [discriminate|].
  intros s Hn. destruct s as [|b s]; [reflexivity|].
  destruct n as [|a' n].
  - simpl in Hn. apply negb_true_iff in Hn.
    destruct (rstrip_cons b s) as [(-> & _ & Hb)| ->]; cbn [startswith].
    + now rewrite eqb_space.
    + reflexivity.
  - assert (ends_nospace (String a' n) = true) as Hn' by exact Hn.
    destruct (rstrip_cons b s) as [(-> & Hs & Hb)| ->].
    + rewrite startswith_cons, <- (IH s Hn'), Hs.
      rewrite (@startswith_empty _ Hn'). now rewrite andb_false_r.
    + rewrite !startswith_cons. now rewrite (IH s Hn').
Qed.

Lemma contains_rstrip (n s : string) :
  ends_nospace n = true -> contains n (rstrip s) = contains n s.
Proof.
  intros Hn. induction s as [|c s IH]; [reflexivity|].
  cbn [contains]. rewrite <- IH, <- (@startswith_rstrip n (String c s) Hn).
  destruct (rstrip_cons c s) as [(-> & -> & Hb)| ->].
  - cbn [contains]. now rewrite orb_false_r, orb_diag.
  - reflexivity.
Qed.

(** Stripping white space neither creates nor destroys an occurrence of a
    word that begins and ends with a visible character. *)
Lemma contains_strip (n s : string) :
  starts_nospace n = true -> ends_nospace n = true ->
  contains n (strip s) = contains n s.
Proof.
  intros H1 H2. unfold strip. now rewrite contains_rstrip, contains_lstrip.
Qed.

End StrFacts.

(** ** The extractor and the ledger builder *)

Module ProgramFacts.
Section ProgramFacts.
Import Calendar CalendarFacts RoundTrip.

Variable float : string -> result Q.

Local Abbreviation dget := (Dict.get Calendar.eqb).
Local Abbreviation dset := (Dict.set Calendar.eqb).

Let td_set_set := @DictFacts.set_set datetime (list Activity) _ eqb_eq.
Let td_set_get_id := @DictFacts.set_get_id datetime (list Activity) Calendar.eqb.
Let td_get_set_same := @DictFacts.get_set_same datetime (list Activity) _ eqb_eq.
Let td_get_set_other := @DictFacts.get_set_other datetime (list Activity) _ eqb_eq.
Let td_keys_set_In := @DictFacts.keys_set_In datetime (list Activity) _ eqb_eq.
Let td_keys_set_NoDup := @DictFacts.keys_set_NoDup datetime (list Activity) _ eqb_eq.

Lemma inner_loop (d : datetime) (nodes : list ActivityNode) (td : TravelData)
  (cur : list Activity) :
  dget d td = Some cur ->
  foldM (append_activity float d) nodes td
  = (acts <- mapM (extract_activity float) nodes ;;
     Ok (dset d (cur ++ acts)%list td)).
Proof.
  revert td cur. induction nodes as [|n nodes IH]; intros td cur Hget; simpl.
  - now rewrite app_nil_r, td_set_get_id.
  - unfold append_activity at 1.
    destruct (extract_activity float n) as [a|e]; simpl; [|reflexivity].
    unfold Dict.getitem. rewrite Hget. simpl.
    rewrite (IH _ (cur ++ [a])%list) by apply td_get_set_same.
    destruct (mapM (extract_activity float) nodes) as [acts|e]; simpl; [|reflexivity].
    now rewrite td_set_set, <- app_assoc.
Qed.

(** The outer loop body, with the in-place updates of
    [travel_data[date_obj]] folded into one assignment. *)
Lemma parse_container_eq (td : TravelData) (c : DateContainer) :
  parse_container float td c
  = match container_date c with
    | None => Ok td
    | Some d => sorted <- container_activities float c ;; Ok (dset d sorted td)
    end.
Proof.
  unfold parse_container, container_date, container_activities.
  destruct (date_element c) as [|t ts]; [reflexivity|].
  destruct (strptime_date (Str.strip t)) as [d|e] eqn:E.
  - rewrite (@inner_loop d (activities c) (dset d [] td) [])
      by apply td_get_set_same.
    destruct (mapM (extract_activity float) (activities c)) as [acts|e];
      simpl; [|reflexivity].
    rewrite td_set_set. unfold Dict.getitem. rewrite td_get_set_same. simpl.
    destruct (Sorting.sort_key ltb time_key acts); simpl; [|reflexivity].
    now rewrite td_set_set.
  - apply strptime_date_raises in E. now subst.
Qed.

Lemma container_date_is_date (c : DateContainer) (d : datetime) :
  container_date c = Some d -> is_date d.
Proof.
  unfold container_date. destruct (date_element c) as [|t ts]; [discriminate|].
  destruct (strptime_date (Str.strip t)) eqn:E; [|discriminate].
  intros H. injection H as <-. now apply strptime_date_is_date in E.
Qed.

(** What the outer loop leaves under each date: the activities of the last
    container filed under it. *)
Lemma loop_get (tree : list DateContainer) (td0 td : TravelData) (d : datetime) :
  foldM (parse_container float) tree td0 = Ok td ->
  match last_container d tree with
  | Some c => exists acts, container_activities float c = Ok acts
                           /\ dget d td = Some acts
  | None => dget d td = dget d td0
  end.
Proof.
  revert td0. induction tree as [|c tree IH]; intros td0; simpl.
  - intros H. now injection H as <-.
  - rewrite parse_container_eq.
    destruct (container_date c) as [d'|] eqn:Ec; simpl.
    + destruct (container_activities float c) as [acts|e] eqn:Ea; simpl;
        [|discriminate].
      intros H. specialize (IH _ H).
      destruct (last_container d tree) as [c'|]; [exact IH|].
      destruct (eqb d' d) eqn:E.
      * apply eqb_eq in E. subst d'. exists acts. split; [assumption|].
        now rewrite IH, td_get_set_same.
      * rewrite IH. apply td_get_set_other. now apply eqb_neq.
    + intros H. specialize (IH _ H).
      destruct (last_container d tree); assumption.
Qed.

Lemma last_container_In (d : datetime) (tree : list DateContainer) (c : DateContainer) :
  last_container d tree = Some c -> In c tree /\ container_date c = Some d.
Proof.
  induction tree as [|c' tree IH]; simpl; [discriminate|].
  destruct (last_container d tree) as [c''|].
  - intros H. destruct (IH H). auto.
  - destruct (container_date c') as [d'|] eqn:Ec; [|discriminate].
    destruct (eqb d' d) eqn:E; [|discriminate].
    apply eqb_eq in E. subst d'. intros H. injection H as <-. auto.
Qed.

Lemma last_container_None (d : datetime) (tree : list DateContainer) :
  last_container d tree = None <->
  forall c, In c tree -> container_date c <> Some d.
Proof.
  induction tree as [|c' tree IH]; simpl.
  - split; [intros _ c []|reflexivity].
  - destruct (last_container d tree) as [c''|] eqn:El.
    + split; [discriminate|]. intros H. exfalso.
      destruct (last_container_In _ _ El) as (Hin & Hd).
      apply (H c''); auto.
    + destruct IH as [IH1 IH2]. specialize (IH1 eq_refl).
      destruct (container_date c') as [d'|] eqn:Ec.
      * destruct (eqb d' d) eqn:E.
        -- apply eqb_eq in E. subst d'. split; [discriminate|].
           intros H. exfalso. apply (H c'); auto.
        -- apply eqb_neq in E. split; [|reflexivity].
           intros _ c [<-|Hin]; [congruence|auto].
      * split; [|reflexivity]. intros _ c [<-|Hin]; [congruence|auto].
Qed.

Lemma loop_keys (tree : list DateContainer) (td0 td : TravelData) :
  foldM (parse_container float) tree td0 = Ok td ->
  NoDup (Dict.keys td0) -> Forall is_date (Dict.keys td0) ->
  NoDup (Dict.keys td) /\ Forall is_date (Dict.keys td).
Proof.
  revert td0. induction tree as [|c tree IH]; intros td0; simpl.
  - intros H. injection H as <-. auto.
  - rewrite parse_container_eq.
    destruct (container_date c) as [d'|] eqn:Ec; simpl; [|apply IH].
    destruct (container_activities float c) as [acts|e]; simpl; [|discriminate].
    intros H Hnd Hall. apply (IH _ H).
    + now apply td_keys_set_NoDup.
    + apply Forall_forall. intros x Hx.
      apply td_keys_set_In in Hx. destruct Hx as [->|Hx].
      * now apply container_date_is_date in Ec.
      * rewrite Forall_forall in Hall. auto.
Qed.

Lemma ledger_item_Ok (td : TravelData) (d : datetime) (item : string * list Activity) :
  ledger_item td d = Ok item <->
  fst item = strftime_date d /\ dget d td = Some (snd item).
Proof.
  unfold ledger_item, Dict.getitem. destruct (dget d td) as [acts|]; simpl.
  - split.
    + intros H. injection H as <-. auto.
    + destruct item as [l a]. simpl. intros (-> & H). now injection H as ->.
  - split; [discriminate|]. intros (_ & H). discriminate.
Qed.

Lemma Forall2_fst_map (td : TravelData) (ds : list datetime) (items : Ledger) :
  Forall2 (fun d item => ledger_item td d = Ok item) ds items ->
  map fst items = map strftime_date ds.
Proof.
  induction 1 as [|d item ds items H _ IH]; simpl; [reflexivity|].
  apply ledger_item_Ok in H. destruct H as (-> & _). now rewrite IH.
Qed.

Lemma NoDup_labels (ds : list datetime) :
  NoDup ds -> Forall is_date ds -> NoDup (map strftime_date ds).
Proof.
  intros Hnd Hall. rewrite Forall_forall in Hall.
  induction Hnd as [|d ds Hd Hnd IH]; simpl; constructor.
  - intros Hin. apply in_map_iff in Hin. destruct Hin as (d' & E & Hd').
    apply strftime_date_inj in E; [subst; contradiction| |]; apply Hall;
      simpl; auto.
  - apply IH. intros x Hx. apply Hall. simpl. auto.
Qed.

(** The shape of a ledger that [parse_travel_data] returns. *)
Lemma parse_travel_data_inv (tree : list DateContainer) (ledger : Ledger) :
  parse_travel_data float tree = Ok ledger ->
  exists (td : TravelData) (ds : list datetime),
    foldM (parse_container float) tree [] = Ok td
    /\ ds = Sorting.sorted_reverse ltb (Dict.keys td)
    /\ StronglySorted (fun x y => ltb y x = true) ds
    /\ Forall is_date ds
    /\ Forall2 (fun d item => fst item = strftime_date d
                              /\ dget d td = Some (snd item)) ds ledger.
Proof.
  unfold parse_travel_data.
  destruct (foldM (parse_container float) tree []) as [td|e] eqn:Etd; simpl;
    [|discriminate].
  fold (ledger_item td).
  destruct (mapM (ledger_item td) (Sorting.sorted_reverse ltb (Dict.keys td)))
    as [items|e] eqn:Ei; simpl; [|discriminate].
  intros H. injection H as <-.
  destruct (@loop_keys tree [] td Etd) as (Hnd & Hall); [constructor..|].
  pose proof (SortingFacts.sorted_reverse_perm ltb (Dict.keys td)) as Hp.
  set (ds := Sorting.sorted_reverse ltb (Dict.keys td)) in *.
  assert (Forall is_date ds) as Hds.
  { apply Forall_forall. intros x Hx. rewrite Forall_forall in Hall.
    apply Hall. apply Permutation_sym in Hp. now apply (Permutation_in _ Hp). }
  apply mapM_Forall2 in Ei.
  exists td, ds. repeat split; try assumption.
  - apply SortingFacts.sorted_reverse_desc; auto using ltb_asym.
    + intros x y z. apply nlt_trans.
    + intros x y. apply nlt_antisym.
  - rewrite DictFacts.of_pairs_NoDup.
    + eapply Forall2_impl; [|exact Ei]. intros d item. apply ledger_item_Ok.
    + apply String.eqb_eq.
    + rewrite (@Forall2_fst_map td ds items Ei). apply NoDup_labels; [|assumption].
      now apply (Permutation_NoDup Hp).
Qed.

(** Building the ledger out of [travel_data] never fails. *)
Lemma parse_travel_data_total (tree : list DateContainer) (td : TravelData) :
  foldM (parse_container float) tree [] = Ok td ->
  exists ledger, parse_travel_data float tree = Ok ledger.
Proof.
  intros Etd. unfold parse_travel_data. rewrite Etd. simpl.
  fold (ledger_item td).
  destruct (@mapM_total _ _ (ledger_item td)
              (Sorting.sorted_reverse ltb (Dict.keys td))) as [items ->].
  - apply Forall_forall. intros d Hd.
    apply (Permutation_in _ (Permutation_sym
             (SortingFacts.sorted_reverse_perm ltb (Dict.keys td)))) in Hd.
    unfold ledger_item, Dict.getitem.
    destruct (dget d td) as [acts|] eqn:E; simpl; [eauto|].
    apply DictFacts.get_None in E; [contradiction|apply eqb_eq].
  - simpl. eauto.
Qed.

End ProgramFacts.
End ProgramFacts.

(** ** Sorting by a key *)

Module SortKeyFacts.
Section SortKeyFacts.
Import Sorting.

Variables (A B : Type) (lt : B -> B -> bool) (beq : B -> B -> bool).
Variable f : A -> result B.

Hypothesis beq_eq : forall a b, beq a b = true <-> a = b.
Hypothesis lt_asym : forall x y, lt x y = true -> lt y x = false.

Let ltp (p q : B * A) : bool := lt (fst p) (fst q).
Let keyed (p : B * A) : Prop := f (snd p) = Ok (fst p).

Lemma combine_keyed (l : list A) (ks : list B) :
  Forall2 (fun x y => f x = Ok y) l ks ->
  Forall keyed (combine ks l) /\ map snd (combine ks l) = l.
Proof.
  induction 1 as [|x k l ks H _ [IH1 IH2]]; simpl.
  - split; [constructor|reflexivity].
  - split; [constructor; assumption|now rewrite IH2].
Qed.

Lemma keyed_mapM (ps : list (B * A)) :
  Forall keyed ps -> mapM f (map snd ps) = Ok (map fst ps).
Proof.
  intros H. apply mapM_Forall2.
  induction H as [|p ps Hp _ IH]; simpl; constructor; assumption.
Qed.

Lemma keyed_filter (k : B) (ps : list (B * A)) :
  Forall keyed ps ->
  filter (has_key beq f k) (map snd ps)
  = map snd (filter (fun p => beq (fst p) k) ps).
Proof.
  induction 1 as [|p ps Hp _ IH]; simpl; [reflexivity|].
  unfold has_key at 1. rewrite Hp.
  destruct (beq (fst p) k); simpl; now rewrite IH.
Qed.

Lemma lt_irrefl (x : B) : lt x x = false.
Proof.
  destruct (lt x x) eqn:E; [|reflexivity].
  pose proof (lt_asym E). congruence.
Qed.

Lemma sorted_map_fst (ps : list (B * A)) :
  Sorted (fun p q => ltp q p = false) ps ->
  Sorted (fun x y => lt y x = false) (map fst ps).
Proof.
  induction 1 as [|p ps Hs IH Hd]; simpl; constructor; [assumption|].
  destruct Hd; simpl; constructor. assumption.
Qed.

(** [l.sort(key=f)] returns: the result is a permutation of [l], its keys
    are in non-decreasing order, and the elements of one key are in the
    order they had in [l]. *)
Lemma sort_key_Ok (l out : list A) :
  sort_key lt f l = Ok out ->
  Permutation l out
  /\ (exists ks, mapM f out = Ok ks /\ Sorted (fun x y => lt y x = false) ks)
  /\ (forall k, filter (has_key beq f k) out = filter (has_key beq f k) l).
Proof.
  unfold sort_key. destruct (mapM f l) as [ks|e] eqn:E; simpl; [|discriminate].
  intros H. injection H as <-. fold ltp.
  apply mapM_Forall2 in E. destruct (combine_keyed E) as (Hk & Hl).
  pose proof (SortingFacts.sort_perm ltp (combine ks l)) as Hp.
  assert (Forall keyed (sort ltp (combine ks l))) as Hk'.
  { apply Forall_forall. intros p Hin. rewrite Forall_forall in Hk.
    apply Hk. apply Permutation_sym in Hp. now apply (Permutation_in _ Hp). }
  repeat split.
  - rewrite <- Hl at 1. now apply Permutation_map.
  - exists (map fst (sort ltp (combine ks l))). split.
    + now apply keyed_mapM.
    + apply sorted_map_fst. apply SortingFacts.sort_sorted.
      intros p q. apply lt_asym.
  - intros k. rewrite keyed_filter by assumption.
    rewrite SortingFacts.sort_filter.
    + rewrite <- keyed_filter by assumption. now rewrite Hl.
    + intros p q Hp' Hq'. apply beq_eq in Hp', Hq'. unfold ltp.
      rewrite Hp', Hq'. apply lt_irrefl.
Qed.

(** ... and it returns whenever every key can be computed. *)
Lemma sort_key_total (l : list A) :
  Forall (fun a => exists k, f a = Ok k) l -> exists out, sort_key lt f l = Ok out.
Proof.
  intros H. apply mapM_total in H. destruct H as [ks E].
  unfold sort_key. rewrite E. simpl. eauto.
Qed.

Lemma sort_key_raise (l : list A) (a : A) (e : exn) :
  In a l -> f a = Raise e -> exists e', sort_key lt f l = Raise e'.
Proof.
  intros Hin Ha. destruct (mapM_raise f l a Hin Ha) as [e' E].
  unfold sort_key. rewrite E. simpl. eauto.
Qed.

End SortKeyFacts.
End SortKeyFacts.

(** ** The weekly aggregator *)

Module AggregatorFacts.
Import Calendar CalendarFacts.

Lemma running_total_app (q0 : Q) (fs gs : list Q) :
  running_total q0 (fs ++ gs) = running_total (running_total q0 fs) gs.
Proof. apply fold_left_app. Qed.

Lemma top_ups_app (l1 l2 : list Activity) :
  top_ups (l1 ++ l2) = (top_ups l1 ++ top_ups l2)%list.
Proof. unfold top_ups. now rewrite filter_app, map_app. Qed.

Lemma charges_app (l1 l2 : list Activity) :
  charges (l1 ++ l2) = (charges l1 ++ charges l2)%list.
Proof. unfold charges. now rewrite filter_app, map_app. Qed.

Lemma abs_charges_app (l1 l2 : list Activity) :
  abs_charges (l1 ++ l2) = (abs_charges l1 ++ abs_charges l2)%list.
Proof. unfold abs_charges. now rewrite filter_app, map_app. Qed.

Lemma add_activities (acts : list Activity) (tu fc : Q) :
  fold_left add_activity acts (tu, fc)
  = (running_total tu (top_ups acts), running_total fc (charges acts)).
Proof.
  revert tu fc. induction acts as [|a acts IH]; intros tu fc; [reflexivity|].
  cbn [fold_left]. unfold add_activity at 2, top_ups, charges.
  cbn [filter]. fold (is_top_up a).
  destruct (is_top_up a); rewrite IH; reflexivity.
Qed.

Lemma calculate_totals_from (travel_dict : Ledger) (last_monday : datetime)
  (dates : list datetime) (tu fc : Q) :
  mapM strptime_date (map fst travel_dict) = Ok dates ->
  let inc := activities_where (leb last_monday)
               (combine dates (map snd travel_dict)) in
  foldM (calculate_totals_item last_monday) travel_dict (tu, fc)
  = Ok (running_total tu (top_ups inc), running_total fc (charges inc)).
Proof.
  revert dates tu fc.
  induction travel_dict as [|[label acts] rest IH]; intros dates tu fc;
    cbn [map mapM foldM fst].
  - intros H. injection H as <-. reflexivity.
  - unfold calculate_totals_item at 1. cbn [fst snd].
    destruct (strptime_date label) as [d|e]; cbn [bind]; [|discriminate].
    destruct (mapM strptime_date (map fst rest)) as [ds|e] eqn:E; cbn [bind];
      [|discriminate].
    intros H. injection H as <-. unfold activities_where.
    cbn [combine map snd filter fst].
    destruct (leb last_monday d); cbn [bind flat_map snd].
    + rewrite add_activities, (IH ds) by reflexivity.
      rewrite top_ups_app, charges_app, !running_total_app. reflexivity.
    + now rewrite (IH ds).
Qed.

Local Abbreviation sget := (Dict.get String.eqb).
Local Abbreviation sset := (Dict.set String.eqb).

Lemma extend_nil (t : DayTotals) : extend t [] = t.
Proof. now destruct t. Qed.

Lemma extend_app (t : DayTotals) (l1 l2 : list Activity) :
  extend t (l1 ++ l2) = extend (extend t l1) l2.
Proof.
  unfold extend. cbn [topup fares].
  now rewrite top_ups_app, abs_charges_app, !running_total_app.
Qed.

Lemma add_daily_loop (w : string) (acts : list Activity) (daily : DailyTotals)
  (t : DayTotals) :
  sget w daily = Some t ->
  foldM (add_daily w) acts daily = Ok (sset w (extend t acts) daily).
Proof.
  revert daily t. induction acts as [|a acts IH]; intros daily t Hget.
  - rewrite extend_nil. cbn [foldM].
    now rewrite (@DictFacts.set_get_id _ _ String.eqb w t daily Hget).
  - cbn [foldM]. unfold add_daily at 1, Dict.getitem. rewrite Hget. cbn [bind].
    change (a :: acts) with ([a] ++ acts)%list. rewrite extend_app.
    unfold extend at 2, top_ups, abs_charges. cbn [filter app].
    fold (is_top_up a).
    destruct (is_top_up a); cbn [bind negb map running_total fold_left];
      (erewrite IH by (apply DictFacts.get_set_same, String.eqb_eq));
      (rewrite DictFacts.set_set by apply String.eqb_eq); reflexivity.
Qed.

Lemma get_daily_totals_item_Ok (last_monday : datetime) (daily : DailyTotals)
  (label : string) (acts : list Activity) (d : datetime) :
  strptime_date label = Ok d ->
  get_daily_totals_item last_monday daily (label, acts)
  = Ok (if leb last_monday d
        then sset (strftime_A d) (extend (row daily (strftime_A d)) acts) daily
        else daily).
Proof.
  intros Hd. unfold get_daily_totals_item. cbn [fst snd]. rewrite Hd. cbn [bind].
  rewrite leb_ltb. destruct (ltb d last_monday); cbn [negb]; [reflexivity|].
  unfold Dict.mem, row. destruct (sget (strftime_A d) daily) as [t|] eqn:E.
  - now apply add_daily_loop.
  - rewrite (@add_daily_loop _ _ _ (mkDayTotals 0 0))
      by (apply DictFacts.get_set_same, String.eqb_eq).
    now rewrite DictFacts.set_set by apply String.eqb_eq.
Qed.

Lemma activities_where_none (keep : datetime -> bool)
  (dated : list (datetime * list Activity)) :
  existsb (fun e => keep (fst e)) dated = false -> activities_where keep dated = [].
Proof.
  unfold activities_where. induction dated as [|e dated IH]; [reflexivity|].
  cbn [existsb filter]. destruct (keep (fst e)); [discriminate|]. exact IH.
Qed.

Lemma activities_where_cons (keep : datetime -> bool) (d : datetime)
  (acts : list Activity) (dated : list (datetime * list Activity)) :
  activities_where keep ((d, acts) :: dated)
  = if keep d then (acts ++ activities_where keep dated)%list
    else activities_where keep dated.
Proof. unfold activities_where. cbn [filter fst]. now destruct (keep d). Qed.

Lemma get_daily_totals_from (travel_dict : Ledger) (last_monday : datetime)
  (dates : list datetime) (daily0 : DailyTotals) :
  mapM strptime_date (map fst travel_dict) = Ok dates ->
  exists daily,
    foldM (get_daily_totals_item last_monday) travel_dict daily0 = Ok daily
    /\ forall w,
        let dated := combine dates (map snd travel_dict) in
        sget w daily
        = if existsb (fun e => on_weekday last_monday w (fst e)) dated
          then Some (extend (row daily0 w)
                       (activities_where (on_weekday last_monday w) dated))
          else sget w daily0.
Proof.
  revert dates daily0.
  induction travel_dict as [|[label acts] rest IH]; intros dates daily0;
    cbn [map mapM foldM fst].
  - intros H. injection H as <-. exists daily0. split; reflexivity.
  - destruct (strptime_date label) as [d|e] eqn:Ed; cbn [bind]; [|discriminate].
    destruct (mapM strptime_date (map fst rest)) as [ds|e] eqn:E; cbn [bind];
      [|discriminate].
    intros H. injection H as <-.
    rewrite (@get_daily_totals_item_Ok last_monday daily0 label acts d Ed). cbn [bind].
    destruct (IH ds (if leb last_monday d
                     then sset (strftime_A d)
                            (extend (row daily0 (strftime_A d)) acts) daily0
                     else daily0) eq_refl) as (daily & Hf & Hg).
    exists daily. split; [exact Hf|]. intros w. cbn zeta in *.
    rewrite Hg. clear Hg Hf IH.
    cbn [combine map snd existsb fst]. rewrite activities_where_cons.
    change (on_weekday last_monday w d)
      with (leb last_monday d && String.eqb (strftime_A d) w).
    destruct (leb last_monday d); cbn [andb orb]; [|reflexivity].
    destruct (String.eqb (strftime_A d) w) eqn:Ew; cbn [orb].
    + apply String.eqb_eq in Ew. subst w.
      rewrite extend_app. unfold row at 1.
      rewrite DictFacts.get_set_same by apply String.eqb_eq.
      destruct (existsb _ _) eqn:Ex; [reflexivity|].
      now rewrite (activities_where_none _ _ Ex), extend_nil.
    + apply String.eqb_neq in Ew. unfold row at 1.
      rewrite DictFacts.get_set_other by (apply String.eqb_eq || exact Ew).
      reflexivity.
Qed.

End AggregatorFacts.

(** ** One activity *)

Module ExtractFacts.
Section ExtractFacts.
Import Calendar CalendarFacts.

Variable float : string -> result Q.

(** [extract_activity] in terms of the extracted texts. *)
Lemma extract_activity_eq (n : ActivityNode) :
  extract_activity float n
  = (fare <- match amount_text n with Some s => float s | None => Ok 0%Q end ;;
     Ok (if Str.contains "Top up" (origin_text n)
         then mkActivity (time_text n) "Top Up" "Opal Travel App" fare
         else mkActivity (time_text n) (origin_text n) (destination_text n) fare)).
Proof.
  unfold extract_activity, amount_text, origin_text, destination_text, time_text.
  destruct (fare_element n) as [|t ts]; cbn [bind].
  - now destruct (Str.contains _ _).
  - destruct (float _); cbn [bind]; [|reflexivity]. now destruct (Str.contains _ _).
Qed.

Lemma extract_activity_time (n : ActivityNode) (a : Activity) :
  extract_activity float n = Ok a -> time a = time_text n.
Proof.
  rewrite extract_activity_eq.
  destruct (match amount_text n with Some s => float s | None => Ok 0%Q end);
    cbn [bind]; [|discriminate].
  intros H. injection H as <-. now destruct (Str.contains _ _).
Qed.

Lemma extract_activity_Ok (n : ActivityNode) :
  fare_parses float n = true <-> exists a, extract_activity float n = Ok a.
Proof.
  rewrite extract_activity_eq. unfold fare_parses.
  destruct (amount_text n) as [s|]; [destruct (float s)|]; cbn [bind];
    split; eauto; try discriminate; intros [a H]; discriminate.
Qed.

Lemma container_activities_Ok (c : DateContainer) :
  forallb (fun n => fare_parses float n && time_parses n) (activities c) = true ->
  exists acts, container_activities float c = Ok acts.
Proof.
  intros H. rewrite forallb_forall in H. unfold container_activities.
  destruct (@mapM_total _ _ (extract_activity float) (activities c)) as [raw E].
  { apply Forall_forall. intros n Hn. apply extract_activity_Ok.
    specialize (H n Hn). now apply andb_true_iff in H. }
  rewrite E. cbn [bind].
  apply SortKeyFacts.sort_key_total. apply mapM_Forall2 in E.
  apply Forall_forall. intros a Ha.
  destruct (@Forall2_in_r _ _ _ _ _ a E Ha) as (n & Hn & Hna).
  specialize (H n Hn). apply andb_true_iff in H. destruct H as (_ & Ht).
  unfold time_parses in Ht. unfold time_key.
  rewrite (@extract_activity_time n a Hna).
  destruct (strptime_time (time_text n)); [eauto|discriminate].
Qed.

Lemma container_activities_Raise (c : DateContainer) :
  forallb (fun n => fare_parses float n && time_parses n) (activities c) = false ->
  exists e, container_activities float c = Raise e.
Proof.
  intros H. unfold container_activities.
  destruct (mapM (extract_activity float) (activities c)) as [raw|e] eqn:E;
    cbn [bind]; [|eauto].
  apply mapM_Forall2 in E.
  assert (exists n, In n (activities c) /\ time_parses n = false) as (n & Hn & Ht).
  { clear -H E. set (ns := activities c) in *. clearbody ns.
    induction E as [|n a ns' acts Hna _ IH]; [discriminate|].
    cbn [forallb] in H. 
    assert (fare_parses float n = true) as Hf by (apply extract_activity_Ok; eauto).
    rewrite Hf in H.
    cbn [andb] in H. destruct (time_parses n) eqn:Et; cbn [andb] in H.
    - destruct (IH H) as (n' & Hn' & Ht'). exists n'. simpl. auto.
    - exists n. simpl. auto. }
  destruct (@Forall2_in_l _ _ _ _ _ n E Hn) as (a & Ha & Hna).
  unfold time_parses in Ht.
  destruct (strptime_time (time_text n)) as [k|e] eqn:Ek; [discriminate|].
  apply (@SortKeyFacts.sort_key_raise _ _ ltb time_key raw a e Ha).
  unfold time_key. now rewrite (@extract_activity_time n a Hna).
Qed.

End ExtractFacts.
End ExtractFacts.

(** ** The whole document *)

Module LedgerFacts.
Section LedgerFacts.
Import Calendar CalendarFacts RoundTrip ProgramFacts ExtractFacts.

Variable float : string -> result Q.

Lemma loop_total (tree : list DateContainer) (td0 : TravelData) :
  tree_parses float tree = true ->
  exists td, foldM (parse_container float) tree td0 = Ok td.
Proof.
  revert td0. induction tree as [|c tree IH]; intros td0; cbn [tree_parses forallb foldM].
  - eauto.
  - intros H. apply andb_true_iff in H. destruct H as (Hc & Ht).
    rewrite parse_container_eq. unfold container_parses in Hc.
    destruct (container_date c) as [d|]; cbn [bind]; [|now apply IH].
    destruct (container_activities_Ok float c Hc) as [acts ->]. cbn [bind].
    now apply IH.
Qed.

Lemma loop_raise (tree : list DateContainer) (td0 : TravelData) :
  tree_parses float tree = false ->
  exists e, foldM (parse_container float) tree td0 = Raise e.
Proof.
  revert td0. induction tree as [|c tree IH]; intros td0; cbn [tree_parses forallb foldM].
  - discriminate.
  - intros H. rewrite parse_container_eq. unfold container_parses in H.
    destruct (container_date c) as [d|]; cbn [bind].
    + destruct (forallb _ (activities c)) eqn:Hc.
      * destruct (container_activities_Ok float c Hc) as [acts ->]. cbn [bind].
        now apply IH.
      * destruct (container_activities_Raise float c Hc) as [e ->]. cbn [bind].
        eauto.
    + now apply IH.
Qed.

Lemma loop_skip (pre post : list DateContainer) (c : DateContainer)
  (td0 : TravelData) :
  container_date c = None ->
  foldM (parse_container float) (pre ++ c :: post) td0
  = foldM (parse_container float) (pre ++ post) td0.
Proof.
  intros Hc. rewrite !foldM_app.
  destruct (foldM (parse_container float) pre td0) as [td|e]; cbn [bind foldM];
    [|reflexivity].
  now rewrite parse_container_eq, Hc.
Qed.

(** The labels of a ledger of dates of the year 1000 or later read back
    as its dates. *)
Lemma labels_parse (ds : list datetime) (labels : list string) :
  Forall is_date ds -> Forall (fun d => 1000 <= year d) ds ->
  labels = map strftime_date ds ->
  mapM strptime_date labels = Ok ds.
Proof.
  intros Hall H4 ->. apply mapM_Forall2.
  induction Hall as [|d ds Hd _ IH]; simpl; constructor.
  - apply strptime_strftime; [assumption|]. now inversion H4.
  - apply IH. now inversion H4.
Qed.

(** A date of [travel_data] is the date of a container. *)
Lemma key_has_container (tree : list DateContainer) (td : TravelData)
  (d : datetime) :
  foldM (parse_container float) tree [] = Ok td ->
  In d (Dict.keys td) ->
  exists c, last_container d tree = Some c.
Proof.
  intros Etd Hin. pose proof (@loop_get float tree [] td d Etd) as Hl.
  destruct (last_container d tree) as [c|]; [eauto|].
  cbn [Dict.get] in Hl.
  apply DictFacts.get_None in Hl; [contradiction|apply eqb_eq].
Qed.

Lemma Forall2_labels (td : TravelData) (ds : list datetime) (ledger : Ledger) :
  Forall2 (fun d item => fst item = strftime_date d
                         /\ Dict.get Calendar.eqb d td = Some (snd item)) ds ledger ->
  map fst ledger = map strftime_date ds
  /\ map snd ledger
     = map (fun d => match Dict.get Calendar.eqb d td with
                     | Some acts => acts
                     | None => []
                     end) ds.
Proof.
  induction 1 as [|d item ds ledger (H1 & H2) _ (IH1 & IH2)]; simpl; [auto|].
  now rewrite H1, H2, IH1, IH2.
Qed.

(** Looking a date up in the ledger is looking it up in [travel_data]. *)
Lemma ledger_get (tree : list DateContainer) (ledger : Ledger) :
  parse_travel_data float tree = Ok ledger ->
  exists td,
    foldM (parse_container float) tree [] = Ok td
    /\ forall d, is_date d ->
         Dict.get String.eqb (strftime_date d) ledger = Dict.get Calendar.eqb d td.
Proof.
  intros H. apply parse_travel_data_inv in H.
  destruct H as (td & ds & Etd & Eds & Hs & Hall & HF).
  exists td. split; [assumption|]. intros d Hd.
  destruct (@Forall2_labels td ds ledger HF) as (Hl & _).
  assert (NoDup (map fst ledger)) as Hnd.
  { rewrite Hl. apply NoDup_labels; [|assumption].
    destruct (@loop_keys float tree [] td Etd) as (Hk & _); [constructor..|].
    rewrite Eds.
    apply (Permutation_NoDup (SortingFacts.sorted_reverse_perm ltb (Dict.keys td)) Hk). }
  destruct (Dict.get Calendar.eqb d td) as [acts|] eqn:E.
  - apply DictFacts.In_get; [apply String.eqb_eq|assumption|].
    assert (In d ds) as Hin.
    { rewrite Eds.
      apply (Permutation_in _ (SortingFacts.sorted_reverse_perm ltb (Dict.keys td))).
      apply DictFacts.get_In in E; [|apply eqb_eq].
      now apply (in_map fst) in E. }
    destruct (@Forall2_in_l _ _ _ _ _ d HF Hin) as ([l a] & Hi & H1 & H2).
    simpl in *. subst l. congruence.
  - apply DictFacts.get_None; [apply String.eqb_eq|].
    unfold Dict.keys. rewrite Hl. intros Hin. apply in_map_iff in Hin.
    destruct Hin as (d' & E' & Hin').
    assert (d' = d) as ->.
    { apply strftime_date_inj; auto. rewrite Forall_forall in Hall. auto. }
    apply DictFacts.get_None in E; [|apply eqb_eq]. apply E.
    rewrite Eds in Hin'.
    apply (Permutation_in _ (Permutation_sym
             (SortingFacts.sorted_reverse_perm ltb (Dict.keys td)))) in Hin'.
    exact Hin'.
Qed.

Lemma strongly_sorted_nth (A : Type) (R : A -> A -> Prop) (l : list A)
  (i j : nat) (a b : A) :
  StronglySorted R l -> nth_error l i = Some a -> nth_error l j = Some b ->
  (i < j)%nat -> R a b.
Proof.
  intros Hs. revert i j. induction Hs as [|x l Hs IH Hall]; intros i j Hi Hj Hlt.
  - destruct i; discriminate.
  - destruct j as [|j]; [lia|]. simpl in Hj.
    destruct i as [|i]; simpl in Hi.
    + injection Hi as <-. rewrite Forall_forall in Hall. apply Hall.
      now apply nth_error_In in Hj.
    + apply (IH i j); auto. lia.
Qed.

End LedgerFacts.
End LedgerFacts.

(** * The ledger and the aggregations *)

Import Calendar CalendarFacts RoundTrip ProgramFacts ExtractFacts LedgerFacts
  AggregatorFacts.

(** ** The top-up computation of [main] *)

Lemma Qltb_false (x y : Q) : Qltb x y = false -> (y <= x)%Q.
Proof.
  unfold Qltb. intros H. apply negb_false_iff in H. now apply Qle_bool_iff.
Qed.

Lemma Qltb_true (x y : Q) : Qltb x y = true -> (x < y)%Q.
Proof.
  unfold Qltb. intros H. apply negb_true_iff in H.
  apply Qnot_le_lt. intros Hle. apply Qle_bool_iff in Hle. congruence.
Qed.

(** C5: an activity whose raw origin text contains ["Top up"] is stored with
    origin ["Top Up"] and destination ["Opal Travel App"], whatever its
    destination text; an activity without that substring keeps the origin
    and destination that were extracted. *)
Theorem top_up_normalization (float : string -> result Q) (n : ActivityNode)
  (a : Activity) :
  extract_activity float n = Ok a ->
  (forall raw rest,
     start_point_element n = raw :: rest -> Str.contains "Top up" raw = true ->
     start_point a = "Top Up" /\ end_point a = "Opal Travel App")
  /\ ((forall raw rest,
         start_point_element n = raw :: rest -> Str.contains "Top up" raw = false) ->
      start_point a = origin_text n /\ end_point a = destination_text n).
Proof.
  intros H. rewrite extract_activity_eq in H.
  destruct (match amount_text n with Some s => float s | None => Ok 0%Q end);
    cbn [bind] in H; [|discriminate].
  injection H as <-. split.
  - intros raw rest Hn Hc. unfold origin_text. rewrite Hn.
    rewrite StrFacts.contains_strip, Hc by reflexivity. auto.
  - intros Hno.
    assert (Str.contains "Top up" (origin_text n) = false) as ->; [|auto].
    unfold origin_text. destruct (start_point_element n) as [|raw rest] eqn:E.
    + reflexivity.
    + rewrite StrFacts.contains_strip by reflexivity. now apply (Hno raw rest).
Qed.

Lemma top_up_normalization_witness :
  start_point (mkActivity "07:00" "Top Up" "Opal Travel App" 20.00) = "Top Up"
  /\ end_point (mkActivity "07:00" "Top Up" "Opal Travel App" 20.00)
     = "Opal Travel App".
Proof.
  apply (proj1 (@top_up_normalization Decimal.float
                  (mkActivityNode ["07:00"] [" Top up machine "] ["City"] ["$20.00"])
                  (mkActivity "07:00" "Top Up" "Opal Travel App" 20.00)
                  eq_refl)
           " Top up machine " [] eq_refl eq_refl).
Defined.

(** The labels of a returned ledger are the printed dates of the
    containers, from the latest to the earliest. *)
Lemma ledger_dates (float : string -> result Q) (tree : list DateContainer)
  (ledger : Ledger) :
  parse_travel_data float tree = Ok ledger ->
  exists ds,
    map fst ledger = map strftime_date ds
    /\ Forall is_date ds
    /\ StronglySorted (fun x y => ltb y x = true) ds
    /\ (forall d, In d ds <-> exists c, In c tree /\ container_date c = Some d).
Proof.
  intros H. apply parse_travel_data_inv in H.
  destruct H as (td & ds & Etd & Eds & Hs & Hall & HF).
  exists ds. repeat split; try assumption.
  - now destruct (@Forall2_labels td ds ledger HF).
  - intros Hd. rewrite Eds in Hd.
    apply (Permutation_in _ (Permutation_sym
             (SortingFacts.sorted_reverse_perm ltb (Dict.keys td)))) in Hd.
    destruct (@key_has_container float tree td d Etd Hd) as [c Hc].
    exists c. now apply last_container_In.
  - intros (c & Hc & Hd). rewrite Eds.
    apply (Permutation_in _ (SortingFacts.sorted_reverse_perm ltb (Dict.keys td))).
    pose proof (@loop_get float tree [] td d Etd) as Hl.
    destruct (last_container d tree) as [c'|] eqn:El.
    + destruct Hl as (acts & _ & Hg).
      apply DictFacts.get_In in Hg; [|apply eqb_eq].
      now apply (in_map fst) in Hg.
    + exfalso. rewrite last_container_None in El. now apply (El c).
Qed.

Lemma sorted_impl (A : Type) (R S : A -> A -> Prop) (l : list A) :
  (forall x y, R x y -> S x y) -> Sorted R l -> Sorted S l.
Proof.
  intros HRS. induction 1 as [|x l Hs IH Hd]; constructor; [assumption|].
  destruct Hd; constructor. auto.
Qed.

Lemma sort_by_time_Ok (raw acts : list Activity) :
  Sorting.sort_key ltb time_key raw = Ok acts ->
  Permutation raw acts
  /\ (exists ks, mapM time_key acts = Ok ks
                 /\ Sorted (fun x y => ltb y x = false) ks)
  /\ (forall k, filter (has_key eqb time_key k) acts
                = filter (has_key eqb time_key k) raw).
Proof.
  intros H. apply SortKeyFacts.sort_key_Ok; auto using ltb_asym.
  apply eqb_eq.
Qed.

Lemma ledger_entry_source (float : string -> result Q) (tree : list DateContainer)
  (ledger : Ledger) (label : string) (acts : list Activity) :
  parse_travel_data float tree = Ok ledger -> In (label, acts) ledger ->
  exists c, In c tree /\ container_activities float c = Ok acts.
Proof.
  intros H Hin. apply parse_travel_data_inv in H.
  destruct H as (td & ds & Etd & Eds & Hs & Hall & HF).
  destruct (@Forall2_in_r _ _ _ _ _ (label, acts) HF Hin) as (d & Hd & _ & Hget).
  cbn [snd] in Hget.
  pose proof (@loop_get float tree [] td d Etd) as Hl.
  destruct (last_container d tree) as [c|] eqn:Ec.
  - destruct Hl as (acts' & Ha & Hg). exists c. split.
    + now apply last_container_In in Ec.
    + congruence.
  - rewrite Hget in Hl. discriminate.
Qed.

Lemma last_container_app (d : datetime) (l1 l2 : list DateContainer)
  (c : DateContainer) :
  container_date c = Some d ->
  (forall c', In c' l2 -> container_date c' <> Some d) ->
  last_container d (l1 ++ c :: l2) = Some c.
Proof.
  intros Hc Hl2. induction l1 as [|x l1 IH]; cbn [app last_container].
  - apply last_container_None in Hl2. now rewrite Hl2, Hc, eqb_refl.
  - now rewrite IH.
Qed.

(** C9: when several containers carry the same date, the ledger entry of
    that date holds the activities of the last of them and nothing of the
    earlier ones. *)
Theorem last_group_wins (float : string -> result Q)
  (pre mid post : list DateContainer) (c1 c2 : DateContainer) (d : datetime)
  (ledger : Ledger) :
  container_date c1 = Some d -> container_date c2 = Some d ->
  (forall c, In c post -> container_date c <> Some d) ->
  parse_travel_data float (pre ++ c1 :: mid ++ c2 :: post) = Ok ledger ->
  exists raw acts,
    mapM (extract_activity float) (activities c2) = Ok raw
    /\ Sorting.sort_key ltb time_key raw = Ok acts
    /\ Permutation raw acts
    /\ Dict.get String.eqb (strftime_date d) ledger = Some acts.
Proof.
  intros H1 H2 Hpost H.
  destruct (@ledger_get float _ ledger H) as (td & Etd & Hget).
  pose proof (@loop_get float _ [] td d Etd) as Hl.
  replace (pre ++ c1 :: mid ++ c2 :: post)%list
    with ((pre ++ c1 :: mid) ++ c2 :: post)%list in Hl
    by (now rewrite <- app_assoc).
  rewrite (@last_container_app d (pre ++ c1 :: mid) post c2 H2 Hpost) in Hl.
  destruct Hl as (acts & Ha & Hg).
  unfold container_activities in Ha.
  destruct (mapM (extract_activity float) (activities c2)) as [raw|e] eqn:Er;
    cbn [bind] in Ha; [|discriminate].
  exists raw, acts. repeat split; try assumption.
  - now apply sort_by_time_Ok in Ha.
  - rewrite Hget; [assumption|]. now apply container_date_is_date in H2.
Qed.

Lemma last_group_wins_witness :
  exists raw acts,
    mapM (extract_activity Decimal.float) (activities second_monday_container) = Ok raw
    /\ Sorting.sort_key ltb time_key raw = Ok acts
    /\ Permutation raw acts
    /\ Dict.get String.eqb (strftime_date monday_3_june)
         [("Monday 03 Jun 2024", [mkActivity "09:30" "City" "Home" (-3.20)])]
       = Some acts.
Proof.
  apply (@last_group_wins Decimal.float [] [] []
           first_monday_container second_monday_container monday_3_june).
  - reflexivity.
  - reflexivity.
  - intros c [].
  - vm_compute. reflexivity.
Defined.

(** C10: an origin text that is exactly ["Top Up"] does not contain
    ["Top up"], so the rule does not fire and the destination stays as
    extracted; the weekly and the daily aggregation still count the activity
    as a top-up, because they compare the stored origin with ["Top Up"]. *)
Theorem top_up_label_unnormalized (float : string -> result Q) (n : ActivityNode)
  (rest : list string) (a : Activity) (label : string) (d last_monday : datetime) :
  start_point_element n = "Top Up" :: rest ->
  extract_activity float n = Ok a ->
  strptime_date label = Ok d -> leb last_monday d = true ->
  Str.contains "Top up" (origin_text n) = false
  /\ start_point a = "Top Up"
  /\ end_point a = destination_text n
  /\ calculate_totals [(label, [a])] last_monday = Ok ((0 + fare a)%Q, 0%Q)
  /\ get_daily_totals [(label, [a])] last_monday
     = Ok [(strftime_A d, mkDayTotals (0 + fare a) 0)].
Proof.
  intros Hn Ha Hd Hle.
  assert (origin_text n = "Top Up") as Ho by (unfold origin_text; now rewrite Hn).
  rewrite extract_activity_eq, Ho in Ha.
  destruct (match amount_text n with Some s => float s | None => Ok 0%Q end) as [q|e];
    cbn [bind] in Ha; [|discriminate].
  change (Str.contains "Top up" "Top Up") with false in Ha.
  injection Ha as <-. cbn [start_point end_point fare]. rewrite Ho.
  repeat split.
  - unfold calculate_totals. cbn [foldM]. unfold calculate_totals_item.
    cbn [fst snd]. rewrite Hd. cbn [bind]. rewrite Hle. reflexivity.
  - unfold get_daily_totals. cbn [foldM].
    rewrite (@get_daily_totals_item_Ok last_monday [] label _ d Hd), Hle.
    reflexivity.
Qed.

Lemma top_up_label_unnormalized_witness :
  calculate_totals
    [("Monday 03 Jun 2024", [mkActivity "07:00" "Top Up" "Kiosk" 20.00])]
    monday_3_june = Ok ((0 + 20.00)%Q, 0%Q)
  /\ get_daily_totals
       [("Monday 03 Jun 2024", [mkActivity "07:00" "Top Up" "Kiosk" 20.00])]
       monday_3_june
     = Ok [("Monday", mkDayTotals (0 + 20.00) 0)].
Proof.
  apply (@top_up_label_unnormalized Decimal.float
           (mkActivityNode ["07:00"] ["Top Up"] ["Kiosk"] ["$20.00"]) []
           (mkActivity "07:00" "Top Up" "Kiosk" 20.00)
           "Monday 03 Jun 2024" monday_3_june monday_3_june
           eq_refl eq_refl eq_refl eq_refl).
Defined.

(** C3: the weekly totals cover exactly the activities of the dates that are
    not before the cutoff; an included activity whose stored origin is
    ["Top Up"] adds its fare to [total_top_up], any other adds its fare,
    sign unchanged, to [total_fare_charged]. *)
Theorem weekly_totals (travel_dict : Ledger) (last_monday : datetime)
  (dates : list datetime) :
  mapM strptime_date (map fst travel_dict) = Ok dates ->
  let dated := combine dates (map snd travel_dict) in
  let included := activities_where (leb last_monday) dated in
  calculate_totals travel_dict last_monday
  = Ok (running_total 0 (top_ups included), running_total 0 (charges included))
  /\ (forall a, In a included <->
                exists d acts, In (d, acts) dated /\ leb last_monday d = true
                               /\ In a acts)
  /\ (forall d acts, In (d, acts) dated -> leb last_monday d = false ->
                     ltb d last_monday = true).
Proof.
  intros Hd dated included. repeat split.
  - now apply calculate_totals_from.
  - unfold included, activities_where. intros Hin. apply in_flat_map in Hin.
    destruct Hin as ([d acts] & He & Ha). apply filter_In in He.
    exists d, acts. tauto.
  - intros (d & acts & He & Hle & Ha). unfold included, activities_where.
    apply in_flat_map. exists (d, acts). split; [|assumption].
    apply filter_In. auto.
  - intros d acts _ Hle. rewrite leb_ltb in Hle. now apply negb_false_iff in Hle.
Qed.

Lemma weekly_totals_witness :
  calculate_totals scenario_B monday_3_june = Ok ((0 + 20.00)%Q, (0 + -4.50)%Q).
Proof.
  apply (@weekly_totals scenario_B monday_3_june [monday_3_june; saturday_1_june]).
  reflexivity.
Defined.

(** C4: over the same dates the daily totals are kept per weekday name; a
    top-up adds its fare as it is to [topup], any other activity adds the
    absolute value of its fare to [fares], while the weekly total of the same
    ledger adds the fares with their sign. *)
Theorem daily_totals (travel_dict : Ledger) (last_monday : datetime)
  (dates : list datetime) :
  mapM strptime_date (map fst travel_dict) = Ok dates ->
  let dated := combine dates (map snd travel_dict) in
  exists daily,
    get_daily_totals travel_dict last_monday = Ok daily
    /\ (forall w,
          let acts := activities_where (on_weekday last_monday w) dated in
          Dict.get String.eqb w daily
          = if existsb (fun e => on_weekday last_monday w (fst e)) dated
            then Some (mkDayTotals (running_total 0 (top_ups acts))
                                   (running_total 0 (abs_charges acts)))
            else None)
    /\ calculate_totals travel_dict last_monday
       = Ok (running_total 0 (top_ups (activities_where (leb last_monday) dated)),
             running_total 0 (charges (activities_where (leb last_monday) dated))).
Proof.
  intros Hd dated.
  destruct (@get_daily_totals_from travel_dict last_monday dates [] Hd)
    as (daily & Hf & Hg).
  exists daily. repeat split.
  - exact Hf.
  - intros w. exact (Hg w).
  - now apply calculate_totals_from.
Qed.

Lemma daily_totals_witness :
  exists daily,
    get_daily_totals scenario_B monday_3_june = Ok daily
    /\ Dict.get String.eqb "Monday" daily
       = Some (mkDayTotals (0 + 20.00) (0 + Qabs (-4.50)))
    /\ Dict.get String.eqb "Saturday" daily = None.
Proof.
  destruct (@daily_totals scenario_B monday_3_june [monday_3_june; saturday_1_june]
              eq_refl) as (daily & Hf & Hg & _).
  exists daily. split; [exact Hf|]. split.
  - exact (Hg "Monday").
  - exact (Hg "Saturday").
Defined.

(** * Further properties of the ledger *)

Module LedgerShape.
Section LedgerShape.
Import Calendar CalendarFacts RoundTrip ProgramFacts ExtractFacts LedgerFacts.

Variable float : string -> result Q.

Lemma container_activities_length (c : DateContainer) (acts : list Activity) :
  container_activities float c = Ok acts ->
  List.length acts = List.length (activities c).
Proof.
  unfold container_activities.
  destruct (mapM (extract_activity float) (activities c)) as [raw|e] eqn:E;
    cbn [bind]; [|discriminate].
  intros H. apply sort_by_time_Ok in H. destruct H as (Hp & _).
  apply mapM_Forall2 in E. apply Forall2_length in E.
  apply Permutation_length in Hp. congruence.
Qed.

Lemma extracted_origin (n : ActivityNode) (a : Activity) :
  extract_activity float n = Ok a ->
  start_point a
  = if Str.contains "Top up" (origin_text n) then "Top Up" else origin_text n.
Proof.
  rewrite extract_activity_eq.
  destruct (match amount_text n with Some s => float s | None => Ok 0%Q end);
    cbn [bind]; [|discriminate].
  intros H. injection H as <-. now destruct (Str.contains _ _).
Qed.

Lemma container_activities_In (c : DateContainer) (acts : list Activity)
  (a : Activity) :
  container_activities float c = Ok acts -> In a acts ->
  exists n, In n (activities c) /\ extract_activity float n = Ok a.
Proof.
  unfold container_activities.
  destruct (mapM (extract_activity float) (activities c)) as [raw|e] eqn:E;
    cbn [bind]; [|discriminate].
  intros H Hin. apply sort_by_time_Ok in H. destruct H as (Hp & _).
  apply mapM_Forall2 in E.
  apply (Permutation_in _ (Permutation_sym Hp)) in Hin.
  destruct (@Forall2_in_r _ _ _ _ _ a E Hin) as (n & Hn & Hna). eauto.
Qed.

End LedgerShape.
End LedgerShape.

Import Calendar CalendarFacts RoundTrip ProgramFacts ExtractFacts LedgerFacts
  AggregatorFacts LedgerShape.

(** X1: the labels of a returned ledger are pairwise distinct, and each is
    the date of some container as ["%A %d %b %Y"] prints it, whatever the
    spelling, spacing or weekday name of the container's own label.  The
    label reads back as that date when the year is 1000 or later; a label
    of an earlier year does not parse, its year being printed with fewer
    than four digits. *)
Theorem ledger_labels_canonical (float : string -> result Q)
  (tree : list DateContainer) (ledger : Ledger) :
  parse_travel_data float tree = Ok ledger ->
  NoDup (map fst ledger)
  /\ forall label,
       In label (map fst ledger) ->
       exists c d,
         In c tree /\ container_date c = Some d
         /\ label = strftime_date d
         /\ (1000 <= year d -> strptime_date label = Ok d)
         /\ (year d < 1000 -> strptime_date label = Raise ValueError).
Proof.
  intros H. apply parse_travel_data_inv in H.
  destruct H as (td & ds & Etd & Eds & Hs & Hall & HF).
  destruct (@Forall2_labels td ds ledger HF) as (Hl & _).
  destruct (@loop_keys float tree [] td Etd) as (Hk & _); [constructor..|].
  pose proof (SortingFacts.sorted_reverse_perm ltb (Dict.keys td)) as Hp.
  rewrite <- Eds in Hp. split.
  - rewrite Hl. apply NoDup_labels; [|assumption].
    now apply (Permutation_NoDup Hp).
  - intros label Hin. rewrite Hl in Hin. apply in_map_iff in Hin.
    destruct Hin as (d & <- & Hd).
    apply (Permutation_in _ (Permutation_sym Hp)) in Hd.
    destruct (@key_has_container float tree td d Etd Hd) as [c Hc].
    apply last_container_In in Hc. destruct Hc as (Hc & Hcd).
    pose proof (@container_date_is_date c d Hcd) as Hdate.
    exists c, d. repeat split; try assumption.
    + intros H4. now apply strptime_strftime.
    + intros H3. now apply strptime_strftime_short.
Qed.

Lemma ledger_labels_canonical_witness :
  NoDup (map fst scenario_B)
  /\ forall label,
       In label (map fst scenario_B) ->
       exists c d,
         In c scenario_A /\ container_date c = Some d
         /\ label = strftime_date d
         /\ (1000 <= year d -> strptime_date label = Ok d)
         /\ (year d < 1000 -> strptime_date label = Raise ValueError).
Proof.
  apply (@ledger_labels_canonical Decimal.float scenario_A scenario_B).
  vm_compute. reflexivity.
Defined.

(** X2: no container with a readable date is lost: its date has an entry in
    the returned ledger, and that entry has exactly as many activities as the
    last container of that date has [li] nodes. *)
Theorem ledger_covers_dates (float : string -> result Q)
  (tree : list DateContainer) (ledger : Ledger) (c : DateContainer) (d : datetime) :
  parse_travel_data float tree = Ok ledger ->
  In c tree -> container_date c = Some d ->
  exists c' acts,
    last_container d tree = Some c'
    /\ Dict.get String.eqb (strftime_date d) ledger = Some acts
    /\ List.length acts = List.length (activities c').
Proof.
  intros H Hc Hd.
  destruct (@ledger_get float tree ledger H) as (td & Etd & Hget).
  pose proof (@loop_get float tree [] td d Etd) as Hl.
  destruct (last_container d tree) as [c'|] eqn:El.
  - destruct Hl as (acts & Ha & Hg). exists c', acts. repeat split.
    + rewrite Hget; [assumption|]. now apply container_date_is_date in Hd.
    + now apply container_activities_length in Ha.
  - exfalso. rewrite last_container_None in El. now apply (El c).
Qed.

Lemma ledger_covers_dates_witness :
  exists c' acts,
    last_container monday_3_june [first_monday_container; second_monday_container]
    = Some c'
    /\ Dict.get String.eqb (strftime_date monday_3_june)
         [("Monday 03 Jun 2024", [mkActivity "09:30" "City" "Home" (-3.20)])]
       = Some acts
    /\ List.length acts = List.length (activities c').
Proof.
  apply (@ledger_covers_dates Decimal.float
           [first_monday_container; second_monday_container] _
           first_monday_container monday_3_june).
  - vm_compute. reflexivity.
  - left. reflexivity.
  - reflexivity.
Defined.

(** X3: no origin stored in a returned ledger contains ["Top up"]: the
    origins that did were all rewritten to ["Top Up"]. *)
Theorem ledger_origins_normalized (float : string -> result Q)
  (tree : list DateContainer) (ledger : Ledger) (label : string)
  (acts : list Activity) (a : Activity) :
  parse_travel_data float tree = Ok ledger ->
  In (label, acts) ledger -> In a acts ->
  Str.contains "Top up" (start_point a) = false.
Proof.
  intros H Hin Ha.
  destruct (@ledger_entry_source float tree ledger label acts H Hin) as (c & Hc & Hacts).
  destruct (@container_activities_In float c acts a Hacts Ha) as (n & Hn & Hna).
  rewrite (@extracted_origin float n a Hna).
  destruct (Str.contains "Top up" (origin_text n)) eqn:E; [reflexivity|exact E].
Qed.

Lemma ledger_origins_normalized_witness :
  Str.contains "Top up" (start_point (mkActivity "07:00" "Top Up" "Opal Travel App" 20.00))
  = false.
Proof.
  apply (@ledger_origins_normalized Decimal.float scenario_A scenario_B
           "Monday 03 Jun 2024"
           [mkActivity "07:00" "Top Up" "Opal Travel App" 20.00;
            mkActivity "08:15" "Home" "City" (-4.50)]).
  - vm_compute. reflexivity.
  - left. reflexivity.
  - left. reflexivity.
Defined.

(** X4: which activities the aggregations count as top-ups, in terms of the
    page: exactly those whose origin text, stripped, contains ["Top up"] or
    is ["Top Up"] itself. *)
Theorem top_up_classification (float : string -> result Q) (n : ActivityNode)
  (a : Activity) :
  extract_activity float n = Ok a ->
  is_top_up a
  = Str.contains "Top up" (origin_text n) || String.eqb (origin_text n) "Top Up".
Proof.
  intros H. unfold is_top_up. rewrite (@extracted_origin float n a H).
  destruct (Str.contains "Top up" (origin_text n)); reflexivity.
Qed.

Lemma top_up_classification_witness :
  is_top_up (mkActivity "08:15" "Home" "City" (-4.50))
  = Str.contains "Top up" "Home" || String.eqb "Home" "Top Up".
Proof.
  apply (@top_up_classification Decimal.float
           (mkActivityNode ["08:15"] ["Home"] ["City"] ["-$4.50"])
           (mkActivity "08:15" "Home" "City" (-4.50)) eq_refl).
Defined.

(** * Further properties of the aggregator *)

Module AggregatorEdge.
Import Calendar CalendarFacts RoundTrip AggregatorFacts.

Lemma calculate_totals_item_Ok (last_monday : datetime) (totals : Q * Q)
  (item : string * list Activity) (d : datetime) :
  strptime_date (fst item) = Ok d ->
  exists totals', calculate_totals_item last_monday totals item = Ok totals'.
Proof.
  intros Hd. unfold calculate_totals_item. rewrite Hd. cbn [bind].
  destruct (leb last_monday d); eauto.
Qed.

Lemma weekly_loop_raises (last_monday : datetime) (ledger : Ledger)
  (totals : Q * Q) (item : string * list Activity) (e : exn) :
  In item ledger -> strptime_date (fst item) = Raise e ->
  foldM (calculate_totals_item last_monday) ledger totals = Raise ValueError.
Proof.
  intros Hin He. revert totals.
  induction ledger as [|x rest IH]; intros totals; [destruct Hin|].
  cbn [foldM].
  destruct (strptime_date (fst x)) as [d|e'] eqn:Ex.
  - destruct (@calculate_totals_item_Ok last_monday totals x d Ex) as [t' ->].
    cbn [bind]. destruct Hin as [->|Hin]; [congruence|]. now apply IH.
  - unfold calculate_totals_item. rewrite Ex. cbn [bind].
    now rewrite (strptime_date_raises _ Ex).
Qed.

Lemma daily_loop_raises (last_monday : datetime) (ledger : Ledger)
  (daily : DailyTotals) (item : string * list Activity) (e : exn) :
  In item ledger -> strptime_date (fst item) = Raise e ->
  foldM (get_daily_totals_item last_monday) ledger daily = Raise ValueError.
Proof.
  intros Hin He. revert daily.
  induction ledger as [|[label acts] rest IH]; intros daily; [destruct Hin|].
  cbn [foldM].
  destruct (strptime_date label) as [d|e'] eqn:Ex.
  - rewrite (@get_daily_totals_item_Ok last_monday daily label acts d Ex).
    cbn [bind]. destruct Hin as [<-|Hin]; [cbn [fst] in He; congruence|].
    now apply IH.
  - unfold get_daily_totals_item. cbn [fst]. rewrite Ex. cbn [bind].
    now rewrite (strptime_date_raises _ Ex).
Qed.

(** A daily loop that returns has read every label. *)
Lemma daily_loop_dates (last_monday : datetime) (ledger : Ledger)
  (daily0 daily : DailyTotals) :
  foldM (get_daily_totals_item last_monday) ledger daily0 = Ok daily ->
  exists dates, mapM strptime_date (map fst ledger) = Ok dates.
Proof.
  revert daily0. induction ledger as [|[label acts] rest IH]; intros daily0;
    cbn [foldM map mapM fst].
  - eauto.
  - destruct (strptime_date label) as [d|e] eqn:Ex.
    + rewrite (@get_daily_totals_item_Ok last_monday daily0 label acts d Ex).
      cbn [bind]. intros H. destruct (IH _ H) as [ds ->]. cbn [bind]. eauto.
    + unfold get_daily_totals_item. cbn [fst]. rewrite Ex. discriminate.
Qed.

Lemma daily_loop_keys (last_monday : datetime) (ledger : Ledger)
  (daily0 daily : DailyTotals) :
  foldM (get_daily_totals_item last_monday) ledger daily0 = Ok daily ->
  NoDup (Dict.keys daily0) -> NoDup (Dict.keys daily).
Proof.
  revert daily0. induction ledger as [|[label acts] rest IH]; intros daily0;
    cbn [foldM].
  - intros H. now injection H as <-.
  - destruct (strptime_date label) as [d|e] eqn:Ex.
    + rewrite (@get_daily_totals_item_Ok last_monday daily0 label acts d Ex).
      cbn [bind]. intros H Hnd. apply (IH _ H).
      destruct (leb last_monday d); [|assumption].
      apply DictFacts.keys_set_NoDup; [apply String.eqb_eq|assumption].
    + unfold get_daily_totals_item. cbn [fst]. rewrite Ex. discriminate.
Qed.

Lemma day_name_In (w : Z) : (0 <= w < 7)%Z -> In (day_name w) weekdays_order.
Proof.
  intros H.
  assert (w = 0 \/ w = 1 \/ w = 2 \/ w = 3 \/ w = 4 \/ w = 5 \/ w = 6)%Z as C by lia.
  destruct C as [->|[->|[->|[->|[->|[->| ->]]]]]]; cbv; tauto.
Qed.

Lemma strftime_A_In (d : datetime) : In (strftime_A d) weekdays_order.
Proof. apply day_name_In, weekday_range. Qed.

Lemma daily_loop_result (ledger : Ledger) (last_monday : datetime)
  (daily : DailyTotals) :
  get_daily_totals ledger last_monday = Ok daily ->
  exists dates,
    mapM strptime_date (map fst ledger) = Ok dates
    /\ forall w,
         Dict.get String.eqb w daily
         = if existsb (fun e => on_weekday last_monday w (fst e))
                (combine dates (map snd ledger))
           then Some (extend (row [] w)
                        (activities_where (on_weekday last_monday w)
                           (combine dates (map snd ledger))))
           else None.
Proof.
  intros H. unfold get_daily_totals in H.
  destruct (@daily_loop_dates last_monday ledger [] daily H) as [dates Hd].
  destruct (@get_daily_totals_from ledger last_monday dates [] Hd)
    as (daily' & Hf & Hg).
  assert (daily' = daily) as -> by congruence.
  exists dates. split; [assumption|]. intros w. exact (Hg w).
Qed.

Lemma daily_keys_weekdays (ledger : Ledger) (last_monday : datetime)
  (daily : DailyTotals) :
  get_daily_totals ledger last_monday = Ok daily ->
  NoDup (Dict.keys daily) /\ incl (Dict.keys daily) weekdays_order.
Proof.
  intros H. split.
  - apply (@daily_loop_keys last_monday ledger [] daily H). constructor.
  - destruct (@daily_loop_result ledger last_monday daily H) as (dates & _ & Hg).
    intros w Hw.
    destruct (Dict.get String.eqb w daily) as [t|] eqn:Et.
    + rewrite Hg in Et.
      destruct (existsb _ _) eqn:Ex; [|discriminate].
      apply existsb_exists in Ex. destruct Ex as ([d acts] & _ & Hon).
      unfold on_weekday in Hon. apply andb_true_iff in Hon.
      destruct Hon as (_ & Hw').
      apply String.eqb_eq in Hw'. cbn [fst] in Hw'. subst w. apply strftime_A_In.
    + apply DictFacts.get_None in Et; [contradiction|apply String.eqb_eq].
Qed.

End AggregatorEdge.

Import Calendar CalendarFacts RoundTrip AggregatorFacts AggregatorEdge.

(** X5: one ledger label that does not parse makes both aggregations raise
    [ValueError], whatever the cutoff and wherever the entry lies: every
    label is parsed before it is compared with the cutoff. *)
Theorem aggregations_raise_on_bad_label (ledger : Ledger) (last_monday : datetime)
  (item : string * list Activity) (e : exn) :
  In item ledger -> strptime_date (fst item) = Raise e ->
  calculate_totals ledger last_monday = Raise ValueError
  /\ get_daily_totals ledger last_monday = Raise ValueError.
Proof.
  intros Hin He. split.
  - now apply weekly_loop_raises with item e.
  - now apply daily_loop_raises with item e.
Qed.

Lemma aggregations_raise_on_bad_label_witness :
  calculate_totals
    [("Monday 03 Jun 2024", []); ("3 June 2024", [])] (mkdatetime 9999 1 1 0 0 0 0)
  = Raise ValueError
  /\ get_daily_totals
       [("Monday 03 Jun 2024", []); ("3 June 2024", [])] (mkdatetime 9999 1 1 0 0 0 0)
     = Raise ValueError.
Proof.
  apply (@aggregations_raise_on_bad_label _ _ ("3 June 2024", []) ValueError).
  - right. left. reflexivity.
  - reflexivity.
Defined.

(** X6: the keys of the daily totals are distinct names out of Monday ...
    Sunday, so there are at most seven rows; a name is a key exactly when
    the date of some ledger entry is not before the cutoff and falls on that
    weekday. *)
Theorem daily_rows_sound (ledger : Ledger) (last_monday : datetime)
  (daily : DailyTotals) :
  get_daily_totals ledger last_monday = Ok daily ->
  NoDup (Dict.keys daily)
  /\ incl (Dict.keys daily) weekdays_order
  /\ (List.length daily <= 7)%nat
  /\ exists dates,
       mapM strptime_date (map fst ledger) = Ok dates
       /\ forall w,
            In w (Dict.keys daily) <->
            exists d, In d dates /\ leb last_monday d = true /\ strftime_A d = w.
Proof.
  intros H.
  destruct (@daily_keys_weekdays ledger last_monday daily H) as (Hnd & Hincl).
  destruct (@daily_loop_result ledger last_monday daily H) as (dates & Hd & Hg).
  repeat split; try assumption.
  - rewrite <- (length_map fst daily).
    change 7%nat with (List.length weekdays_order).
    now apply NoDup_incl_length.
  - exists dates. split; [assumption|]. intros w.
    assert (List.length dates = List.length (map snd ledger)) as Hlen.
    { apply mapM_Forall2 in Hd. apply Forall2_length in Hd.
      rewrite !length_map in *. congruence. }
    specialize (Hg w). split.
    + intros Hw.
      destruct (existsb (fun e => on_weekday last_monday w (fst e))
                  (combine dates (map snd ledger))) eqn:Ex.
      * apply existsb_exists in Ex. destruct Ex as ([d acts] & Hin & Hon).
        cbn [fst] in Hon. unfold on_weekday in Hon.
        apply andb_true_iff in Hon. destruct Hon as (Hle & Hw').
        apply String.eqb_eq in Hw'. apply in_combine_l in Hin. eauto.
      * apply DictFacts.get_None in Hg; [contradiction|apply String.eqb_eq].
    + intros (d & Hin & Hle & Hw').
      destruct (In_nth_error _ _ Hin) as [i Hi].
      assert (exists acts, nth_error (map snd ledger) i = Some acts) as [acts Ha].
      { destruct (nth_error (map snd ledger) i) eqn:E; [eauto|].
        apply nth_error_None in E.
        assert (nth_error dates i <> None) as Hi' by congruence.
        apply nth_error_Some in Hi'. lia. }
      assert (In (d, acts) (combine dates (map snd ledger))) as Hc.
      { apply (nth_error_In _ i). clear -Hi Ha.
        revert i Hi Ha. generalize (map snd ledger) as l.
        induction dates as [|x xs IH]; intros l i Hi Ha; [destruct i; discriminate|].
        destruct l as [|y ys]; [destruct i; discriminate|].
        destruct i as [|i]; cbn in *; [congruence|now apply IH]. }
      assert (existsb (fun e => on_weekday last_monday w (fst e))
                (combine dates (map snd ledger)) = true) as Ex.
      { apply existsb_exists. exists (d, acts). split; [assumption|].
        cbn [fst]. unfold on_weekday. rewrite Hle, Hw'. now rewrite String.eqb_refl. }
      rewrite Ex in Hg. apply DictFacts.get_In in Hg; [|apply String.eqb_eq].
      now apply (in_map fst) in Hg.
Qed.

Lemma daily_rows_sound_witness :
  NoDup (Dict.keys scenario_week_daily)
  /\ incl (Dict.keys scenario_week_daily) weekdays_order
  /\ (List.length scenario_week_daily <= 7)%nat
  /\ exists dates,
       mapM strptime_date (map fst scenario_week) = Ok dates
       /\ forall w,
            In w (Dict.keys scenario_week_daily) <->
            exists d, In d dates /\ leb monday_3_june d = true /\ strftime_A d = w.
Proof.
  apply (@daily_rows_sound scenario_week monday_3_june). reflexivity.
Defined.

(** * The summary table *)

Module SumFacts.

Lemma sumQ_app (l1 l2 : list Q) : (sumQ (l1 ++ l2) == sumQ l1 + sumQ l2)%Q.
Proof.
  induction l1 as [|x l1 IH]; cbn [app sumQ fold_right].
  - now rewrite Qplus_0_l.
  - fold (sumQ (l1 ++ l2)). fold (sumQ l1). rewrite IH. apply Qplus_assoc.
Qed.

Lemma running_total_sumQ (q0 : Q) (fs : list Q) :
  (running_total q0 fs == q0 + sumQ fs)%Q.
Proof.
  revert q0. unfold running_total.
  induction fs as [|f fs IH]; intros q0; cbn [fold_left sumQ fold_right].
  - now rewrite Qplus_0_r.
  - fold (sumQ fs). rewrite IH. symmetry. apply Qplus_assoc.
Qed.

Lemma sumQ_map_ext (A : Type) (f g : A -> Q) (l : list A) :
  (forall x, In x l -> (f x == g x)%Q) -> (sumQ (map f l) == sumQ (map g l))%Q.
Proof.
  induction l as [|x l IH]; intros H; cbn [map sumQ fold_right]; [reflexivity|].
  fold (sumQ (map f l)). fold (sumQ (map g l)).
  rewrite IH by (intros y Hy; apply H; now right).
  rewrite (H x) by now left. reflexivity.
Qed.

End SumFacts.

Module TableFacts.
Section TableFacts.
Import Calendar CalendarFacts AggregatorFacts AggregatorEdge SumFacts.

Variable format_2f : Q -> string.

Local Abbreviation sget := (Dict.get String.eqb).
Local Abbreviation smem := (Dict.mem String.eqb).

Lemma table_loop_from (daily : DailyTotals) (days : list string) (st : TableState) :
  let st' := fold_left (table_day format_2f daily) days st in
  let shown := filter (fun day => smem day daily) days in
  rows st' = (rows st ++ map (day_row format_2f daily) shown)%list
  /\ (total_topup st'
      == total_topup st + sumQ (map (fun day => topup (row daily day)) shown))%Q
  /\ (total_fares st'
      == total_fares st + sumQ (map (fun day => fares (row daily day)) shown))%Q.
Proof.
  revert st. induction days as [|day days IH]; intros st; cbn [fold_left filter].
  - cbn [map sumQ fold_right]. rewrite app_nil_r, !Qplus_0_r. repeat split; reflexivity.
  - specialize (IH (table_day format_2f daily st day)). cbv zeta in IH.
    destruct IH as (IH1 & IH2 & IH3). cbv zeta.
    rewrite IH1, IH2, IH3. clear IH1 IH2 IH3.
    unfold table_day, Dict.mem.
    destruct (sget day daily) as [t|] eqn:Et; [|repeat split; reflexivity].
    assert (row daily day = t) as Hrow by (unfold row; now rewrite Et).
    cbn [rows total_topup total_fares map]. rewrite Hrow.
    change (sumQ (?x :: ?l)) with (x + sumQ l)%Q. cbv beta.
    repeat split.
    + unfold day_row at 2. rewrite Hrow, <- app_assoc. reflexivity.
    + now rewrite Qplus_assoc.
    + now rewrite Qplus_assoc.
Qed.

Lemma table_rows_eq (daily : DailyTotals) :
  let st := table_loop format_2f daily in
  table_rows format_2f daily
  = (map (day_row format_2f daily) (shown_days daily)
     ++ [["Total"; format_2f (total_topup st); format_2f (total_fares st)]])%list
  /\ (total_topup st
      == sumQ (map (fun day => topup (row daily day)) (shown_days daily)))%Q
  /\ (total_fares st
      == sumQ (map (fun day => fares (row daily day)) (shown_days daily)))%Q.
Proof.
  pose proof (@table_loop_from daily weekdays_order (mkTableState [] 0 0)) as H.
  cbv zeta in H. destruct H as (H1 & H2 & H3). cbv zeta.
  unfold table_rows, table_loop, shown_days.
  rewrite H1. cbn [rows total_topup total_fares app] in *.
  repeat split.
  - rewrite H2. apply Qplus_0_l.
  - rewrite H3. apply Qplus_0_l.
Qed.

Lemma NoDup_weekdays : NoDup weekdays_order.
Proof.
  unfold weekdays_order.
  repeat (constructor; [cbn; intuition discriminate|]). constructor.
Qed.

Lemma shown_days_In (daily : DailyTotals) (w : string) :
  In w (shown_days daily) <-> In w weekdays_order /\ In w (Dict.keys daily).
Proof.
  unfold shown_days. rewrite filter_In. unfold Dict.mem.
  destruct (sget w daily) as [t|] eqn:Et.
  - apply DictFacts.get_In in Et; [|apply String.eqb_eq].
    apply (in_map fst) in Et. tauto.
  - apply DictFacts.get_None in Et; [|apply String.eqb_eq].
    split; [intros (_ & H); discriminate|tauto].
Qed.

(** Section: one activity list per weekday against the list of the week. *)
Variable F : list Activity -> list Q.
Hypothesis F_app : forall l1 l2, F (l1 ++ l2) = (F l1 ++ F l2)%list.
Hypothesis F_nil : F [] = [].

Lemma pick_weekday (names : list string) (x : string) (acts : list Activity)
  (g : string -> list Activity) :
  NoDup names ->
  (sumQ (map (fun w => sumQ (F (if String.eqb x w then acts ++ g w else g w)))
           names)
   == (if in_dec string_dec x names then sumQ (F acts) else 0)
      + sumQ (map (fun w => sumQ (F (g w))) names))%Q.
Proof.
  induction 1 as [|w names Hw Hnd IH]; cbn [map sumQ fold_right].
  - destruct (in_dec string_dec x []) as [[]|_]. now rewrite Qplus_0_l.
  - fold (sumQ (map (fun w0 => sumQ (F (if String.eqb x w0 then acts ++ g w0 else g w0)))
                  names)).
    fold (sumQ (map (fun w0 => sumQ (F (g w0))) names)).
    rewrite IH. clear IH.
    destruct (String.eqb x w) eqn:E.
    + apply String.eqb_eq in E. subst w.
      destruct (in_dec string_dec x names) as [Hin|_]; [contradiction|].
      destruct (in_dec string_dec x (x :: names)) as [_|Hn];
        [|exfalso; apply Hn; now left].
      rewrite F_app, sumQ_app. ring.
    + apply String.eqb_neq in E.
      destruct (in_dec string_dec x names) as [Hin|Hn];
        destruct (in_dec string_dec x (w :: names)) as [Hin'|Hn'];
        try ring.
      * exfalso. apply Hn'. now right.
      * exfalso. destruct Hin' as [->|Hin']; [now apply E|contradiction].
Qed.

Lemma weekdays_partition (last_monday : datetime)
  (dated : list (datetime * list Activity)) :
  (sumQ (map (fun w => sumQ (F (activities_where (on_weekday last_monday w) dated)))
           weekdays_order)
   == sumQ (F (activities_where (leb last_monday) dated)))%Q.
Proof.
  induction dated as [|[d acts] dated IH].
  - unfold activities_where. cbn [filter flat_map]. rewrite F_nil. reflexivity.
  - rewrite activities_where_cons.
    rewrite (@sumQ_map_ext _ _
               (fun w => sumQ (F (if leb last_monday d && String.eqb (strftime_A d) w
                                  then acts ++ activities_where (on_weekday last_monday w) dated
                                  else activities_where (on_weekday last_monday w) dated)))).
    2:{ intros w _. rewrite activities_where_cons. reflexivity. }
    destruct (leb last_monday d); cbn [andb].
    + rewrite (@pick_weekday weekdays_order (strftime_A d) acts
                 (fun w => activities_where (on_weekday last_monday w) dated)
                 NoDup_weekdays).
      destruct (in_dec string_dec (strftime_A d) weekdays_order) as [_|Hn];
        [|exfalso; apply Hn; apply strftime_A_In].
      rewrite IH, F_app, sumQ_app. reflexivity.
    + exact IH.
Qed.

End TableFacts.
End TableFacts.

Module TableWeek.
Import Calendar CalendarFacts AggregatorFacts AggregatorEdge SumFacts TableFacts.

Lemma sumQ_filter (A : Type) (h : A -> Q) (p : A -> bool) (l : list A) :
  (forall x, In x l -> p x = false -> (h x == 0)%Q) ->
  (sumQ (map h (filter p l)) == sumQ (map h l))%Q.
Proof.
  induction l as [|x l IH]; intros H; cbn [filter map sumQ fold_right]; [reflexivity|].
  fold (sumQ (map h l)).
  assert (sumQ (map h (filter p l)) == sumQ (map h l))%Q as IH'
      by (apply IH; intros y Hy; apply H; now right).
  destruct (p x) eqn:E.
  - cbn [map sumQ fold_right]. fold (sumQ (map h (filter p l))). now rewrite IH'.
  - rewrite IH', (H x) by (auto; now left). now rewrite Qplus_0_l.
Qed.

Lemma row_amounts (ledger : Ledger) (last_monday : datetime) (daily : DailyTotals)
  (dates : list datetime) (w : string) :
  (forall w,
     Dict.get String.eqb w daily
     = if existsb (fun e => on_weekday last_monday w (fst e))
            (combine dates (map snd ledger))
       then Some (extend (row [] w)
                    (activities_where (on_weekday last_monday w)
                       (combine dates (map snd ledger))))
       else None) ->
  let acts := activities_where (on_weekday last_monday w)
                (combine dates (map snd ledger)) in
  (topup (row daily w) == sumQ (top_ups acts))%Q
  /\ (fares (row daily w) == sumQ (abs_charges acts))%Q.
Proof.
  intros Hg acts. unfold row at 1 2. rewrite Hg.
  destruct (existsb _ _) eqn:Ex.
  - cbn [extend topup fares row Dict.get]. fold acts.
    rewrite !running_total_sumQ. split; apply Qplus_0_l.
  - unfold acts. rewrite (@activities_where_none _ _ Ex). split; reflexivity.
Qed.

Lemma abs_charges_neg (acts : list Activity) :
  (forall a, In a acts -> is_top_up a = false -> (fare a <= 0)%Q) ->
  (sumQ (abs_charges acts) == - sumQ (charges acts))%Q.
Proof.
  unfold abs_charges, charges.
  induction acts as [|a acts IH]; intros H; cbn [filter map sumQ fold_right].
  - reflexivity.
  - assert (sumQ (map (fun a0 => Qabs (fare a0))
                    (filter (fun a0 => negb (is_top_up a0)) acts))
            == - sumQ (map fare (filter (fun a0 => negb (is_top_up a0)) acts)))%Q
      as IH' by (apply IH; intros b Hb; apply H; now right).
    destruct (is_top_up a) eqn:E; cbn [negb]; [exact IH'|].
    cbn [map sumQ fold_right].
    fold (sumQ (map (fun a0 => Qabs (fare a0))
                  (filter (fun a0 => negb (is_top_up a0)) acts))).
    fold (sumQ (map fare (filter (fun a0 => negb (is_top_up a0)) acts))).
    rewrite IH', (Qabs_neg (fare a)) by (apply H; [now left|assumption]).
    ring.
Qed.

Lemma included_In (ledger : Ledger) (dates : list datetime) (keep : datetime -> bool)
  (a : Activity) :
  In a (activities_where keep (combine dates (map snd ledger))) ->
  exists label acts, In (label, acts) ledger /\ In a acts.
Proof.
  unfold activities_where. intros H. apply in_flat_map in H.
  destruct H as ([d acts] & He & Ha). apply filter_In in He. destruct He as (He & _).
  apply in_combine_r in He. apply in_map_iff in He.
  destruct He as ([label acts'] & E & Hin). cbn [snd] in E. subst acts'. eauto.
Qed.

(** The totals of the table against the totals of the week. *)
Lemma table_totals_week (format_2f : Q -> string) (ledger : Ledger)
  (last_monday : datetime) (daily : DailyTotals) (dates : list datetime) :
  get_daily_totals ledger last_monday = Ok daily ->
  mapM strptime_date (map fst ledger) = Ok dates ->
  let st := table_loop format_2f daily in
  let inc := activities_where (leb last_monday) (combine dates (map snd ledger)) in
  (total_topup st == sumQ (top_ups inc))%Q
  /\ (total_fares st == sumQ (abs_charges inc))%Q.
Proof.
  intros H Hd st inc.
  destruct (@daily_loop_result ledger last_monday daily H) as (dates' & Hd' & Hg).
  assert (dates' = dates) as -> by congruence.
  destruct (@table_rows_eq format_2f daily) as (_ & Ht & Hf). fold st in Ht, Hf.
  assert (forall w, Dict.mem String.eqb w daily = false ->
                    row daily w = mkDayTotals 0 0) as Hrow.
  { intros w Hw. unfold Dict.mem in Hw. unfold row.
    now destruct (Dict.get String.eqb w daily). }
  split.
  - rewrite Ht. unfold shown_days.
    rewrite sumQ_filter by (intros w _ Hw; now rewrite (Hrow w Hw)).
    rewrite (@sumQ_map_ext _ _
               (fun w => sumQ (top_ups (activities_where (on_weekday last_monday w)
                                          (combine dates (map snd ledger)))))).
    + apply weekdays_partition; [apply top_ups_app|reflexivity].
    + intros w _. now apply (@row_amounts ledger last_monday daily dates w Hg).
  - rewrite Hf. unfold shown_days.
    rewrite sumQ_filter by (intros w _ Hw; now rewrite (Hrow w Hw)).
    rewrite (@sumQ_map_ext _ _
               (fun w => sumQ (abs_charges (activities_where (on_weekday last_monday w)
                                              (combine dates (map snd ledger)))))).
    + apply weekdays_partition; [apply abs_charges_app|reflexivity].
    + intros w _. now apply (@row_amounts ledger last_monday daily dates w Hg).
Qed.

End TableWeek.

Import Calendar CalendarFacts AggregatorFacts AggregatorEdge SumFacts TableFacts
  TableWeek.

(** X7: the table has one row for each of Monday ... Sunday that has an
    entry in the daily totals, in that order whatever the order of the
    entries, and keys that are not one of these names are left out; the last
    row is ["Total"] with the sums of the two columns shown. *)
Theorem table_rows_in_calendar_order (format_2f : Q -> string)
  (tabulate : list (list string) -> list string -> string) (daily : DailyTotals) :
  exists total_topup total_fares : Q,
    build_table_string format_2f tabulate daily
    = tabulate
        (map (day_row format_2f daily) (shown_days daily)
         ++ [["Total"; format_2f total_topup; format_2f total_fares]])%list
        ["Weekday"; "Top Up"; "Fares"]
    /\ (total_topup == sumQ (map (fun day => topup (row daily day)) (shown_days daily)))%Q
    /\ (total_fares == sumQ (map (fun day => fares (row daily day)) (shown_days daily)))%Q
    /\ shown_days daily
       = filter (fun day => Dict.mem String.eqb day daily)
           ["Monday"; "Tuesday"; "Wednesday"; "Thursday"; "Friday"; "Saturday"; "Sunday"].
Proof.
  destruct (@table_rows_eq format_2f daily) as (Hr & Ht & Hf).
  exists (total_topup (table_loop format_2f daily)),
         (total_fares (table_loop format_2f daily)).
  unfold build_table_string. rewrite Hr. repeat split; assumption.
Qed.

(** X8: every weekday of the daily totals that [get_daily_totals] returns
    has its row in the table: the rows' weekdays are the keys of the daily
    totals rearranged into calendar order. *)
Theorem table_shows_every_weekday (ledger : Ledger) (last_monday : datetime)
  (daily : DailyTotals) :
  get_daily_totals ledger last_monday = Ok daily ->
  Permutation (Dict.keys daily) (shown_days daily)
  /\ forall format_2f,
       map (hd "") (table_rows format_2f daily) = (shown_days daily ++ ["Total"])%list.
Proof.
  intros H. destruct (@daily_keys_weekdays ledger last_monday daily H) as (Hnd & Hincl).
  split.
  - apply NoDup_Permutation; [assumption| |].
    + unfold shown_days. apply NoDup_filter, NoDup_weekdays.
    + intros w. rewrite shown_days_In. split; [|tauto].
      intros Hw. split; [now apply Hincl|assumption].
  - intros format_2f. destruct (@table_rows_eq format_2f daily) as (-> & _ & _).
    rewrite map_app, map_map. cbn [map hd day_row]. now rewrite map_id.
Qed.

Lemma table_shows_every_weekday_witness :
  Permutation
    (Dict.keys [("Monday", mkDayTotals (0 + 20.00) (0 + Qabs (-4.50)))])
    (shown_days [("Monday", mkDayTotals (0 + 20.00) (0 + Qabs (-4.50)))]).
Proof.
  apply (@table_shows_every_weekday scenario_B monday_3_june). reflexivity.
Defined.

(** X9: as exact amounts, the ["Total"] row of the table built from
    [get_daily_totals] agrees with [calculate_totals] on the same ledger and
    cutoff: its top-up total is [total_top_up], and when no fare of the ledger
    is positive its fares total is [- total_fare_charged]. *)
Theorem table_total_matches_week (format_2f : Q -> string) (ledger : Ledger)
  (last_monday : datetime) (daily : DailyTotals) (total_top_up total_fare_charged : Q) :
  get_daily_totals ledger last_monday = Ok daily ->
  calculate_totals ledger last_monday = Ok (total_top_up, total_fare_charged) ->
  (total_topup (table_loop format_2f daily) == total_top_up)%Q
  /\ ((forall label acts a,
         In (label, acts) ledger -> In a acts -> is_top_up a = false ->
         (fare a <= 0)%Q) ->
      (total_fares (table_loop format_2f daily) == - total_fare_charged)%Q).
Proof.
  intros Hd Hc.
  destruct (@daily_loop_result ledger last_monday daily Hd) as (dates & Hdates & _).
  destruct (@table_totals_week format_2f ledger last_monday daily dates Hd Hdates)
    as (Ht & Hf).
  unfold calculate_totals in Hc.
  rewrite (@calculate_totals_from ledger last_monday dates 0%Q 0%Q Hdates) in Hc.
  injection Hc as <- <-. split.
  - rewrite Ht, running_total_sumQ. now rewrite Qplus_0_l.
  - intros Hneg. rewrite Hf, running_total_sumQ, Qplus_0_l.
    apply abs_charges_neg. intros a Ha Hnt.
    destruct (@included_In ledger dates _ a Ha) as (label & acts & Hin & Hin').
    now apply (Hneg label acts a).
Qed.

Lemma table_total_matches_week_witness :
  (total_topup (table_loop (fun _ => "") [("Monday", mkDayTotals (0 + 20.00) (0 + Qabs (-4.50)))])
   == 0 + 20.00)%Q.
Proof.
  apply (@table_total_matches_week (fun _ => "") scenario_B monday_3_june
           _ (0 + 20.00)%Q (0 + -4.50)%Q); reflexivity.
Defined.

(** * The balance in the card's label *)

Module BalanceFacts.
Import Str Balance.

Lemma all_chars_cons (p : ascii -> bool) (a : ascii) (s : string) :
  all_chars p (String a s) = p a && all_chars p s.
Proof. reflexivity. Qed.

Lemma all_chars_app (p : ascii -> bool) (s1 s2 : string) :
  all_chars p (s1 ++ s2) = all_chars p s1 && all_chars p s2.
Proof.
  induction s1 as [|a s1 IH]; [reflexivity|].
  cbn [append]. rewrite !all_chars_cons, IH. apply andb_assoc.
Qed.

Lemma lacks_letter_all (c : ascii) (s : string) :
  lacks_letter c s = all_chars (fun a => negb (Ascii.eqb (lower a) c)) s.
Proof. reflexivity. Qed.

Lemma take_amount_app (amt rest : string) :
  all_chars amount_char amt = true -> amount_ends rest = true ->
  take_amount (amt ++ rest) = amt.
Proof.
  intros Ha Hr. induction amt as [|a amt IH]; cbn [append take_amount].
  - destruct rest as [|c rest]; [reflexivity|].
    cbn [amount_ends] in Hr. apply negb_true_iff in Hr. cbn [take_amount].
    now rewrite Hr.
  - rewrite all_chars_cons in Ha. apply andb_true_iff in Ha.
    destruct Ha as (-> & Ha). now rewrite IH.
Qed.

Lemma lstrip_spaces (ws : string) (c : ascii) (rest : string) :
  all_chars isspace ws = true -> isspace c = false ->
  lstrip (ws ++ String c rest) = String c rest.
Proof.
  intros Hw Hc. induction ws as [|a ws IH]; cbn [append lstrip].
  - now rewrite Hc.
  - rewrite all_chars_cons in Hw. apply andb_true_iff in Hw.
    destruct Hw as (-> & Hw). now apply IH.
Qed.

Lemma strip_prefix_ci_word (keyword w r : string) :
  same_word keyword w = true -> strip_prefix_ci keyword (w ++ r) = Some r.
Proof.
  unfold same_word. revert w.
  induction keyword as [|k keyword IH]; intros w; cbn [strip_prefix_ci].
  - destruct w; [reflexivity|discriminate].
  - destruct w as [|a w]; [discriminate|]. cbn [append].
    destruct (Ascii.eqb (lower k) (lower a)); [apply IH|discriminate].
Qed.

(** The pattern at the head of a label part of the expected shape. *)
Lemma match_at_amount (keyword w ws amt rest : string) :
  same_word keyword w = true -> all_chars isspace ws = true ->
  all_chars amount_char amt = true -> amt <> EmptyString ->
  amount_ends rest = true ->
  match_at keyword (w ++ ws ++ "$" ++ amt ++ rest) = Some amt.
Proof.
  intros Hw Hs Ha Hne Hr. unfold match_at.
  rewrite strip_prefix_ci_word by assumption.
  cbn [append]. rewrite lstrip_spaces by (assumption || reflexivity).
  cbn [Ascii.eqb Bool.eqb]. rewrite take_amount_app by assumption.
  destruct amt; [contradiction|reflexivity].
Qed.

(** No match begins at a character that is not the keyword's first
    letter. *)
Lemma search_skip (k : ascii) (keyword pre s : string) :
  lacks_letter (lower k) pre = true ->
  search (String k keyword) (pre ++ s) = search (String k keyword) s.
Proof.
  intros H. induction pre as [|a pre IH]; [reflexivity|].
  rewrite lacks_letter_all, all_chars_cons in H. apply andb_true_iff in H.
  destruct H as (Ha & H). apply negb_true_iff in Ha.
  cbn [append]. cbn [search]. unfold match_at at 1. cbn [strip_prefix_ci].
  rewrite Ascii.eqb_sym, Ha. now apply IH.
Qed.

Lemma strip_prefix_ci_all (p : ascii -> bool) (keyword s r : string) :
  all_chars p s = true -> strip_prefix_ci keyword s = Some r ->
  all_chars p r = true.
Proof.
  revert s. induction keyword as [|k keyword IH]; intros s Hs; cbn [strip_prefix_ci].
  - intros H. now injection H as <-.
  - destruct s as [|a s]; [discriminate|].
    rewrite all_chars_cons in Hs. apply andb_true_iff in Hs. destruct Hs as (_ & Hs).
    destruct (Ascii.eqb (lower k) (lower a)); [now apply IH|discriminate].
Qed.

Lemma lstrip_all (p : ascii -> bool) (s : string) :
  all_chars p s = true -> all_chars p (lstrip s) = true.
Proof.
  induction s as [|a s IH]; [reflexivity|]. intros Hs. cbn [lstrip].
  destruct (isspace a); [|assumption].
  rewrite all_chars_cons in Hs. apply andb_true_iff in Hs. now apply IH.
Qed.

Lemma search_no_dollar (keyword s : string) :
  all_chars (fun c => negb (Ascii.eqb c "$")) s = true ->
  search keyword s = None.
Proof.
  intros H. induction s as [|a s IH].
  - cbn [search]. unfold match_at.
    destruct (strip_prefix_ci keyword "") as [r|] eqn:E; [|reflexivity].
    pose proof (@strip_prefix_ci_all _ keyword "" r H E) as Hr.
    apply lstrip_all in Hr. destruct (lstrip r) as [|c r']; [reflexivity|].
    rewrite all_chars_cons in Hr. apply andb_true_iff in Hr.
    destruct Hr as (Hc & _). apply negb_true_iff in Hc. now rewrite Hc.
  - cbn [search].
    assert (match_at keyword (String a s) = None) as ->.
    { unfold match_at.
      destruct (strip_prefix_ci keyword (String a s)) as [r|] eqn:E; [|reflexivity].
      pose proof (@strip_prefix_ci_all _ keyword (String a s) r H E) as Hr.
      apply lstrip_all in Hr. destruct (lstrip r) as [|c r']; [reflexivity|].
      rewrite all_chars_cons in Hr. apply andb_true_iff in Hr.
      destruct Hr as (Hc & _). apply negb_true_iff in Hc. now rewrite Hc. }
    apply IH. rewrite all_chars_cons in H. now apply andb_true_iff in H.
Qed.

Lemma search_head (keyword s g : string) :
  match_at keyword s = Some g -> search keyword s = Some g.
Proof. intros H. destruct s; cbn [search]; now rewrite H. Qed.

Lemma lower_fixed_lacks (p : ascii -> bool) (c : ascii) (s : string) :
  (forall a, p a = true -> lower a = a) -> p c = false ->
  all_chars p s = true -> lacks_letter c s = true.
Proof.
  intros Hp Hc. rewrite lacks_letter_all.
  induction s as [|a s IH]; [reflexivity|].
  rewrite !all_chars_cons. intros H. apply andb_true_iff in H.
  destruct H as (Ha & H). rewrite (IH H), andb_true_r.
  apply negb_true_iff. rewrite (Hp a Ha).
  destruct (Ascii.eqb a c) eqn:E; [|reflexivity].
  apply Ascii.eqb_eq in E. congruence.
Qed.

Lemma isspace_lower (a : ascii) : isspace a = true -> lower a = a.
Proof.
  destruct a as [[] [] [] [] [] [] [] []]; intros H;
    first [reflexivity | discriminate H].
Qed.

Lemma amount_char_lower (a : ascii) : amount_char a = true -> lower a = a.
Proof.
  destruct a as [[] [] [] [] [] [] [] []]; intros H;
    first [reflexivity | discriminate H].
Qed.

Lemma same_word_lacks (c : ascii) (keyword w : string) :
  lacks_letter c keyword = true -> same_word keyword w = true ->
  lacks_letter c w = true.
Proof.
  unfold same_word. rewrite !lacks_letter_all. revert w.
  induction keyword as [|k keyword IH]; intros w Hk; cbn [strip_prefix_ci].
  - destruct w; [reflexivity|discriminate].
  - destruct w as [|a w]; [discriminate|].
    rewrite all_chars_cons in Hk. apply andb_true_iff in Hk. destruct Hk as (Hk & Hk').
    destruct (Ascii.eqb (lower k) (lower a)) eqn:E; [|discriminate].
    apply Ascii.eqb_eq in E. intros Hw.
    rewrite all_chars_cons, <- E, Hk. now apply IH.
Qed.

Lemma amount_ends_app (s r : string) :
  s <> EmptyString -> amount_ends (s ++ r) = amount_ends s.
Proof. destruct s; [contradiction|reflexivity]. Qed.

Lemma same_word_nonempty (k : ascii) (keyword w : string) :
  same_word (String k keyword) w = true -> w <> EmptyString.
Proof. intros H ->. discriminate. Qed.

Lemma same_word_amount_ends (c : ascii) (keyword w r : string) :
  amount_char c = false -> lower c = c ->
  same_word (String c keyword) w = true -> amount_ends (w ++ r) = true.
Proof.
  intros Hc Hl. unfold same_word. cbn [strip_prefix_ci].
  destruct w as [|a w]; [discriminate|]. rewrite Hl.
  destruct (Ascii.eqb c (lower a)) eqn:E; [|discriminate].
  apply Ascii.eqb_eq in E. intros _. cbn [append amount_ends].
  apply negb_true_iff. destruct (amount_char a) eqn:Ea; [|reflexivity].
  rewrite (amount_char_lower _ Ea) in E. congruence.
Qed.

Lemma append_assoc (s1 s2 s3 : string) : (s1 ++ s2) ++ s3 = s1 ++ s2 ++ s3.
Proof. induction s1 as [|a s1 IH]; cbn [append]; [reflexivity|]. now rewrite IH. Qed.

Lemma append_length (s1 s2 : string) :
  String.length (s1 ++ s2) = (String.length s1 + String.length s2)%nat.
Proof. induction s1 as [|a s1 IH]; cbn [append String.length]; [reflexivity|]. now rewrite IH. Qed.

(** After a word that is longer than the keyword, free of dollar signs
    and ending in a visible character, the pattern cannot have matched. *)
Lemma lstrip_visible (z tail : string) :
  no_dollar z = true -> ends_nospace z = true ->
  exists c r, lstrip (z ++ tail) = String c r /\ Ascii.eqb c "$" = false.
Proof.
  unfold no_dollar. induction z as [|a z IH]; [discriminate|].
  rewrite all_chars_cons. intros Hd He. apply andb_true_iff in Hd.
  destruct Hd as (Ha & Hd). apply negb_true_iff in Ha.
  cbn [append lstrip]. destruct (isspace a) eqn:Es; [|eauto].
  destruct z as [|b z].
  - cbn [ends_nospace] in He. rewrite Es in He. discriminate.
  - apply IH; assumption.
Qed.

Lemma strip_prefix_ci_inside (keyword z tail r : string) :
  (String.length keyword < String.length z)%nat ->
  no_dollar z = true -> ends_nospace z = true ->
  strip_prefix_ci keyword (z ++ tail) = Some r ->
  exists z', r = z' ++ tail /\ no_dollar z' = true /\ ends_nospace z' = true.
Proof.
  unfold no_dollar. revert z.
  induction keyword as [|k keyword IH]; intros z Hlen Hd He; cbn [strip_prefix_ci].
  - intros H. injection H as <-. eauto.
  - destruct z as [|a z]; [cbn in Hlen; lia|]. cbn [append].
    destruct (Ascii.eqb (lower k) (lower a)); [|discriminate].
    cbn [String.length] in Hlen. rewrite all_chars_cons in Hd.
    apply andb_true_iff in Hd. destruct Hd as (_ & Hd).
    apply IH; [lia|assumption|].
    destruct z as [|b z]; [cbn in Hlen; lia|exact He].
Qed.

Lemma no_match_inside (keyword z tail : string) :
  (String.length keyword < String.length z)%nat ->
  no_dollar z = true -> ends_nospace z = true ->
  match_at keyword (z ++ tail) = None.
Proof.
  intros Hlen Hd He. unfold match_at.
  destruct (strip_prefix_ci keyword (z ++ tail)) as [r|] eqn:E; [|reflexivity].
  destruct (@strip_prefix_ci_inside keyword z tail r Hlen Hd He E)
    as (z' & -> & Hd' & He').
  destruct (@lstrip_visible z' tail Hd' He') as (c & r' & -> & ->). reflexivity.
Qed.

Lemma ends_nospace_app (u w : string) :
  w <> EmptyString -> ends_nospace (u ++ w) = ends_nospace w.
Proof.
  intros Hw. induction u as [|a u IH]; [reflexivity|].
  cbn [append]. destruct (u ++ w) eqn:E.
  - destruct u; [cbn in E; contradiction|discriminate].
  - cbn [ends_nospace]. exact IH.
Qed.

(** Nothing matches before a word as long as the keyword when no dollar
    sign comes before that word. *)
Lemma search_skip_to_word (keyword u w tail : string) :
  (String.length keyword <= String.length w)%nat ->
  no_dollar u = true -> no_dollar w = true -> ends_nospace w = true ->
  search keyword (u ++ w ++ tail) = search keyword (w ++ tail).
Proof.
  intros Hlen Hu Hw He. assert (w <> EmptyString) as Hne by (intros ->; discriminate).
  induction u as [|a u IH]; [reflexivity|].
  cbn [append search].
  change (String a (u ++ w ++ tail)) with (String a u ++ w ++ tail).
  rewrite <- append_assoc, no_match_inside.
  - apply IH. unfold no_dollar in *. rewrite all_chars_cons in Hu.
    now apply andb_true_iff in Hu.
  - rewrite append_length. cbn [String.length]. lia.
  - unfold no_dollar in *. rewrite all_chars_app. now rewrite Hu, Hw.
  - now rewrite ends_nospace_app.
Qed.

Lemma same_word_transfer (q : ascii -> bool) (keyword w : string) :
  same_word keyword w = true ->
  all_chars (fun k => q (lower k)) keyword = true ->
  all_chars (fun a => q (lower a)) w = true
  /\ String.length w = String.length keyword.
Proof.
  unfold same_word. revert w.
  induction keyword as [|k keyword IH]; intros w; cbn [strip_prefix_ci].
  - destruct w; [auto|discriminate].
  - destruct w as [|a w]; [discriminate|].
    destruct (Ascii.eqb (lower k) (lower a)) eqn:E; [|discriminate].
    apply Ascii.eqb_eq in E. intros Hw. rewrite !all_chars_cons.
    intros Hk. apply andb_true_iff in Hk. destruct Hk as (Hk & Hk').
    destruct (IH w Hw Hk') as (H1 & H2). cbn [String.length].
    rewrite <- E, Hk, H1, H2. auto.
Qed.

Lemma lower_dollar (a : ascii) :
  negb (Ascii.eqb (lower a) "$") = true -> negb (Ascii.eqb a "$") = true.
Proof.
  destruct a as [[] [] [] [] [] [] [] []]; intros H;
    first [reflexivity | discriminate H].
Qed.

Lemma lower_visible (a : ascii) :
  negb (isspace (lower a)) = true -> isspace a = false.
Proof.
  destruct a as [[] [] [] [] [] [] [] []]; intros H;
    first [reflexivity | discriminate H].
Qed.

Lemma all_chars_impl (p q : ascii -> bool) (s : string) :
  (forall a, p a = true -> q a = true) ->
  all_chars p s = true -> all_chars q s = true.
Proof.
  intros Hpq. induction s as [|a s IH]; [reflexivity|].
  rewrite !all_chars_cons. intros H. apply andb_true_iff in H.
  destruct H as (Ha & H). now rewrite (Hpq a Ha), IH.
Qed.

Lemma visible_ends (s : string) :
  s <> EmptyString -> all_chars (fun a => negb (isspace a)) s = true ->
  ends_nospace s = true.
Proof.
  induction s as [|a s IH]; [contradiction|]. intros _.
  rewrite all_chars_cons. intros H. apply andb_true_iff in H. destruct H as (Ha & H).
  destruct s as [|b s]; [exact Ha|]. apply IH; [discriminate|assumption].
Qed.

(** What a word spelled like ["balance"] or ["pending"] gives the
    lemmas above. *)
Lemma keyword_word (keyword w : string) :
  same_word keyword w = true ->
  keyword <> EmptyString ->
  all_chars (fun k => negb (Ascii.eqb (lower k) "$")) keyword = true ->
  all_chars (fun k => negb (isspace (lower k))) keyword = true ->
  String.length w = String.length keyword
  /\ no_dollar w = true /\ ends_nospace w = true.
Proof.
  intros Hw Hne Hd Hv.
  destruct (@same_word_transfer (fun c => negb (Ascii.eqb c "$")) keyword w Hw Hd)
    as (H1 & Hlen).
  destruct (@same_word_transfer (fun c => negb (isspace c)) keyword w Hw Hv)
    as (H2 & _).
  repeat split; [assumption| |].
  - unfold no_dollar. apply all_chars_impl with (2 := H1). apply lower_dollar.
  - apply visible_ends.
    + intros ->. destruct keyword; [contradiction|discriminate].
    + apply all_chars_impl with (2 := H2). intros a Ha.
      apply negb_true_iff. now apply lower_visible.
Qed.

End BalanceFacts.

Module BalanceLabel.
Section BalanceLabel.
Import Str Balance BalanceFacts.

Variables pre wb ws1 b : string.

Hypothesis pre_no_dollar : no_dollar pre = true.
Hypothesis wb_word : same_word "balance" wb = true.
Hypothesis ws1_spaces : all_chars isspace ws1 = true.
Hypothesis b_amount : all_chars amount_char b = true.
Hypothesis b_nonempty : b <> EmptyString.

Lemma wb_facts :
  String.length wb = 7%nat /\ no_dollar wb = true /\ ends_nospace wb = true.
Proof. apply (@keyword_word "balance" wb wb_word); [discriminate|reflexivity..]. Qed.

Lemma search_balance (tail : string) :
  amount_ends tail = true ->
  search "balance" (pre ++ wb ++ ws1 ++ "$" ++ b ++ tail) = Some b.
Proof.
  intros Ht. destruct wb_facts as (Hl & Hd & He).
  rewrite search_skip_to_word by (assumption || (rewrite Hl; cbn; lia)).
  apply search_head. now apply match_at_amount.
Qed.

(** The search for ["pending"] passes over the balance part. *)
Lemma search_pending_skip (tail : string) :
  search "pending" (pre ++ wb ++ ws1 ++ "$" ++ b ++ tail) = search "pending" tail.
Proof.
  destruct wb_facts as (Hl & Hd & He).
  rewrite search_skip_to_word by (assumption || (rewrite Hl; cbn; lia)).
  replace (wb ++ ws1 ++ "$" ++ b ++ tail) with ((wb ++ ws1 ++ "$" ++ b) ++ tail)
    by (now rewrite !append_assoc).
  apply search_skip. change (lower "p") with "p"%char.
  rewrite lacks_letter_all, !all_chars_app, <- !lacks_letter_all.
  rewrite (@same_word_lacks "p" "balance" wb eq_refl wb_word).
  rewrite (@lower_fixed_lacks isspace "p" ws1 isspace_lower eq_refl ws1_spaces).
  rewrite (@lower_fixed_lacks amount_char "p" b amount_char_lower eq_refl b_amount).
  reflexivity.
Qed.

End BalanceLabel.
End BalanceLabel.

Import Str Balance BalanceFacts BalanceLabel.

(** X10: on a label without a dollar sign [extract_balance_info] returns
    [(0, 0)] and does not call [float]. *)
Theorem extract_balance_info_no_dollar (float : string -> result Q) (text : string) :
  no_dollar text = true -> extract_balance_info float text = Ok (0%Q, 0%Q).
Proof.
  intros H. unfold extract_balance_info.
  now rewrite !search_no_dollar by exact H.
Qed.

Lemma extract_balance_info_no_dollar_witness :
  extract_balance_info Decimal.float "Opal card named Gold" = Ok (0%Q, 0%Q).
Proof. apply extract_balance_info_no_dollar. reflexivity. Defined.

(** X11: on a label of the shape [... balance $B ... pending $P ...], the
    keywords in any case, with no dollar sign before ["balance"] or between
    the balance and ["pending"], the result is [float] of the two amounts,
    an amount being the longest run of digits and dots after the dollar
    sign. *)
Theorem extract_balance_info_label (float : string -> result Q)
  (pre wb ws1 b sep wp ws2 p rest : string) :
  no_dollar pre = true -> same_word "balance" wb = true ->
  all_chars isspace ws1 = true ->
  all_chars amount_char b = true -> b <> EmptyString ->
  amount_ends sep = true -> no_dollar sep = true ->
  same_word "pending" wp = true -> all_chars isspace ws2 = true ->
  all_chars amount_char p = true -> p <> EmptyString ->
  amount_ends rest = true ->
  extract_balance_info float
    (pre ++ wb ++ ws1 ++ "$" ++ b ++ sep ++ wp ++ ws2 ++ "$" ++ p ++ rest)
  = (balance <- float b ;; pending <- float p ;; Ok (balance, pending)).
Proof.
  intros Hpre Hwb Hws1 Hb Hbne Hsep Hsepd Hwp Hws2 Hp Hpne Hrest.
  unfold extract_balance_info.
  rewrite (@search_balance pre wb ws1 b Hpre Hwb Hws1 Hb Hbne).
  - rewrite (@search_pending_skip pre wb ws1 b Hpre Hwb Hws1 Hb).
    destruct (@keyword_word "pending" wp Hwp) as (Hl & Hd & He);
      [discriminate|reflexivity..|].
    rewrite search_skip_to_word by (assumption || (rewrite Hl; cbn; lia)).
    rewrite (@search_head "pending" _ p); [reflexivity|].
    now apply match_at_amount.
  - destruct sep as [|c sep].
    + cbn [append]. now apply (@same_word_amount_ends "p" "ending" wp).
    + exact Hsep.
Qed.

Lemma extract_balance_info_label_witness :
  extract_balance_info Decimal.float
    ("Opal card named Gold, " ++ "Balance" ++ " " ++ "$" ++ "12.50" ++ ", "
     ++ "pending" ++ "  " ++ "$" ++ "5.00" ++ "")
  = (balance <- Decimal.float "12.50" ;; pending <- Decimal.float "5.00" ;;
     Ok (balance, pending)).
Proof.
  apply extract_balance_info_label; (reflexivity || discriminate).
Defined.

(** X12: on a label with a balance and no dollar sign after its amount, the
    pending amount is 0. *)
Theorem extract_balance_info_no_pending (float : string -> result Q)
  (pre wb ws1 b rest : string) :
  no_dollar pre = true -> same_word "balance" wb = true ->
  all_chars isspace ws1 = true ->
  all_chars amount_char b = true -> b <> EmptyString ->
  amount_ends rest = true -> no_dollar rest = true ->
  extract_balance_info float (pre ++ wb ++ ws1 ++ "$" ++ b ++ rest)
  = (balance <- float b ;; Ok (balance, 0%Q)).
Proof.
  intros Hpre Hwb Hws1 Hb Hbne Hrest Hd.
  unfold extract_balance_info.
  rewrite (@search_balance pre wb ws1 b Hpre Hwb Hws1 Hb Hbne rest Hrest).
  rewrite (@search_pending_skip pre wb ws1 b Hpre Hwb Hws1 Hb).
  rewrite (@search_no_dollar "pending" rest Hd).
  destruct (float b); reflexivity.
Qed.

Lemma extract_balance_info_no_pending_witness :
  extract_balance_info Decimal.float ("" ++ "BALANCE" ++ "" ++ "$" ++ "7" ++ " left")
  = (balance <- Decimal.float "7" ;; Ok (balance, 0%Q)).
Proof.
  apply extract_balance_info_no_pending; (reflexivity || discriminate).
Defined.

(** * The Monday of the current week *)

Module WeekFacts.
Import Calendar CalendarFacts RoundTrip Week.

Lemma is_leap_spec (y : Z) :
  is_leap y = true <-> y mod 4 = 0 /\ (y mod 100 <> 0 \/ y mod 400 = 0).
Proof.
  unfold is_leap. rewrite andb_true_iff, orb_true_iff, negb_true_iff.
  rewrite !Z.eqb_eq, Z.eqb_neq. tauto.
Qed.

Lemma days_before_year_step (y : Z) :
  1 <= y ->
  days_before_year (y + 1)
  = days_before_year y + 365 + (if is_leap y then 1 else 0).
Proof.
  intros Hy. unfold days_before_year. cbv zeta.
  replace (y + 1 - 1) with y by lia.
  destruct (is_leap y) eqn:E.
  - apply is_leap_spec in E. Z.div_mod_to_equations. lia.
  - assert (~ (y mod 4 = 0 /\ (y mod 100 <> 0 \/ y mod 400 = 0))) as E'
        by (rewrite <- is_leap_spec; congruence).
    Z.div_mod_to_equations. lia.
Qed.

Lemma days_before_year_mono (y1 y2 : Z) :
  1 <= y1 <= y2 -> days_before_year y1 <= days_before_year y2.
Proof.
  intros (H1 & H2).
  replace y2 with (y1 + Z.of_nat (Z.to_nat (y2 - y1))) by lia.
  induction (Z.to_nat (y2 - y1)) as [|k IH].
  - replace (y1 + Z.of_nat 0) with y1 by lia. lia.
  - replace (y1 + Z.of_nat (S k)) with (y1 + Z.of_nat k + 1) by lia.
    rewrite days_before_year_step by lia.
    destruct (is_leap (y1 + Z.of_nat k)); lia.
Qed.

Lemma zrange_In (n : nat) (r : Z) : 0 <= r < Z.of_nat n -> In r (zrange n).
Proof.
  intros H. unfold zrange. apply in_map_iff. exists (Z.to_nat r). split; [lia|].
  apply in_seq. lia.
Qed.

(** The table look-ups of [ord2ymd] and of [days_before_month], checked
    on every day of a common year and of a leap year. *)
Lemma doy_ok_common : forallb (doy_ok 2023) (zrange 365) = true.
Proof. vm_compute. reflexivity. Qed.

Lemma doy_ok_leap : forallb (doy_ok 2024) (zrange 365) = true.
Proof. vm_compute. reflexivity. Qed.

Lemma months_ok_common :
  forallb (fun m1 => forallb (months_ok 2023 (m1 + 1)) (map (Z.add 1) (zrange 12)))
    (zrange 12) = true.
Proof. vm_compute. reflexivity. Qed.

Lemma months_ok_leap :
  forallb (fun m1 => forallb (months_ok 2024 (m1 + 1)) (map (Z.add 1) (zrange 12)))
    (zrange 12) = true.
Proof. vm_compute. reflexivity. Qed.

(** The month tables depend on the year through [is_leap] only. *)
Lemma doy_ok_leap_only (y y' r : Z) :
  is_leap y = is_leap y' -> doy_ok y r = doy_ok y' r.
Proof.
  intros H. unfold doy_ok, days_in_month, days_before_month. now rewrite H.
Qed.

Lemma months_ok_leap_only (y y' m1 m2 : Z) :
  is_leap y = is_leap y' -> months_ok y m1 m2 = months_ok y' m1 m2.
Proof.
  intros H. unfold months_ok, days_in_month, days_before_month. now rewrite H.
Qed.

Lemma doy_ok_all (y r : Z) : 0 <= r < 365 -> doy_ok y r = true.
Proof.
  intros Hr. pose proof (@zrange_In 365 r ltac:(lia)) as Hin.
  destruct (is_leap y) eqn:E.
  - rewrite (@doy_ok_leap_only y 2024 r) by (rewrite E; reflexivity).
    pose proof doy_ok_leap as H. rewrite forallb_forall in H. now apply H.
  - rewrite (@doy_ok_leap_only y 2023 r) by (rewrite E; reflexivity).
    pose proof doy_ok_common as H. rewrite forallb_forall in H. now apply H.
Qed.

Lemma months_ok_all (y m1 m2 : Z) :
  1 <= m1 <= 12 -> 1 <= m2 <= 12 -> months_ok y m1 m2 = true.
Proof.
  intros H1 H2.
  assert (In (m1 - 1) (zrange 12)) as Hin1 by (apply zrange_In; lia).
  assert (In m2 (map (Z.add 1) (zrange 12))) as Hin2.
  { apply in_map_iff. exists (m2 - 1). split; [lia|]. apply zrange_In. lia. }
  destruct (is_leap y) eqn:E.
  - rewrite (@months_ok_leap_only y 2024 m1 m2) by (rewrite E; reflexivity).
    pose proof months_ok_leap as H. rewrite forallb_forall in H.
    specialize (H _ Hin1). cbv beta in H. rewrite forallb_forall in H.
    replace (m1 - 1 + 1) with m1 in H by lia. now apply H.
  - rewrite (@months_ok_leap_only y 2023 m1 m2) by (rewrite E; reflexivity).
    pose proof months_ok_common as H. rewrite forallb_forall in H.
    specialize (H _ Hin1). cbv beta in H. rewrite forallb_forall in H.
    replace (m1 - 1 + 1) with m1 in H by lia. now apply H.
Qed.

Lemma ord2ymd_eq (n : Z) :
  ord2ymd n
  = let n0 := n - 1 in
    let n400 := n0 / 146097 in
    let r1 := n0 mod 146097 in
    let n100 := r1 / 36524 in
    let r2 := r1 mod 36524 in
    let n4 := r2 / 1461 in
    let r3 := r2 mod 1461 in
    let n1 := r3 / 365 in
    let r4 := r3 mod 365 in
    let year := n400 * 400 + 1 + n100 * 100 + n4 * 4 + n1 in
    if (n1 =? 4) || (n100 =? 4) then (year - 1, 12, 31)
    else
      let '(m, d) :=
        doy_split ((n1 =? 3) && (negb (n4 =? 24) || (n100 =? 3))) r4 in
      (year, m, d).
Proof.
  unfold ord2ymd, doy_split. cbv zeta.
  destruct ((_ =? 4) || (_ =? 4)); [reflexivity|].
  match goal with |- context [if ?c then (_, _, _) else _] => destruct c end;
    reflexivity.
Qed.

(** The year that [ord2ymd] finds, when the day is not the last of a
    four-year or four-century cycle. *)
Lemma ord2ymd_year (n0 n400 r1 n100 r2 n4 r3 n1 r4 : Z) :
  0 <= n0 < MAXORDINAL ->
  n0 = 146097 * n400 + r1 -> 0 <= r1 < 146097 ->
  r1 = 36524 * n100 + r2 -> 0 <= r2 < 36524 ->
  r2 = 1461 * n4 + r3 -> 0 <= r3 < 1461 ->
  r3 = 365 * n1 + r4 -> 0 <= r4 < 365 ->
  n1 <> 4 -> n100 <> 4 ->
  let year := n400 * 400 + 1 + n100 * 100 + n4 * 4 + n1 in
  days_before_year year = n0 - r4
  /\ 1 <= year <= 9999
  /\ is_leap year = (n1 =? 3) && (negb (n4 =? 24) || (n100 =? 3)).
Proof.
  intros H0 E1 B1 E2 B2 E3 B3 E4 B4 N1 N100 year. unfold MAXORDINAL in H0.
  assert (0 <= n400 /\ 0 <= n100 <= 3 /\ 0 <= n4 <= 24 /\ 0 <= n1 <= 3) as Hb by lia.
  assert (year - 1 = 400 * n400 + 100 * n100 + 4 * n4 + n1) as Ey by (unfold year; lia).
  repeat split.
  - unfold days_before_year. cbv zeta. rewrite Ey.
    Z.div_mod_to_equations. lia.
  - unfold year. lia.
  - unfold year. lia.
  - destruct ((n1 =? 3) && (negb (n4 =? 24) || (n100 =? 3))) eqn:E.
    + apply is_leap_spec.
      rewrite andb_true_iff, orb_true_iff, negb_true_iff, !Z.eqb_eq, Z.eqb_neq in E.
      Z.div_mod_to_equations. lia.
    + destruct (is_leap year) eqn:El; [|reflexivity].
      apply is_leap_spec in El.
      apply andb_false_iff in E. rewrite orb_false_iff, negb_false_iff in E.
      rewrite !Z.eqb_neq, Z.eqb_eq in E.
      Z.div_mod_to_equations. lia.
Qed.

Lemma ord2ymd_last_day (n0 n400 r1 n100 r2 n4 r3 n1 r4 : Z) :
  0 <= n0 < MAXORDINAL ->
  n0 = 146097 * n400 + r1 -> 0 <= r1 < 146097 ->
  r1 = 36524 * n100 + r2 -> 0 <= r2 < 36524 ->
  r2 = 1461 * n4 + r3 -> 0 <= r3 < 1461 ->
  r3 = 365 * n1 + r4 -> 0 <= r4 < 365 ->
  n1 = 4 \/ n100 = 4 ->
  let year := n400 * 400 + 1 + n100 * 100 + n4 * 4 + n1 in
  days_before_year (year - 1) = n0 - 365
  /\ 1 <= year - 1 <= 9999
  /\ is_leap (year - 1) = true.
Proof.
  intros H0 E1 B1 E2 B2 E3 B3 E4 B4 Hsp year. unfold MAXORDINAL in H0.
  assert (0 <= n400 /\ 0 <= n100 <= 4 /\ 0 <= n4 <= 24 /\ 0 <= n1 <= 4) as Hb by lia.
  repeat split.
  - unfold days_before_year, year. cbv zeta. Z.div_mod_to_equations. lia.
  - unfold year. lia.
  - unfold year. lia.
  - apply is_leap_spec. unfold year. Z.div_mod_to_equations. lia.
Qed.

(** [ord2ymd] returns a date of the calendar, and the date whose ordinal
    is [n]. *)
Lemma ord2ymd_spec (n y m d : Z) :
  1 <= n <= MAXORDINAL -> ord2ymd n = (y, m, d) ->
  valid_date y m d = true /\ ymd2ord y m d = n.
Proof.
  intros Hn. rewrite ord2ymd_eq. cbv zeta.
  pose proof (Z.div_mod (n - 1) 146097 ltac:(lia)) as E1.
  pose proof (Z.mod_pos_bound (n - 1) 146097 ltac:(lia)) as B1.
  set (n400 := (n - 1) / 146097) in *. set (r1 := (n - 1) mod 146097) in *.
  pose proof (Z.div_mod r1 36524 ltac:(lia)) as E2.
  pose proof (Z.mod_pos_bound r1 36524 ltac:(lia)) as B2.
  set (n100 := r1 / 36524) in *. set (r2 := r1 mod 36524) in *.
  pose proof (Z.div_mod r2 1461 ltac:(lia)) as E3.
  pose proof (Z.mod_pos_bound r2 1461 ltac:(lia)) as B3.
  set (n4 := r2 / 1461) in *. set (r3 := r2 mod 1461) in *.
  pose proof (Z.div_mod r3 365 ltac:(lia)) as E4.
  pose proof (Z.mod_pos_bound r3 365 ltac:(lia)) as B4.
  set (n1 := r3 / 365) in *. set (r4 := r3 mod 365) in *.
  clearbody n400 r1 n100 r2 n4 r3 n1 r4.
  assert (0 <= n - 1 < MAXORDINAL) as H0 by lia.
  destruct ((n1 =? 4) || (n100 =? 4)) eqn:Esp.
  - intros H. injection H as <- <- <-.
    assert (n1 = 4 \/ n100 = 4) as Hsp
        by (apply orb_true_iff in Esp; rewrite !Z.eqb_eq in Esp; exact Esp).
    destruct (@ord2ymd_last_day (n - 1) n400 r1 n100 r2 n4 r3 n1 r4
                H0 E1 B1 E2 B2 E3 B3 E4 B4 Hsp) as (Hd & Hy & Hl).
    cbv zeta in Hd, Hy, Hl.
    assert (r4 = 0) as Hr4 by (unfold MAXORDINAL in *; lia).
    unfold valid_date, ymd2ord.
    change (days_in_month ?y 12) with 31.
    change (days_before_month ?y 12) with (334 + (if is_leap y then 1 else 0)).
    rewrite Hd, Hl. split.
    + repeat (apply andb_true_iff; split); apply Z.leb_le; lia.
    + lia.
  - apply orb_false_iff in Esp. rewrite !Z.eqb_neq in Esp. destruct Esp as (N1 & N100).
    destruct (@ord2ymd_year (n - 1) n400 r1 n100 r2 n4 r3 n1 r4
                H0 E1 B1 E2 B2 E3 B3 E4 B4 N1 N100) as (Hd & Hy & Hl).
    cbv zeta in Hd, Hy, Hl. rewrite <- Hl.
    pose proof (@doy_ok_all (n400 * 400 + 1 + n100 * 100 + n4 * 4 + n1) r4 B4) as Hok.
    unfold doy_ok in Hok.
    destruct (doy_split _ r4) as [m' d'].
    intros H. injection H as <- <- <-.
    rewrite !andb_true_iff, !Z.leb_le, Z.eqb_eq in Hok.
    unfold valid_date, ymd2ord. rewrite Hd. split; [|lia].
    repeat (apply andb_true_iff; split); apply Z.leb_le; lia.
Qed.

Lemma ymd2ord_bounds (y m d : Z) :
  valid_date y m d = true ->
  days_before_year y + 1 <= ymd2ord y m d
  /\ ymd2ord y m d <= days_before_year y + 365 + (if is_leap y then 1 else 0).
Proof.
  unfold valid_date. rewrite !andb_true_iff, !Z.leb_le.
  intros (((((Hy1 & Hy2) & Hm1) & Hm2) & Hd1) & Hd2).
  pose proof (@months_ok_all y m m ltac:(lia) ltac:(lia)) as Hok.
  unfold months_ok in Hok. rewrite !andb_true_iff, !Z.leb_le in Hok.
  destruct Hok as ((_ & H1) & H2). unfold ymd2ord. lia.
Qed.

Lemma toordinal_range (y m d : Z) :
  valid_date y m d = true -> 1 <= ymd2ord y m d <= MAXORDINAL.
Proof.
  intros Hv. destruct (ymd2ord_bounds _ _ _ Hv) as (H1 & H2).
  unfold valid_date in Hv. rewrite !andb_true_iff, !Z.leb_le in Hv.
  destruct Hv as (((((Hy1 & Hy2) & _) & _) & _) & _).
  pose proof (@days_before_year_mono 1 y ltac:(lia)) as Hlo.
  pose proof (@days_before_year_mono (y + 1) 10000 ltac:(lia)) as Hhi.
  rewrite days_before_year_step in Hhi by lia.
  change (days_before_year 1) with 0 in Hlo.
  change (days_before_year 10000) with 3652059 in Hhi.
  unfold MAXORDINAL. lia.
Qed.

(** The ordinal grows with the date. *)
Lemma ymd2ord_lt (y1 m1 d1 y2 m2 d2 : Z) :
  valid_date y1 m1 d1 = true -> valid_date y2 m2 d2 = true ->
  lex [y1; m1; d1] [y2; m2; d2] = Lt ->
  ymd2ord y1 m1 d1 < ymd2ord y2 m2 d2.
Proof.
  intros Hv1 Hv2. cbn [lex].
  destruct (ymd2ord_bounds _ _ _ Hv1) as (L1 & U1).
  destruct (ymd2ord_bounds _ _ _ Hv2) as (L2 & U2).
  unfold valid_date in Hv1, Hv2. rewrite !andb_true_iff, !Z.leb_le in Hv1, Hv2.
  destruct Hv1 as (((((Hy1 & Hy1') & Hm1) & Hm1') & Hd1) & Hd1').
  destruct Hv2 as (((((Hy2 & Hy2') & Hm2) & Hm2') & Hd2) & Hd2').
  destruct (Z.compare_spec y1 y2) as [->|Hy|Hy]; [|intros _|discriminate].
  - destruct (Z.compare_spec m1 m2) as [->|Hm|Hm]; [|intros _|discriminate].
    + destruct (Z.compare_spec d1 d2) as [->|Hd|Hd]; try discriminate.
      intros _. unfold ymd2ord. lia.
    + pose proof (@months_ok_all y2 m1 m2 ltac:(lia) ltac:(lia)) as Hok.
      unfold months_ok in Hok. rewrite !andb_true_iff in Hok.
      destruct Hok as ((Hok & _) & _).
      destruct (m1 <? m2) eqn:E; [|apply Z.ltb_ge in E; lia].
      apply Z.leb_le in Hok. unfold ymd2ord. lia.
  - pose proof (@days_before_year_mono (y1 + 1) y2 ltac:(lia)) as Hmono.
    rewrite days_before_year_step in Hmono by lia. lia.
Qed.

End WeekFacts.

Module WeekOrder.
Import Calendar CalendarFacts RoundTrip Week WeekFacts.

Lemma compare_dates (a b : datetime) :
  is_date a -> is_date b ->
  compare a b = lex [year a; month a; day a] [year b; month b; day b].
Proof.
  intros (_ & Ha1 & Ha2 & Ha3 & Ha4) (_ & Hb1 & Hb2 & Hb3 & Hb4).
  unfold compare, key. rewrite Ha1, Ha2, Ha3, Ha4, Hb1, Hb2, Hb3, Hb4.
  cbn [lex].
  destruct (year a ?= year b); reflexivity.
Qed.

(** On dates, [<=] is [<=] of the ordinals. *)
Lemma leb_toordinal (a b : datetime) :
  is_date a -> is_date b ->
  (leb a b = true <-> toordinal a <= toordinal b).
Proof.
  intros Ha Hb.
  assert (forall x y, is_date x -> is_date y -> compare x y = Lt ->
                      toordinal x < toordinal y) as Hlt.
  { intros x y Hx Hy. rewrite compare_dates by assumption.
    apply ymd2ord_lt; [apply Hx|apply Hy]. }
  unfold leb. destruct (compare a b) eqn:E.
  - unfold compare in E. apply lex_eq, key_inj in E. subst b. split; [lia|reflexivity].
  - split; [|reflexivity]. intros _. specialize (Hlt a b Ha Hb E). lia.
  - split; [discriminate|]. intros Hle.
    assert (compare b a = Lt) as E'
        by (unfold compare in *; rewrite (lex_opp (key a) (key b)), E; reflexivity).
    specialize (Hlt b a Hb Ha E'). lia.
Qed.

Lemma last_monday_value (today : datetime) :
  valid_date (year today) (month today) (day today) = true ->
  exists lm,
    last_monday today = Some lm
    /\ is_date lm
    /\ toordinal lm = toordinal today - weekday today.
Proof.
  intros Hv. pose proof (toordinal_range _ _ _ Hv) as Hr.
  pose proof (weekday_range today) as Hw.
  unfold last_monday, sub_days.
  set (n := toordinal today - weekday today).
  assert (1 <= n <= MAXORDINAL) as Hn.
  { change (ymd2ord (year today) (month today) (day today))
      with (toordinal today) in Hr.
    unfold n, weekday in *. Z.div_mod_to_equations. lia. }
  replace ((0 <? n) && (n <=? MAXORDINAL)) with true
    by (symmetry; apply andb_true_iff; split; [apply Z.ltb_lt|apply Z.leb_le]; lia).
  destruct (ord2ymd n) as [[y m] d] eqn:E.
  destruct (@ord2ymd_spec n y m d Hn E) as (Hv' & Ho).
  eexists. split; [reflexivity|]. split.
  - unfold at_midnight, is_date. cbn. auto.
  - exact Ho.
Qed.

End WeekOrder.

Import Calendar CalendarFacts RoundTrip Week WeekFacts WeekOrder.

(** X13: for every [today], [main]'s [last_monday] exists (the subtraction
    never leaves the range of dates), is a Monday at midnight, and is today's
    date or one of the six days before it. *)
Theorem last_monday_is_monday (today : datetime) :
  valid_date (year today) (month today) (day today) = true ->
  exists lm,
    last_monday today = Some lm
    /\ is_date lm
    /\ weekday lm = 0
    /\ toordinal lm = toordinal today - weekday today
    /\ toordinal today - 6 <= toordinal lm <= toordinal today.
Proof.
  intros Hv. destruct (last_monday_value today Hv) as (lm & Hlm & Hd & Ho).
  pose proof (weekday_range today) as Hw.
  exists lm. split; [assumption|]. split; [assumption|].
  unfold weekday in *. rewrite Ho. repeat split; Z.div_mod_to_equations; lia.
Qed.

Lemma last_monday_is_monday_witness :
  exists lm,
    last_monday (mkdatetime 2026 11 3 17 25 3 99) = Some lm
    /\ is_date lm
    /\ weekday lm = 0
    /\ toordinal lm
       = toordinal (mkdatetime 2026 11 3 17 25 3 99)
         - weekday (mkdatetime 2026 11 3 17 25 3 99)
    /\ toordinal (mkdatetime 2026 11 3 17 25 3 99) - 6 <= toordinal lm
       <= toordinal (mkdatetime 2026 11 3 17 25 3 99).
Proof. apply last_monday_is_monday. reflexivity. Defined.

(** X14: with [main]'s cutoff, a ledger date passes the test
    [date_obj >= last_monday] exactly when it is not before the Monday of
    today's week; today's own date always passes. *)
Theorem last_monday_cutoff (today lm d : datetime) :
  valid_date (year today) (month today) (day today) = true ->
  last_monday today = Some lm -> is_date d ->
  (leb lm d = true <-> toordinal today - weekday today <= toordinal d)
  /\ leb lm (at_midnight today) = true.
Proof.
  intros Hv Hlm Hd.
  destruct (last_monday_value today Hv) as (lm' & Hlm' & Hdl & Ho).
  assert (lm' = lm) as -> by congruence.
  pose proof (weekday_range today) as Hw. split.
  - rewrite leb_toordinal by assumption. now rewrite Ho.
  - apply leb_toordinal; [assumption| |].
    + unfold at_midnight, is_date. cbn. auto.
    + rewrite Ho. change (toordinal (at_midnight today)) with (toordinal today). lia.
Qed.

Lemma last_monday_cutoff_witness :
  (leb (mkdatetime 2026 11 2 0 0 0 0) monday_3_june = true
   <-> toordinal (mkdatetime 2026 11 3 17 25 3 99)
       - weekday (mkdatetime 2026 11 3 17 25 3 99) <= toordinal monday_3_june)
  /\ leb (mkdatetime 2026 11 2 0 0 0 0) (at_midnight (mkdatetime 2026 11 3 17 25 3 99))
     = true.
Proof.
  apply (@last_monday_cutoff (mkdatetime 2026 11 3 17 25 3 99)).
  - reflexivity.
  - reflexivity.
  - unfold is_date. cbn. auto.
Defined.

(** * The top-up amount *)

Lemma topup_needed_Qmax (balance total_fare_charged : Q) :
  (topup_needed balance total_fare_charged
   == Qmax 0 (target_floor - (balance - total_fare_charged)))%Q.
Proof.
  unfold topup_needed.
  destruct (Qltb (target_floor - (balance - total_fare_charged)) 0) eqn:E.
  - apply Qltb_true in E. symmetry. apply Q.max_l. now apply Qlt_le_weak.
  - apply Qltb_false in E. symmetry. now apply Q.max_r.
Qed.

(** X15: the top-up amount does not grow when the balance grows, and does
    not grow when [total_fare_charged] falls: fares being stored as negative
    amounts, a week with more spending asks for a smaller top-up.  It is 0
    exactly when [balance - total_fare_charged] has reached the floor. *)
Theorem topup_needed_monotone :
  (forall b b' f f' : Q,
     (b <= b')%Q -> (f' <= f)%Q -> (topup_needed b' f' <= topup_needed b f)%Q)
  /\ (forall b f : Q,
        (topup_needed b f == 0)%Q <-> (target_floor <= b - f)%Q).
Proof.
  split.
  - intros b b' f f' Hb Hf. rewrite !topup_needed_Qmax.
    apply Q.max_le_compat_l.
    apply Qplus_le_r. apply Qopp_le_compat.
    apply Qplus_le_compat; [assumption|]. now apply Qopp_le_compat.
  - intros b f. rewrite topup_needed_Qmax. split.
    + intros H.
      assert (target_floor - (b - f) <= 0)%Q as Hle
          by (rewrite <- H; apply Q.le_max_r).
      apply (Qplus_le_l _ _ (b - f)) in Hle. ring_simplify in Hle. exact Hle.
    + intros H. apply Q.max_l.
      apply (Qplus_le_l _ _ (b - f)). ring_simplify. exact H.
Qed.

Lemma topup_needed_monotone_witness :
  (topup_needed 40 (-4.50) <= topup_needed 30 (-4.50))%Q
  /\ (topup_needed 60 (-4.50) == 0)%Q.
Proof.
  split.
  - apply (proj1 topup_needed_monotone); [discriminate|apply Qle_refl].
  - apply (proj2 topup_needed_monotone). discriminate.
Defined.

(** * The order of the containers *)

Module DocumentOrder.
Section DocumentOrder.
Import Calendar CalendarFacts RoundTrip ProgramFacts ExtractFacts LedgerFacts
  LedgerShape.

Variable float : string -> result Q.

Lemma sorted_unique (A : Type) (R : A -> A -> Prop) (l1 l2 : list A) :
  (forall x, ~ R x x) -> (forall x y, R x y -> ~ R y x) ->
  StronglySorted R l1 -> StronglySorted R l2 ->
  (forall x, In x l1 <-> In x l2) -> l1 = l2.
Proof.
  intros Hirr Hasym H1. revert l2.
  induction H1 as [|x1 l1 Hs1 IH Hall1]; intros l2 H2 Hin.
  - destruct l2 as [|x2 l2]; [reflexivity|].
    exfalso. apply (Hin x2). now left.
  - destruct H2 as [|x2 l2 Hs2 Hall2].
    + exfalso. apply (Hin x1). now left.
    + rewrite Forall_forall in Hall1, Hall2.
      assert (x1 = x2) as ->.
      { destruct (proj1 (Hin x1) (or_introl eq_refl)) as [E|Hx1]; [now symmetry|].
        destruct (proj2 (Hin x2) (or_introl eq_refl)) as [E|Hx2]; [assumption|].
        exfalso. apply (Hasym x1 x2); auto. }
      f_equal. apply IH; [assumption|]. intros x. split; intros Hx.
      * destruct (proj1 (Hin x) (or_intror Hx)) as [<-|Hx']; [|assumption].
        exfalso. apply (Hirr x2). auto.
      * destruct (proj2 (Hin x) (or_intror Hx)) as [<-|Hx']; [|assumption].
        exfalso. apply (Hirr x2). auto.
Qed.

Lemma container_dates_In (tree : list DateContainer) (d : datetime) :
  In d (container_dates tree) <-> exists c, In c tree /\ container_date c = Some d.
Proof.
  unfold container_dates. rewrite in_flat_map. split.
  - intros (c & Hc & Hd). exists c. split; [assumption|].
    destruct (container_date c) as [d'|]; [|destruct Hd].
    destruct Hd as [->|[]]. reflexivity.
  - intros (c & Hc & Hd). exists c. split; [assumption|]. rewrite Hd. now left.
Qed.

Lemma container_dates_perm (tree1 tree2 : list DateContainer) :
  Permutation tree1 tree2 -> Permutation (container_dates tree1) (container_dates tree2).
Proof.
  unfold container_dates. induction 1 as [|c l1 l2 _ IH|c c' l|l1 l2 l3 _ IH1 _ IH2];
    cbn [flat_map].
  - constructor.
  - now apply Permutation_app_head.
  - rewrite !app_assoc. apply Permutation_app_tail, Permutation_app_comm.
  - now transitivity (flat_map (fun c => match container_date c with
                                         | Some d => [d] | None => [] end) l2).
Qed.

(** With distinct dates, the container of a date is the one there is. *)
Lemma last_container_unique (tree : list DateContainer) (c : DateContainer)
  (d : datetime) :
  NoDup (container_dates tree) -> In c tree -> container_date c = Some d ->
  last_container d tree = Some c.
Proof.
  intros Hnd Hc Hd.
  destruct (last_container d tree) as [c'|] eqn:El.
  - apply last_container_In in El. destruct El as (Hc' & Hd').
    f_equal. clear -Hnd Hc Hd Hc' Hd'.
    induction tree as [|x tree IH]; [destruct Hc|].
    unfold container_dates in Hnd. cbn [flat_map] in Hnd.
    fold (container_dates tree) in Hnd.
    assert (NoDup (container_dates tree)) as Hnd' by (now apply NoDup_app_remove_l in Hnd).
    destruct Hc as [->|Hc], Hc' as [->|Hc'].
    + reflexivity.
    + exfalso. rewrite Hd in Hnd. cbn [app] in Hnd.
      apply NoDup_cons_iff in Hnd. destruct Hnd as (Hn & _). apply Hn.
      apply container_dates_In. eauto.
    + exfalso. rewrite Hd' in Hnd. cbn [app] in Hnd.
      apply NoDup_cons_iff in Hnd. destruct Hnd as (Hn & _). apply Hn.
      apply container_dates_In. eauto.
    + now apply IH.
  - exfalso. rewrite last_container_None in El. now apply (El c).
Qed.

Lemma tree_parses_perm (tree1 tree2 : list DateContainer) :
  Permutation tree1 tree2 ->
  tree_parses float tree1 = true -> tree_parses float tree2 = true.
Proof.
  unfold tree_parses. intros Hp H. rewrite forallb_forall in *.
  intros c Hc. apply H. now apply (Permutation_in _ (Permutation_sym Hp)).
Qed.

Lemma returns_parses (tree : list DateContainer) (ledger : Ledger) :
  parse_travel_data float tree = Ok ledger -> tree_parses float tree = true.
Proof.
  intros H. destruct (tree_parses float tree) eqn:E; [reflexivity|].
  destruct (@loop_raise float tree [] E) as [e He].
  unfold parse_travel_data in H. rewrite He in H. discriminate.
Qed.

(** What the loop leaves under [d] when the dates are distinct. *)
Lemma loop_get_unique (tree : list DateContainer) (td : TravelData) (d : datetime) :
  NoDup (container_dates tree) ->
  foldM (parse_container float) tree [] = Ok td ->
  forall acts,
    Dict.get Calendar.eqb d td = Some acts <->
    exists c, In c tree /\ container_date c = Some d
              /\ container_activities float c = Ok acts.
Proof.
  intros Hnd Etd acts. pose proof (@loop_get float tree [] td d Etd) as Hl.
  split.
  - intros Hg. destruct (last_container d tree) as [c|] eqn:El.
    + destruct Hl as (acts' & Ha & Hg'). apply last_container_In in El.
      exists c. repeat split; try apply El. congruence.
    + rewrite Hg in Hl. discriminate.
  - intros (c & Hc & Hd & Ha).
    rewrite (@last_container_unique tree c d Hnd Hc Hd) in Hl.
    destruct Hl as (acts' & Ha' & Hg). congruence.
Qed.

Lemma ledger_of_items (td1 td2 : TravelData) (ds : list datetime) (l1 l2 : Ledger) :
  Forall2 (fun d item => fst item = strftime_date d
                         /\ Dict.get Calendar.eqb d td1 = Some (snd item)) ds l1 ->
  Forall2 (fun d item => fst item = strftime_date d
                         /\ Dict.get Calendar.eqb d td2 = Some (snd item)) ds l2 ->
  (forall d, In d ds -> Dict.get Calendar.eqb d td1 = Dict.get Calendar.eqb d td2) ->
  l1 = l2.
Proof.
  intros H1. revert l2. induction H1 as [|d [lab acts] ds l1 (Hf & Hg) _ IH];
    intros l2 H2 Heq.
  - now inversion H2.
  - inversion H2 as [|? [lab' acts'] ? l2' (Hf' & Hg') H2']; subst.
    cbn [fst snd] in *. f_equal.
    + rewrite (Heq d (or_introl eq_refl)) in Hg.
      f_equal; congruence.
    + apply IH; [assumption|]. intros x Hx. apply Heq. now right.
Qed.

End DocumentOrder.
End DocumentOrder.

Import Calendar CalendarFacts RoundTrip ProgramFacts ExtractFacts LedgerFacts
  LedgerShape DocumentOrder.

(** X16: when no two containers carry the same date, the ledger does not
    depend on the order of the containers in the document: a rearranged
    document gives the same ledger. *)
Theorem ledger_ignores_document_order (float : string -> result Q)
  (tree1 tree2 : list DateContainer) (ledger : Ledger) :
  Permutation tree1 tree2 -> NoDup (container_dates tree1) ->
  parse_travel_data float tree1 = Ok ledger ->
  parse_travel_data float tree2 = Ok ledger.
Proof.
  intros Hp Hnd1 H1.
  assert (NoDup (container_dates tree2)) as Hnd2
      by (apply (Permutation_NoDup (container_dates_perm Hp) Hnd1)).
  pose proof (@tree_parses_perm float tree1 tree2 Hp (@returns_parses float tree1 ledger H1))
    as Hparse.
  destruct (@loop_total float tree2 [] Hparse) as [td2' Etd2'].
  destruct (@parse_travel_data_total float tree2 td2' Etd2') as [ledger2 H2].
  rewrite H2. f_equal.
  apply parse_travel_data_inv in H1, H2.
  destruct H1 as (td1 & ds1 & Etd1 & Eds1 & Hs1 & Hall1 & HF1).
  destruct H2 as (td2 & ds2 & Etd2 & Eds2 & Hs2 & Hall2 & HF2).
  assert (forall d acts, Dict.get Calendar.eqb d td1 = Some acts
                         <-> Dict.get Calendar.eqb d td2 = Some acts) as Hget.
  { intros d acts.
    rewrite (@loop_get_unique float tree1 td1 d Hnd1 Etd1 acts).
    rewrite (@loop_get_unique float tree2 td2 d Hnd2 Etd2 acts).
    split; intros (c & Hc & Hd & Ha); exists c; repeat split; try assumption.
    - now apply (Permutation_in _ Hp).
    - now apply (Permutation_in _ (Permutation_sym Hp)). }
  assert (forall d, Dict.get Calendar.eqb d td1 = Dict.get Calendar.eqb d td2) as Heq.
  { intros d. destruct (Dict.get Calendar.eqb d td1) as [acts|] eqn:E1.
    - symmetry. now apply Hget.
    - destruct (Dict.get Calendar.eqb d td2) as [acts|] eqn:E2; [|reflexivity].
      apply Hget in E2. congruence. }
  assert (forall (td : TravelData) ds, ds = Sorting.sorted_reverse ltb (Dict.keys td) ->
            forall d, In d ds <-> Dict.get Calendar.eqb d td <> None) as Hkeys.
  { intros td ds -> d.
    pose proof (SortingFacts.sorted_reverse_perm ltb (Dict.keys td)) as Hperm.
    split.
    - intros Hin Hn. apply (Permutation_in _ (Permutation_sym Hperm)) in Hin.
      apply DictFacts.get_None in Hn; [contradiction|apply eqb_eq].
    - intros Hn. apply (Permutation_in _ Hperm).
      destruct (Dict.get Calendar.eqb d td) as [acts|] eqn:E; [|contradiction].
      apply DictFacts.get_In in E; [|apply eqb_eq].
      now apply (in_map fst) in E. }
  assert (ds1 = ds2) as <-.
  { apply (@sorted_unique _ (fun x y => ltb y x = true)); try assumption.
    - intros x. rewrite ltb_irrefl. discriminate.
    - intros x y Hxy Hyx. apply ltb_asym in Hxy. congruence.
    - intros d. rewrite (Hkeys td1 ds1 Eds1 d), (Hkeys td2 ds2 Eds2 d), (Heq d).
      reflexivity. }
  symmetry. apply (@ledger_of_items td1 td2 ds1 ledger ledger2 HF1 HF2).
  intros d _. apply Heq.
Qed.

Lemma ledger_ignores_document_order_witness :
  parse_travel_data Decimal.float (rev scenario_A) = Ok scenario_B.
Proof.
  apply (@ledger_ignores_document_order Decimal.float scenario_A).
  - apply Permutation_rev.
  - vm_compute. repeat (constructor; [cbn; intuition discriminate|]). constructor.
  - vm_compute. reflexivity.
Defined.

(** * What the extractor raises *)

Lemma mapM_raise_inv {A B : Type} (f : A -> result B) (l : list A) (e : exn) :
  mapM f l = Raise e -> exists a, In a l /\ f a = Raise e.
Proof.
  induction l as [|x l IH]; simpl; [discriminate|].
  destruct (f x) as [y|e'] eqn:Ex; simpl.
  - destruct (mapM f l) as [ys|e'] eqn:El; simpl; [discriminate|].
    intros H. injection H as ->. destruct (IH eq_refl) as (a & Ha & Hfa). eauto.
  - intros H. injection H as ->. eauto.
Qed.

Module ExtractRaise.
Section ExtractRaise.
Import Calendar CalendarFacts RoundTrip ProgramFacts ExtractFacts LedgerFacts.

Variable float : string -> result Q.

(** [float] on a string raises nothing but [ValueError]. *)
Hypothesis float_raises : forall s e, float s = Raise e -> e = ValueError.

Lemma extract_activity_raises (n : ActivityNode) (e : exn) :
  extract_activity float n = Raise e -> e = ValueError.
Proof.
  rewrite extract_activity_eq.
  destruct (amount_text n) as [s|]; [|discriminate].
  destruct (float s) as [q|e'] eqn:E; cbn [bind]; [discriminate|].
  intros H. injection H as <-. now apply float_raises with s.
Qed.

Lemma sort_by_time_raises (l : list Activity) (e : exn) :
  Sorting.sort_key ltb time_key l = Raise e -> e = ValueError.
Proof.
  unfold Sorting.sort_key.
  destruct (mapM time_key l) as [ks|e'] eqn:E; cbn [bind]; [discriminate|].
  intros H. injection H as <-.
  apply mapM_raise_inv in E. destruct E as (a & _ & Ha).
  now apply strptime_time_raises in Ha.
Qed.

Lemma container_activities_raises (c : DateContainer) (e : exn) :
  container_activities float c = Raise e -> e = ValueError.
Proof.
  unfold container_activities.
  destruct (mapM (extract_activity float) (activities c)) as [raw|e'] eqn:E;
    cbn [bind].
  - apply sort_by_time_raises.
  - intros H. injection H as <-.
    apply mapM_raise_inv in E. destruct E as (n & _ & Hn).
    now apply extract_activity_raises in Hn.
Qed.

Lemma loop_raises (tree : list DateContainer) (td0 : TravelData) (e : exn) :
  foldM (parse_container float) tree td0 = Raise e -> e = ValueError.
Proof.
  revert td0. induction tree as [|c tree IH]; intros td0; cbn [foldM];
    [discriminate|].
  rewrite parse_container_eq.
  destruct (container_date c) as [d|]; cbn [bind]; [|apply IH].
  destruct (container_activities float c) as [acts|e'] eqn:E; cbn [bind];
    [apply IH|].
  intros H. injection H as <-. now apply container_activities_raises in E.
Qed.

(** Whatever [parse_travel_data] raises is a [ValueError]. *)
Lemma parse_travel_data_raises (tree : list DateContainer) (e : exn) :
  parse_travel_data float tree = Raise e -> e = ValueError.
Proof.
  intros H.
  destruct (foldM (parse_container float) tree []) as [td|e'] eqn:E.
  - destruct (@parse_travel_data_total float tree td E) as [ledger Hl].
    congruence.
  - unfold parse_travel_data in H. rewrite E in H. cbn [bind] in H.
    injection H as <-. now apply loop_raises in E.
Qed.

End ExtractRaise.
End ExtractRaise.

Lemma decimal_float_raises (s : string) (e : exn) :
  Decimal.float s = Raise e -> e = ValueError.
Proof.
  unfold Decimal.float.
  destruct (match Str.strip s with
            | String c s' =>
                if Ascii.eqb c "-" then (true, s')
                else if Ascii.eqb c "+" then (false, s') else (false, Str.strip s)
            | EmptyString => (false, Str.strip s)
            end) as [neg body].
  destruct (Decimal.unsigned body); congruence.
Qed.

Import Calendar CalendarFacts RoundTrip ProgramFacts ExtractFacts LedgerFacts
  AggregatorFacts ExtractRaise.

(** C2, as the code has it: the extractor returns exactly when every fare
    text and every time text under a readable date is readable, and raises
    [ValueError] otherwise ([float] raising nothing else on a string); a
    container whose date label is missing or unreadable leaves no trace in
    the result; and each absent field of an activity gets its default: time
    ["00:00"], origin and destination ["Unknown"] (the destination unless
    the top-up rule rewrites it), fare [0]. *)
Theorem extractor_lenient (float : string -> result Q) (tree : list DateContainer) :
  (tree_parses float tree = true ->
   exists ledger, parse_travel_data float tree = Ok ledger)
  /\ ((forall s e, float s = Raise e -> e = ValueError) ->
      tree_parses float tree = false ->
      parse_travel_data float tree = Raise ValueError)
  /\ (forall pre c post,
        tree = (pre ++ c :: post)%list -> container_date c = None ->
        parse_travel_data float tree = parse_travel_data float (pre ++ post))
  /\ (forall n a,
        extract_activity float n = Ok a ->
        (time_element n = [] -> time a = "00:00")
        /\ (start_point_element n = [] -> start_point a = "Unknown")
        /\ (end_point_element n = [] ->
            Str.contains "Top up" (origin_text n) = false ->
            end_point a = "Unknown")
        /\ (fare_element n = [] -> fare a = 0%Q)).
Proof.
  repeat split.
  - intros H. destruct (loop_total float tree [] H) as [td Etd].
    now apply parse_travel_data_total with td.
  - intros Hfloat H. destruct (loop_raise float tree [] H) as [e Ee].
    assert (parse_travel_data float tree = Raise e) as Hr
        by (unfold parse_travel_data; now rewrite Ee).
    now rewrite Hr, (@parse_travel_data_raises float Hfloat tree e Hr).
  - intros pre c post -> Hc. unfold parse_travel_data.
    now rewrite loop_skip.
  - intros Ht. rewrite extract_activity_eq in H.
    destruct (match amount_text n with Some s => float s | None => Ok 0%Q end);
      cbn [bind] in H; [|discriminate].
    injection H as <-. unfold time_text. rewrite Ht.
    now destruct (Str.contains _ _).
  - intros Hs. rewrite extract_activity_eq in H.
    destruct (match amount_text n with Some s => float s | None => Ok 0%Q end);
      cbn [bind] in H; [|discriminate].
    injection H as <-. unfold origin_text. now rewrite Hs.
  - intros He Hc. rewrite extract_activity_eq in H.
    destruct (match amount_text n with Some s => float s | None => Ok 0%Q end);
      cbn [bind] in H; [|discriminate].
    injection H as <-. rewrite Hc. unfold destination_text. now rewrite He.
  - intros Hf. rewrite extract_activity_eq in H. unfold amount_text in H.
    rewrite Hf in H. cbn [bind] in H. injection H as <-.
    now destruct (Str.contains _ _).
Qed.

Lemma extractor_lenient_witness :
  (exists ledger, parse_travel_data Decimal.float scenario_A = Ok ledger)
  /\ parse_travel_data Decimal.float
       [mkDateContainer ["Monday 03 Jun 2024"]
          [mkActivityNode ["8.15 am"] ["Home"] ["City"] ["$4.50"]]]
     = Raise ValueError.
Proof.
  split.
  - apply (proj1 (extractor_lenient Decimal.float scenario_A)).
    vm_compute. reflexivity.
  - apply (proj1 (proj2 (extractor_lenient Decimal.float
             [mkDateContainer ["Monday 03 Jun 2024"]
                [mkActivityNode ["8.15 am"] ["Home"] ["City"] ["$4.50"]]]))).
    + exact decimal_float_raises.
    + vm_compute. reflexivity.
Defined.

(** C2 as stated fails: a fare text that [float] refuses, or a time text
    that does not match ["%H:%M"], raises [ValueError]. *)
Lemma extractor_raises :
  parse_travel_data Decimal.float
    [mkDateContainer ["Monday 03 Jun 2024"]
       [mkActivityNode ["08:15"] ["Home"] ["City"] ["N/A"]]]
  = Raise ValueError
  /\ parse_travel_data Decimal.float
       [mkDateContainer ["Monday 03 Jun 2024"]
          [mkActivityNode ["8.15 am"] ["Home"] ["City"] ["$4.50"]]]
     = Raise ValueError.
Proof. split; vm_compute; reflexivity. Qed.

(** * The dates of the ledger *)

Module LedgerDates.
Import Calendar CalendarFacts RoundTrip ProgramFacts LedgerFacts WeekOrder.

Lemma four_digit_years_true (tree : list DateContainer) :
  four_digit_years tree = true <->
  forall c d, In c tree -> container_date c = Some d -> 1000 <= year d.
Proof.
  unfold four_digit_years. rewrite forallb_forall. split.
  - intros H c d Hc Hd. specialize (H c Hc). rewrite Hd in H.
    now apply Z.leb_le.
  - intros H c Hc. destruct (container_date c) as [d|] eqn:Hd; [|reflexivity].
    apply Z.leb_le. now apply (H c d).
Qed.

Lemma four_digit_years_false (tree : list DateContainer) :
  four_digit_years tree = false ->
  exists c d, In c tree /\ container_date c = Some d /\ year d < 1000.
Proof.
  unfold four_digit_years. induction tree as [|c tree IH]; cbn [forallb];
    [discriminate|].
  destruct (container_date c) as [d|] eqn:Hd.
  - destruct (1000 <=? year d) eqn:E; cbn [andb].
    + intros H. destruct (IH H) as (c' & d' & Hc' & Hd' & Hy).
      exists c', d'. simpl. auto.
    + intros _. exists c, d. apply Z.leb_gt in E. simpl. auto.
  - cbn [andb]. intros H. destruct (IH H) as (c' & d' & Hc' & Hd' & Hy).
    exists c', d'. simpl. auto.
Qed.

(** Of two dates, the one that compares smaller has the smaller ordinal. *)
Lemma ltb_toordinal (a b : datetime) :
  is_date a -> is_date b -> ltb a b = true -> toordinal a < toordinal b.
Proof.
  intros Ha Hb H.
  destruct (Z.lt_ge_cases (toordinal a) (toordinal b)) as [Hlt|Hge];
    [assumption|].
  apply (leb_toordinal Hb Ha) in Hge. rewrite leb_ltb in Hge.
  apply negb_true_iff in Hge. congruence.
Qed.

Lemma strongly_sorted_impl (A : Type) (R S : A -> A -> Prop) (l : list A) :
  (forall x y, In x l -> In y l -> R x y -> S x y) ->
  StronglySorted R l -> StronglySorted S l.
Proof.
  intros HRS Hs. induction Hs as [|x l Hs IH Hall]; constructor.
  - apply IH. intros a b Ha Hb. apply HRS; simpl; auto.
  - rewrite Forall_forall in *. intros y Hy. apply HRS; simpl; auto.
Qed.

End LedgerDates.

Import Calendar CalendarFacts RoundTrip ProgramFacts ExtractFacts LedgerFacts
  AggregatorFacts AggregatorEdge WeekOrder LedgerDates.

(** C6, as the code has it: a valid date of the year 1000 or later,
    formatted with ["%A %d %b %Y"] and parsed with the same format, is the
    same date; the label of a date before the year 1000 does not parse,
    because ["%Y"] prints such a year with fewer than four digits and reads
    four.  So the aggregations return on the ledger of a document whose
    dates are all of the year 1000 or later, and raise [ValueError] on the
    ledger of a document that has an earlier date. *)
Theorem date_round_trip :
  (forall y m d,
     valid_date y m d = true -> 1000 <= y ->
     strptime_date (strftime_date (mkdatetime y m d 0 0 0 0))
     = Ok (mkdatetime y m d 0 0 0 0))
  /\ (forall y m d,
        valid_date y m d = true -> y < 1000 ->
        strptime_date (strftime_date (mkdatetime y m d 0 0 0 0))
        = Raise ValueError)
  /\ (forall float tree ledger last_monday,
        parse_travel_data float tree = Ok ledger ->
        (four_digit_years tree = true ->
         (exists totals, calculate_totals ledger last_monday = Ok totals)
         /\ (exists daily, get_daily_totals ledger last_monday = Ok daily))
        /\ (four_digit_years tree = false ->
            calculate_totals ledger last_monday = Raise ValueError
            /\ get_daily_totals ledger last_monday = Raise ValueError)).
Proof.
  split; [|split].
  - intros y m d Hv H4. apply strptime_strftime; [now repeat split|assumption].
  - intros y m d Hv H3. apply strptime_strftime_short; [now repeat split|assumption].
  - intros float tree ledger last_monday H.
    destruct (ledger_dates float tree H) as (ds & Hl & Hall & _ & Hin). split.
    + intros H4. rewrite four_digit_years_true in H4.
      assert (mapM strptime_date (map fst ledger) = Ok ds) as Hds.
      { apply labels_parse; [assumption| |assumption].
        apply Forall_forall. intros d Hd. apply Hin in Hd.
        destruct Hd as (c & Hc & Hcd). now apply (H4 c d). }
      split.
      * unfold calculate_totals.
        rewrite (@calculate_totals_from ledger last_monday ds 0%Q 0%Q Hds). eauto.
      * unfold get_daily_totals.
        destruct (@get_daily_totals_from ledger last_monday ds [] Hds)
          as (daily & Hd & _).
        eauto.
    + intros H3. apply four_digit_years_false in H3.
      destruct H3 as (c & d & Hc & Hcd & Hy).
      assert (In d ds) as Hd by (apply Hin; eauto).
      assert (In (strftime_date d) (map fst ledger)) as Hlab
          by (rewrite Hl; now apply in_map).
      apply in_map_iff in Hlab. destruct Hlab as (item & Hfst & Hitem).
      assert (strptime_date (fst item) = Raise ValueError) as Hr.
      { rewrite Hfst. apply strptime_strftime_short; [|assumption].
        now apply container_date_is_date in Hcd. }
      split.
      * now apply weekly_loop_raises with item ValueError.
      * now apply daily_loop_raises with item ValueError.
Qed.

Lemma date_round_trip_witness :
  strptime_date (strftime_date (mkdatetime 2024 6 3 0 0 0 0))
  = Ok (mkdatetime 2024 6 3 0 0 0 0)
  /\ strptime_date (strftime_date (mkdatetime 999 6 3 0 0 0 0)) = Raise ValueError
  /\ (exists totals, calculate_totals scenario_B monday_3_june = Ok totals)
  /\ (exists daily, get_daily_totals scenario_B monday_3_june = Ok daily).
Proof.
  split; [|split].
  - apply (proj1 date_round_trip 2024 6 3); [reflexivity|lia].
  - apply (proj1 (proj2 date_round_trip) 999 6 3); [reflexivity|lia].
  - apply (proj1 (proj2 (proj2 date_round_trip) Decimal.float scenario_A scenario_B
                    monday_3_june eq_refl)).
    reflexivity.
Defined.

(** C6 as stated fails: 3 June 999 is a valid date, its label is
    ["Monday 03 Jun 999"], and the label does not parse; the page shows the
    date as ["Monday 03 Jun 0999"], the extractor returns a ledger, and both
    aggregations raise [ValueError] on that ledger. *)
Lemma date_round_trip_fails :
  valid_date 999 6 3 = true
  /\ strftime_date (mkdatetime 999 6 3 0 0 0 0) = "Monday 03 Jun 999"
  /\ strptime_date (strftime_date (mkdatetime 999 6 3 0 0 0 0)) = Raise ValueError
  /\ parse_travel_data Decimal.float scenario_999
     = Ok [("Monday 03 Jun 999", [mkActivity "08:15" "Home" "City" (-4.50)])]
  /\ calculate_totals
       [("Monday 03 Jun 999", [mkActivity "08:15" "Home" "City" (-4.50)])]
       (mkdatetime 999 6 3 0 0 0 0)
     = Raise ValueError
  /\ get_daily_totals
       [("Monday 03 Jun 999", [mkActivity "08:15" "Home" "City" (-4.50)])]
       (mkdatetime 999 6 3 0 0 0 0)
     = Raise ValueError.
Proof. repeat split; vm_compute; reflexivity. Qed.

(** C7: the labels of the ledger, in iteration order, are the printed dates
    of the containers from the latest to the earliest: of two distinct
    dates the later one comes first. *)
Theorem ledger_newest_first (float : string -> result Q)
  (tree : list DateContainer) (ledger : Ledger) :
  parse_travel_data float tree = Ok ledger ->
  exists ds,
    map fst ledger = map strftime_date ds
    /\ Forall is_date ds
    /\ (forall d, In d ds <-> exists c, In c tree /\ container_date c = Some d)
    /\ StronglySorted (fun later earlier => ltb earlier later = true) ds
    /\ StronglySorted
         (fun later earlier => toordinal earlier < toordinal later) ds
    /\ forall i j di dj,
         nth_error ds i = Some di -> nth_error ds j = Some dj ->
         toordinal dj < toordinal di -> (i < j)%nat.
Proof.
  intros H. destruct (ledger_dates float tree H) as (ds & Hl & Hall & Hs & Hin).
  assert (StronglySorted
            (fun later earlier => toordinal earlier < toordinal later) ds) as Hord.
  { apply strongly_sorted_impl with (2 := Hs). intros x y Hx Hy Hlt.
    rewrite Forall_forall in Hall. apply ltb_toordinal; auto. }
  exists ds. repeat split; try assumption; try apply Hin.
  intros i j di dj Hi Hj Hlt.
  destruct (Nat.lt_trichotomy i j) as [Hij|[->|Hji]]; [assumption| |].
  - rewrite Hi in Hj. injection Hj as ->. lia.
  - pose proof (@strongly_sorted_nth _ _ ds j i dj di Hord Hj Hi Hji) as Hgt.
    cbv beta in Hgt. lia.
Qed.

Lemma ledger_newest_first_witness :
  exists ds,
    map fst scenario_B = map strftime_date ds
    /\ Forall is_date ds
    /\ (forall d, In d ds <-> exists c, In c scenario_A /\ container_date c = Some d)
    /\ StronglySorted (fun later earlier => ltb earlier later = true) ds
    /\ StronglySorted
         (fun later earlier => toordinal earlier < toordinal later) ds
    /\ forall i j di dj,
         nth_error ds i = Some di -> nth_error ds j = Some dj ->
         toordinal dj < toordinal di -> (i < j)%nat.
Proof.
  apply (@ledger_newest_first Decimal.float scenario_A).
  vm_compute. reflexivity.
Defined.

(** * The times of a day *)

Module ClockFacts.
Import Calendar CalendarFacts RoundTrip WeekFacts.

Lemma digit_of_inv (a : ascii) (x : Z) :
  Str.digit_of a = Some x -> 0 <= x <= 9 /\ a = Str.digit_char x.
Proof.
  unfold Str.digit_of, Str.digit_char.
  destruct ((48 <=? Z.of_nat (nat_of_ascii a)) && (Z.of_nat (nat_of_ascii a) <=? 57))
    eqn:E; [|discriminate].
  apply andb_true_iff in E. destruct E as (E1 & E2).
  apply Z.leb_le in E1, E2. intros H. injection H as <-. split; [lia|].
  replace (48 + (Z.of_nat (nat_of_ascii a) - 48)) with (Z.of_nat (nat_of_ascii a))
    by lia.
  now rewrite Nat2Z.id, ascii_nat_embedding.
Qed.

Lemma append_empty (s : string) : s ++ "" = s.
Proof. induction s as [|c s IH]; simpl; [reflexivity|now rewrite IH]. Qed.

(** What ["%H"] and ["%M"] take off the front of a text is a numeral of
    the number they read. *)
Lemma match_num_inv (hi : Z) (s r : string) (v : Z) :
  match_num 0 hi 0 s = Some (v, r) ->
  0 <= v /\ (v <= 9 \/ v <= hi) /\ exists a, In a (numerals v) /\ s = a ++ r.
Proof.
  unfold match_num. destruct s as [|a s']; [discriminate|].
  destruct (Str.digit_of a) as [x|] eqn:Ea; [|discriminate].
  apply digit_of_inv in Ea. destruct Ea as (Hx & ->).
  assert (forall v r, (if 0 <=? x then Some (x, s') else None) = Some (v, r) ->
            0 <= v /\ (v <= 9 \/ v <= hi)
            /\ exists a, In a (numerals v)
                         /\ String (Str.digit_char x) s' = a ++ r) as Hone.
  { intros v' r'. replace (0 <=? x) with true by (symmetry; apply Z.leb_le; lia).
    intros H. injection H as <- <-. split; [lia|]. split; [lia|].
    exists (String (Str.digit_char x) ""). split; [|reflexivity].
    unfold numerals. replace (x <? 10) with true by (symmetry; apply Z.ltb_lt; lia).
    left. reflexivity. }
  destruct s' as [|b s'']; [apply Hone|].
  destruct (Str.digit_of b) as [y|] eqn:Eb; [|apply Hone].
  apply digit_of_inv in Eb. destruct Eb as (Hy & ->).
  destruct ((0 <=? 10 * x + y) && (10 * x + y <=? hi)) eqn:E; [|apply Hone].
  apply andb_true_iff in E. destruct E as (E1 & E2). apply Z.leb_le in E1, E2.
  intros H.
  assert (10 * x + y = v /\ s'' = r) as (<- & <-) by (split; congruence).
  split; [lia|]. split; [lia|].
  exists (pad2 (10 * x + y)). split.
  - unfold numerals. destruct (10 * x + y <? 10); simpl; auto.
  - unfold pad2. cbn [append].
    replace ((10 * x + y) / 10) with x by (Z.div_mod_to_equations; lia).
    replace ((10 * x + y) mod 10) with y by (Z.div_mod_to_equations; lia).
    reflexivity.
Qed.

Lemma match_H_inv (s r : string) (h : Z) :
  match_H s = Some (h, r) ->
  0 <= h <= 23 /\ exists a, In a (numerals h) /\ s = a ++ r.
Proof.
  intros H. apply match_num_inv in H. destruct H as (H0 & H1 & H2).
  split; [lia|assumption].
Qed.

Lemma match_M_inv (s r : string) (m : Z) :
  match_M s = Some (m, r) ->
  0 <= m <= 59 /\ exists a, In a (numerals m) /\ s = a ++ r.
Proof.
  intros H. apply match_num_inv in H. destruct H as (H0 & H1 & H2).
  split; [lia|assumption].
Qed.

Lemma colon_inv (s r : string) : colon s = Some r -> s = ":" ++ r.
Proof.
  unfold colon. destruct s as [|c s']; [discriminate|].
  destruct (Ascii.eqb c ":") eqn:E; [|discriminate].
  apply Ascii.eqb_eq in E. subst c. intros H. now injection H as <-.
Qed.

(** A text that ["%H:%M"] matches is one of the texts of the time it
    finds. *)
Lemma regex_time_inv (s : string) (h m : Z) :
  regex_time s = Some (h, m) ->
  0 <= h <= 23 /\ 0 <= m <= 59 /\ In s (clock_texts h m).
Proof.
  unfold regex_time.
  destruct (match_H s) as [[h' s1]|] eqn:EH; [|discriminate].
  destruct (colon s1) as [s2|] eqn:EC; [|discriminate].
  destruct (match_M s2) as [[m' [|c r]]|] eqn:EM; try discriminate.
  intros H. injection H as <- <-.
  apply match_H_inv in EH. destruct EH as (Hh & a & Ha & ->).
  apply colon_inv in EC. subst s1.
  apply match_M_inv in EM. destruct EM as (Hm & b & Hb & ->).
  rewrite append_empty. repeat split; try lia.
  unfold clock_texts. apply in_flat_map. exists a. split; [assumption|].
  apply in_map_iff. exists b. auto.
Qed.

Lemma strptime_time_inv (s : string) (k : datetime) :
  strptime_time s = Ok k ->
  exists h m, k = mkdatetime 1900 1 1 h m 0 0 /\ shows_clock h m s = true.
Proof.
  unfold strptime_time.
  destruct (regex_time s) as [[h m]|] eqn:E; [|discriminate].
  apply regex_time_inv in E. destruct E as (Hh & Hm & Hin).
  unfold make. change (valid_date 1900 1 1) with true. cbv iota.
  intros H. injection H as <-. exists h, m. split; [reflexivity|].
  unfold shows_clock.
  replace (0 <=? h) with true by (symmetry; apply Z.leb_le; lia).
  replace (h <=? 23) with true by (symmetry; apply Z.leb_le; lia).
  replace (0 <=? m) with true by (symmetry; apply Z.leb_le; lia).
  replace (m <=? 59) with true by (symmetry; apply Z.leb_le; lia).
  cbn [andb]. apply existsb_exists. exists s. split; [assumption|].
  apply String.eqb_refl.
Qed.

Lemma clock_texts_read_all : clock_texts_read = true.
Proof. vm_compute. reflexivity. Qed.

Lemma shows_clock_range (h m : Z) (s : string) :
  shows_clock h m s = true -> 0 <= h <= 23 /\ 0 <= m <= 59.
Proof.
  unfold shows_clock. rewrite !andb_true_iff, !Z.leb_le. lia.
Qed.

(** A text of a time of day is read by ["%H:%M"] as that time. *)
Lemma shows_clock_read (h m : Z) (s : string) :
  shows_clock h m s = true ->
  strptime_time s = Ok (mkdatetime 1900 1 1 h m 0 0).
Proof.
  intros H. pose proof (shows_clock_range _ _ _ H) as (Hh & Hm).
  unfold shows_clock in H. apply andb_true_iff in H. destruct H as (_ & H).
  apply existsb_exists in H. destruct H as (s' & Hin & Hs).
  apply String.eqb_eq in Hs. subst s'.
  pose proof clock_texts_read_all as Hall. unfold clock_texts_read in Hall.
  rewrite forallb_forall in Hall.
  specialize (Hall h (@zrange_In 24 h ltac:(lia))).
  rewrite forallb_forall in Hall.
  specialize (Hall m (@zrange_In 60 m ltac:(lia))).
  rewrite forallb_forall in Hall. specialize (Hall s Hin).
  destruct (strptime_time s) as [k|e]; [|discriminate].
  apply eqb_eq in Hall. now subst k.
Qed.

(** An activity is timed at [hm] exactly when its sort key is that time of
    1 January 1900. *)
Lemma at_clock_has_key (hm : Z * Z) (a : Activity) :
  at_clock hm a
  = ((0 <=? fst hm) && (fst hm <=? 23) && (0 <=? snd hm) && (snd hm <=? 59)
     && has_key eqb time_key (mkdatetime 1900 1 1 (fst hm) (snd hm) 0 0) a).
Proof.
  destruct hm as [h m]. cbn [fst snd]. unfold at_clock, has_key, time_key.
  cbn [fst snd].
  destruct (shows_clock h m (time a)) eqn:E.
  - pose proof (shows_clock_range _ _ _ E) as (Hh & Hm).
    rewrite (shows_clock_read _ _ _ E), eqb_refl.
    replace (0 <=? h) with true by (symmetry; apply Z.leb_le; lia).
    replace (h <=? 23) with true by (symmetry; apply Z.leb_le; lia).
    replace (0 <=? m) with true by (symmetry; apply Z.leb_le; lia).
    replace (m <=? 59) with true by (symmetry; apply Z.leb_le; lia).
    reflexivity.
  - destruct (strptime_time (time a)) as [k|e] eqn:Ek;
      [|now rewrite andb_false_r].
    destruct (eqb k (mkdatetime 1900 1 1 h m 0 0)) eqn:Ee;
      [|now rewrite andb_false_r].
    apply eqb_eq in Ee. subst k.
    apply strptime_time_inv in Ek. destruct Ek as (h' & m' & Hk & Hs).
    injection Hk as <- <-. congruence.
Qed.

Lemma at_clock_filter (hm : Z * Z) (l1 l2 : list Activity) :
  (forall k, filter (has_key eqb time_key k) l1 = filter (has_key eqb time_key k) l2) ->
  filter (at_clock hm) l1 = filter (at_clock hm) l2.
Proof.
  intros H.
  rewrite (filter_ext _ _ (at_clock_has_key hm) l1).
  rewrite (filter_ext _ _ (at_clock_has_key hm) l2).
  destruct ((0 <=? fst hm) && (fst hm <=? 23) && (0 <=? snd hm) && (snd hm <=? 59)).
  - cbn [andb]. apply H.
  - cbn [andb]. clear. 
    induction l1 as [|x l1 IH1]; induction l2 as [|y l2 IH2]; simpl; auto.
Qed.

(** The hour and minute of each key of a sorted day, in order. *)
Lemma keys_clock (acts : list Activity) (ks : list datetime) :
  mapM time_key acts = Ok ks ->
  Forall2 (fun a hm => at_clock hm a = true) acts
    (map (fun k => (hour k, minute k)) ks)
  /\ Forall (fun k => exists h m, k = mkdatetime 1900 1 1 h m 0 0
                                  /\ 0 <= h <= 23 /\ 0 <= m <= 59) ks.
Proof.
  intros H. apply mapM_Forall2 in H.
  induction H as [|a k acts ks Hk _ (IH1 & IH2)]; simpl;
    [split; constructor|].
  unfold time_key in Hk. apply strptime_time_inv in Hk.
  destruct Hk as (h & m & -> & Hs). split.
  - constructor; [exact Hs|assumption].
  - constructor; [|assumption].
    exists h, m. split; [reflexivity|]. now apply shows_clock_range in Hs.
Qed.

Lemma nlt_minutes (h1 m1 h2 m2 : Z) :
  0 <= m1 <= 59 -> 0 <= m2 <= 59 ->
  ltb (mkdatetime 1900 1 1 h2 m2 0 0) (mkdatetime 1900 1 1 h1 m1 0 0) = false ->
  60 * h1 + m1 <= 60 * h2 + m2.
Proof.
  intros H1 H2. unfold ltb, compare, key. cbn [year month day hour minute second
    microsecond lex]. rewrite !Z.compare_refl.
  destruct (h2 ?= h1) eqn:Eh.
  - apply Z.compare_eq in Eh. subst h2.
    destruct (m2 ?= m1) eqn:Em.
    + apply Z.compare_eq in Em. lia.
    + discriminate.
    + rewrite Z.compare_gt_iff in Em. lia.
  - discriminate.
  - rewrite Z.compare_gt_iff in Eh. lia.
Qed.

Lemma sorted_clock (ks : list datetime) :
  Forall (fun k => exists h m, k = mkdatetime 1900 1 1 h m 0 0
                               /\ 0 <= h <= 23 /\ 0 <= m <= 59) ks ->
  Sorted (fun x y => ltb y x = false) ks ->
  StronglySorted (fun t1 t2 => minute_of_day t1 <= minute_of_day t2)
    (map (fun k => (hour k, minute k)) ks).
Proof.
  intros Hall Hs. apply Sorted_StronglySorted.
  - intros x y z. unfold minute_of_day. lia.
  - induction Hs as [|k ks Hs IH Hd]; simpl; constructor.
    + apply IH. now inversion Hall.
    + destruct Hd as [|k' ks' Hkk']; simpl; constructor.
      inversion Hall as [|? ? (h & m & -> & Hh & Hm) Hall']; subst.
      inversion Hall' as [|? ? (h' & m' & -> & Hh' & Hm') _]; subst.
      unfold minute_of_day. cbn [fst snd hour minute].
      now apply nlt_minutes.
Qed.

End ClockFacts.

Import Calendar CalendarFacts RoundTrip ProgramFacts ExtractFacts LedgerFacts
  ClockFacts.

(** C8: in every day's list of the ledger the times of day that the
    activities show are in non-decreasing order, and the list is the
    container's activities in document order rearranged so that the
    activities of one time of day keep their order. *)
Theorem day_sorted_by_time (float : string -> result Q) (tree : list DateContainer)
  (ledger : Ledger) (label : string) (acts : list Activity) :
  parse_travel_data float tree = Ok ledger -> In (label, acts) ledger ->
  (exists clock : list (Z * Z),
      Forall2 (fun a hm => at_clock hm a = true) acts clock
      /\ StronglySorted (fun t1 t2 => minute_of_day t1 <= minute_of_day t2) clock)
  /\ exists c raw,
       In c tree
       /\ mapM (extract_activity float) (activities c) = Ok raw
       /\ Permutation raw acts
       /\ forall hm, filter (at_clock hm) acts = filter (at_clock hm) raw.
Proof.
  intros H Hin.
  destruct (@ledger_entry_source float tree ledger label acts H Hin) as (c & Hc & Ha).
  unfold container_activities in Ha.
  destruct (mapM (extract_activity float) (activities c)) as [raw|e] eqn:Er;
    cbn [bind] in Ha; [|discriminate].
  apply sort_by_time_Ok in Ha.
  destruct Ha as (Hp & (ks & Hks & Hsorted) & Hstable). split.
  - destruct (@keys_clock acts ks Hks) as (Hclock & Hrange).
    exists (map (fun k => (hour k, minute k)) ks). split; [assumption|].
    now apply sorted_clock.
  - exists c, raw. repeat split; try assumption.
    intros hm. now apply at_clock_filter.
Qed.

Lemma day_sorted_by_time_witness :
  (exists clock : list (Z * Z),
      Forall2 (fun a hm => at_clock hm a = true)
        [mkActivity "07:00" "Top Up" "Opal Travel App" 20.00;
         mkActivity "08:15" "Home" "City" (-4.50)] clock
      /\ StronglySorted (fun t1 t2 => minute_of_day t1 <= minute_of_day t2) clock)
  /\ exists c raw,
       In c scenario_A
       /\ mapM (extract_activity Decimal.float) (activities c) = Ok raw
       /\ Permutation raw [mkActivity "07:00" "Top Up" "Opal Travel App" 20.00;
                           mkActivity "08:15" "Home" "City" (-4.50)]
       /\ forall hm,
            filter (at_clock hm) [mkActivity "07:00" "Top Up" "Opal Travel App" 20.00;
                                  mkActivity "08:15" "Home" "City" (-4.50)]
            = filter (at_clock hm) raw.
Proof.
  apply (@day_sorted_by_time Decimal.float scenario_A scenario_B
           "Monday 03 Jun 2024" _ eq_refl (or_introl eq_refl)).
Defined.

(** * The top-up amount on doubles *)

Module DoubleFacts.
Import Floats SpecFloat.

(** Rounding a non-negative mantissa never gives [nan]. *)
Lemma shr_1_nonneg (mrs : shr_record) :
  0 <= shr_m mrs -> 0 <= shr_m (shr_1 mrs).
Proof.
  destruct mrs as [m r s]. cbn [shr_m]. intros H.
  destruct m as [|p|p]; [cbn; lia| |lia].
  destruct p; cbn; lia.
Qed.

Lemma iter_shr_1_nonneg (p : positive) (mrs : shr_record) :
  0 <= shr_m mrs -> 0 <= shr_m (iter_pos shr_1 p mrs).
Proof.
  revert mrs. induction p as [p IH|p IH|]; intros mrs H; cbn [iter_pos].
  - apply IH, IH, shr_1_nonneg, H.
  - apply IH, IH, H.
  - apply shr_1_nonneg, H.
Qed.

Lemma shr_nonneg (mrs : shr_record) (e n : Z) :
  0 <= shr_m mrs -> 0 <= shr_m (fst (shr mrs e n)).
Proof.
  intros H. unfold shr. destruct n; cbn [fst]; try assumption.
  now apply iter_shr_1_nonneg.
Qed.

Lemma shr_record_of_loc_m (m : Z) (l : location) :
  shr_m (shr_record_of_loc m l) = m.
Proof. destruct l as [|[]]; reflexivity. Qed.

Lemma round_nearest_even_nonneg (m : Z) (l : location) :
  0 <= m -> 0 <= round_nearest_even m l.
Proof.
  intros H. unfold round_nearest_even. destruct l as [|[]]; try lia.
  destruct (Z.even m); lia.
Qed.

Lemma binary_round_aux_not_nan (prec emax : Z) (sx : bool) (mx ex : Z)
  (lx : location) :
  0 <= mx -> binary_round_aux prec emax sx mx ex lx <> S754_nan.
Proof.
  intros H. unfold binary_round_aux, shr_fexp.
  pose proof (@shr_nonneg (shr_record_of_loc mx lx) ex
                (fexp prec emax (Zdigits2 mx + ex) - ex)) as H1.
  rewrite shr_record_of_loc_m in H1. specialize (H1 H).
  destruct (shr (shr_record_of_loc mx lx) ex _) as [mrs' e']. cbn [fst] in H1.
  pose proof (@round_nearest_even_nonneg (shr_m mrs') (loc_of_shr_record mrs') H1)
    as H2.
  set (m2 := round_nearest_even (shr_m mrs') (loc_of_shr_record mrs')) in *.
  pose proof (@shr_nonneg (shr_record_of_loc m2 loc_Exact) e'
                (fexp prec emax (Zdigits2 m2 + e') - e')) as H3.
  rewrite shr_record_of_loc_m in H3. specialize (H3 H2).
  destruct (shr (shr_record_of_loc m2 loc_Exact) e' _) as [mrs'' e''].
  cbn [fst] in H3.
  destruct (shr_m mrs'') as [|p|p]; [discriminate| |lia].
  destruct (e'' <=? emax - prec); discriminate.
Qed.

Lemma binary_normalize_not_nan (prec emax m e : Z) (s : bool) :
  binary_normalize prec emax m e s <> S754_nan.
Proof.
  unfold binary_normalize. destruct m as [|p|p]; [discriminate| |];
    unfold binary_round;
    destruct (shl_align _ _ _) as [mz ez]; apply binary_round_aux_not_nan; lia.
Qed.

(** [x - y] is [nan] exactly when one of them is, or both are the same
    infinity. *)
Lemma SFsub_nan (prec emax : Z) (x y : spec_float) :
  SFsub prec emax x y = S754_nan <->
  x = S754_nan \/ y = S754_nan
  \/ exists s, x = S754_infinity s /\ y = S754_infinity s.
Proof.
  split.
  - destruct x as [sx|sx| |sx mx ex], y as [sy|sy| |sy my ey]; cbn [SFsub]; auto;
      try discriminate.
    + destruct sx, sy; discriminate.
    + destruct sx, sy; try discriminate; eauto.
    + intros H. now apply binary_normalize_not_nan in H.
  - intros [->|[->|(s & -> & ->)]].
    + reflexivity.
    + now destruct x.
    + now destruct s.
Qed.

Lemma compare_cont_refl (m : positive) : PosDef.Pos.compare_cont Eq m m = Eq.
Proof. apply Pos.compare_cont_refl. Qed.

Lemma SFcompare_refl (x : spec_float) :
  x <> S754_nan -> SFcompare x x = Some Eq.
Proof.
  destruct x as [s|s| |s m e]; cbn [SFcompare]; intros H.
  - reflexivity.
  - now destruct s.
  - now contradiction H.
  - rewrite Z.compare_refl, compare_cont_refl. now destruct s.
Qed.

Lemma is_nan_spec (x : PrimFloat.float) :
  PrimFloat.is_nan x = true <-> Prim2SF x = S754_nan.
Proof.
  unfold PrimFloat.is_nan. rewrite eqb_spec. unfold SFeqb.
  destruct (Prim2SF x) as [s|s| |s m e] eqn:E.
  - split; discriminate.
  - rewrite SFcompare_refl by discriminate. split; discriminate.
  - split; reflexivity.
  - rewrite SFcompare_refl by discriminate. split; discriminate.
Qed.

Lemma is_nan_false (x : PrimFloat.float) :
  PrimFloat.is_nan x = false <-> Prim2SF x <> S754_nan.
Proof.
  rewrite <- is_nan_spec. destruct (PrimFloat.is_nan x); split; congruence.
Qed.

Lemma eqb_infinity (x : PrimFloat.float) :
  PrimFloat.eqb x PrimFloat.infinity = true <-> Prim2SF x = S754_infinity false.
Proof.
  rewrite eqb_spec. change (Prim2SF PrimFloat.infinity) with (S754_infinity false).
  unfold SFeqb. destruct (Prim2SF x) as [s|s| |s m e]; cbn [SFcompare].
  - split; discriminate.
  - destruct s; split; (discriminate || reflexivity).
  - split; discriminate.
  - destruct s; split; discriminate.
Qed.

Lemma eqb_neg_infinity (x : PrimFloat.float) :
  PrimFloat.eqb x PrimFloat.neg_infinity = true <-> Prim2SF x = S754_infinity true.
Proof.
  rewrite eqb_spec.
  change (Prim2SF PrimFloat.neg_infinity) with (S754_infinity true).
  unfold SFeqb. destruct (Prim2SF x) as [s|s| |s m e]; cbn [SFcompare].
  - split; discriminate.
  - destruct s; split; (discriminate || reflexivity).
  - split; discriminate.
  - destruct s; split; discriminate.
Qed.

Lemma same_infinity_spec (a b : PrimFloat.float) :
  Double.same_infinity a b = true <->
  exists s, Prim2SF a = S754_infinity s /\ Prim2SF b = S754_infinity s.
Proof.
  unfold Double.same_infinity.
  rewrite orb_true_iff, !andb_true_iff, !eqb_infinity, !eqb_neg_infinity.
  split.
  - intros [(Ha & Hb)|(Ha & Hb)]; eauto.
  - intros ([|] & Ha & Hb); auto.
Qed.

(** When the difference the computation starts from is [nan]. *)
Lemma undefined_spec (b f : PrimFloat.float) :
  Double.undefined b f = PrimFloat.is_nan (PrimFloat.sub 50 (PrimFloat.sub b f)).
Proof.
  apply eq_true_iff_eq. unfold Double.undefined.
  rewrite !orb_true_iff, !is_nan_spec, same_infinity_spec, !sub_spec.
  unfold SF64sub. rewrite !SFsub_nan.
  change (Prim2SF 50) with (S754_finite false 7036874417766400 (-47)).
  split.
  - intros [[H|H]|H]; auto.
  - intros [H|[H|(s & H & _)]]; [discriminate| |discriminate].
    destruct H as [H|[H|H]]; auto.
Qed.

(** A number that is not below zero is at least zero. *)
Lemma not_below_zero (t : PrimFloat.float) :
  PrimFloat.is_nan t = false -> PrimFloat.ltb t 0 = false ->
  PrimFloat.leb 0 t = true /\ PrimFloat.ltb 0 t = negb (PrimFloat.eqb t 0).
Proof.
  rewrite is_nan_false, !ltb_spec, leb_spec, eqb_spec.
  change (Prim2SF 0) with (S754_zero false).
  unfold SFltb, SFleb, SFeqb.
  destruct (Prim2SF t) as [s|s| |s m e]; cbn [SFcompare]; intros Hn H.
  - auto.
  - destruct s; [discriminate|auto].
  - now contradiction Hn.
  - destruct s; [discriminate|auto].
Qed.

Lemma below_zero (t : PrimFloat.float) :
  PrimFloat.ltb t 0 = true -> PrimFloat.ltb 0 t = false.
Proof.
  rewrite !ltb_spec. change (Prim2SF 0) with (S754_zero false). unfold SFltb.
  destruct (Prim2SF t) as [s|s| |s m e]; cbn [SFcompare]; try discriminate;
    destruct s; (discriminate || reflexivity).
Qed.

Lemma float_eqb_refl (t : PrimFloat.float) :
  PrimFloat.is_nan t = false -> PrimFloat.eqb t t = true.
Proof.
  unfold PrimFloat.is_nan. now destruct (PrimFloat.eqb t t).
Qed.

Lemma ltb_nan (t : PrimFloat.float) :
  PrimFloat.is_nan t = true ->
  PrimFloat.ltb t 0 = false /\ PrimFloat.ltb 0 t = false
  /\ PrimFloat.leb 0 t = false.
Proof.
  rewrite is_nan_spec, !ltb_spec, leb_spec. intros ->.
  change (Prim2SF 0) with (S754_zero false). auto.
Qed.

End DoubleFacts.

Section TopUp.
Import PrimFloat DoubleFacts.
Local Open Scope float_scope.

(** C1, as the code has it: the floor is the constant 50 of [main], not an
    input.  When neither amount is [nan] and the two are not the same
    infinity, the top-up amount is [max(0, 50 - (balance - fares))] and is
    not negative; otherwise it is [nan], which is neither equal to that
    maximum (it is [0]) nor at least [0]. *)
Theorem topup_needed_max (balance total_fare_charged : float) :
  (Double.undefined balance total_fare_charged = false ->
   (Double.topup_needed balance total_fare_charged
    =? Double.target 50 balance total_fare_charged) = true
   /\ (0 <=? Double.topup_needed balance total_fare_charged) = true)
  /\ (Double.undefined balance total_fare_charged = true ->
      is_nan (Double.topup_needed balance total_fare_charged) = true
      /\ (Double.topup_needed balance total_fare_charged
          =? Double.target 50 balance total_fare_charged) = false
      /\ (0 <=? Double.topup_needed balance total_fare_charged) = false).
Proof.
  rewrite undefined_spec. unfold Double.topup_needed, Double.target, Double.max.
  set (t := 50 - (balance - total_fare_charged)).
  split; intros Hn.
  - destruct (t <? 0) eqn:Elt.
    + rewrite (@below_zero t Elt). split; reflexivity.
    + destruct (@not_below_zero t Hn Elt) as (Hle & ->).
      split; [|assumption].
      destruct (t =? 0) eqn:E0; cbn [negb]; [assumption|].
      now apply float_eqb_refl.
  - destruct (@ltb_nan t Hn) as (-> & -> & Hle).
    repeat split; try assumption.
    rewrite FloatAxioms.eqb_spec. apply is_nan_spec in Hn. now rewrite Hn.
Qed.

Lemma topup_needed_max_witness :
  (Double.topup_needed 30 (-4.5) =? Double.target 50 30 (-4.5)) = true
  /\ (0 <=? Double.topup_needed 30 (-4.5)) = true.
Proof.
  apply (proj1 (topup_needed_max 30 (-4.5))). vm_compute. reflexivity.
Defined.

(** C1 as stated fails.  The text ["nan"] is an amount for [float], so the
    week's fares can add up to [nan]: the top-up amount is then [nan], not
    [max(0, nan) = 0], and [nan >= 0] is false.  And no floor other than
    50 can be asked for: with nothing on the card and no fares the amount
    is 50, where a floor of 60 asks for 60. *)
Lemma topup_needed_not_a_number :
  is_nan (Double.topup_needed 20 nan) = true
  /\ (Double.topup_needed 20 nan =? Double.target 50 20 nan) = false
  /\ (0 <=? Double.topup_needed 20 nan) = false
  /\ (Double.topup_needed 0 0 =? 50) = true
  /\ (Double.topup_needed 0 0 =? Double.target 60 0 0) = false.
Proof. repeat split; vm_compute; reflexivity. Qed.

End TopUp.
